(** * SimpleTreeTools: the direct-upload pipeline of [src/lib/metafs.ts]

    A shallow embedding of the fee estimator, the UTXO selector, the
    consolidator, the base-transaction builder and the upload coordinator,
    together with their caller, [src/components/FileTree/MetaTree.vue]: the
    asset pointer it produces, the form it builds over the extracted file
    tree, and the upload of that tree, directory by directory.

    Conventions of the embedding.
    - A JavaScript [number] that holds a satoshi amount, a byte count, an index
      or a status code is an integer of [Z]; doubles are exact on the integers
      the pipeline handles (below 2^53).  The fee rate, which may be a
      fraction of a satoshi per byte, is held as a double and multiplied as
      doubles are: a double is given by the rational it is worth, [JS.double]
      takes a rational to the double nearest to it (53 significant bits, ties
      to the even significand, no place below 2^-1074), and [JS.mul] is the
      exact product rounded that way.  Doubles are taken without their upper
      bound: no product of the estimator comes near 2^1024.
    - [async] functions are computations of the monad [M]: they either return
      a value or throw an [Error], and they append every call to the wallet
      and to the network to a log.
    - The [meta-contract] library ([mvc], [TxComposer]) is not part of the
      repository: its functions are the fields of [MvcLib].  A hex string that
      encodes a script or a transaction is represented by the script or the
      transaction it encodes.
    - The refs of the component are the fields of a state that its functions
      take and give back; what the component does to the outside is kept in
      that state as a list of events.  [console] is left out. *)

From Stdlib Require Import ZArith List String Ascii Bool Lia.
From Stdlib Require Import Permutation Sorted.
From Stdlib Require Import Decimal DecimalString DecimalZ.
From Stdlib Require Import QArith Qround Qpower Lqa.
From Stdlib Require Import Floats.SpecFloat.
Import ListNotations.

Local Open Scope string_scope.
Local Open Scope list_scope.
Local Open Scope Z_scope.

(** ** JavaScript primitives used by the sources *)

Module JS.

(** [`${n}`] and [n.toString()] on an integer. *)
Definition Number_toString (n : Z) : string :=
  NilZero.string_of_int (Z.to_int n).

(** [parseInt(s, 10)] on the strings [Number_toString] produces. *)
Definition parseInt (s : string) : option Z :=
  option_map Z.of_int (NilZero.int_of_string s).

(** [Math.ceil]. *)
Definition Math_ceil (x : Q) : Z := Qceiling x.

(** [s.startsWith(p)]. *)
Definition startsWith (p s : string) : bool := String.prefix p s.

(** [s.includes(p)]. *)
Fixpoint includes (p s : string) : bool :=
  String.prefix p s ||
  match s with
  | EmptyString => false
  | String _ s' => includes p s'
  end.

(** [s.lastIndexOf(c)] followed by the two [slice]s around it: the text
    before the last occurrence of [c] and the text after it. *)
Fixpoint splitLast (c : ascii) (s : string) : option (string * string) :=
  match s with
  | EmptyString => None
  | String a s' =>
      match splitLast c s' with
      | Some (before, after) => Some (String a before, after)
      | None => if Ascii.eqb a c then Some (EmptyString, s') else None
      end
  end.

(** [s.slice(n)]. *)
Fixpoint drop (n : nat) (s : string) : string :=
  match n, s with
  | O, _ => s
  | S n', String _ s' => drop n' s'
  | S _, EmptyString => EmptyString
  end.

(** [x || d] on a number: [0] is falsy. *)
Definition orDefault (x d : Q) : Q := if Qeq_bool x 0 then d else x.

(** The [k] with [2^k <= q < 2^(k+1)], for [q > 0]. *)
Definition binade (q : Q) : Z :=
  let k := Z.log2 (Qnum q) - Z.log2 (Zpos (Qden q)) in
  if Qle_bool (2 ^ k) q then k else k - 1.

(** The integer nearest to [x], the even one of two that are as near. *)
Definition roundTiesToEven (x : Q) : Z :=
  let f := Qfloor x in
  match (x - inject_Z f ?= 1 # 2)%Q with
  | Lt => f
  | Gt => f + 1
  | Eq => if Z.even f then f else f + 1
  end.

(** The exponent of the last place of the double nearest to [q > 0]: 53
    significant bits, and no place below [2^-1074]. *)
Definition lastPlace (q : Q) : Z := Z.max (binade q - 52) (-1074).

(** The double nearest to [q > 0]: [q] rounded at its last place. *)
Definition nearest (q : Q) : Q :=
  let e := lastPlace q in
  Qred (inject_Z (roundTiesToEven (q / 2 ^ e)) * 2 ^ e).

(** The Number value for [q] (ECMAScript 6.1.6.1, IEEE 754 binary64,
    roundTiesToEven), for [q] of magnitude below [2^1024]. *)
Definition double (q : Q) : Q :=
  match (q ?= 0)%Q with
  | Eq => 0%Q
  | Gt => nearest q
  | Lt => (- nearest (- q))%Q
  end.

(** [x * y] on doubles. *)
Definition mul (x y : Q) : Q := double (x * y).

(** [s || d] on a string: the empty string is falsy. *)
Definition orDefaultStr (s d : string) : string :=
  match s with EmptyString => d | _ => s end.

End JS.

(** ** Errors and results *)

(** A JavaScript [Error]: the code only ever reads its [message]. *)
Inductive JsError : Type := Error (msg : string).

Definition message (e : JsError) : string :=
  match e with Error m => m end.

(** The outcome of a call: thrown error or returned value. *)
Definition Result (A : Type) : Type := (JsError + A)%type.

Definition Ok {A : Type} (a : A) : Result A := inr a.
Definition Throw {A : Type} (e : JsError) : Result A := inl e.

(** ** Types of [metafs.ts] *)

Definition Address := string.
Definition Network := string.

(** A script chunk: an opcode, a pushed signature with its hash-type byte, or
    pushed bytes. *)
Inductive Chunk : Type :=
| Opcode (op : Z)
| PushSignature (der : string) (hashType : Z)
| PushBytes (hex : string).

Definition Script := list Chunk.

Record UTXO : Type := mkUTXO {
  txId : string;
  outputIndex : Z;
  script : Script;
  satoshis : Z
}.

Record WalletUTXO : Type := mkWalletUTXO {
  txid : string;
  outIndex : Z;
  address : Address;
  value : Z
}.

Record UTXOData : Type := mkUTXOData {
  utxos : list UTXO;
  totalAmount : Z
}.

(** A transaction input: the outpoint it spends, the output found there
    (what [tx.from] records) and its unlocking script. *)
Record TxInput : Type := mkTxInput {
  prevTxId : string;
  prevOutputIndex : Z;
  prevScript : Script;
  prevSatoshis : Z;
  unlockingScript : Script
}.

Record TxOutput : Type := mkTxOutput {
  out_script : Script;
  out_satoshis : Z
}.

(** [mvc.Transaction]. *)
Record Transaction : Type := mkTransaction {
  version : Z;
  inputs : list TxInput;
  outputs : list TxOutput
}.

(** [MergeResult extends UTXOData]. *)
Record MergeResult : Type := mkMergeResult {
  merged : UTXOData;
  mergeTxId : option string;
  mergeTxHex : option Transaction
}.

Record UploadResult : Type := mkUploadResult {
  upload_txId : string;
  pinId : option string;
  status : option string
}.

Record PayTransaction : Type := mkPayTransaction {
  txComposer : string;
  pay_message : string
}.

Record PayParams : Type := mkPayParams {
  transactions : list PayTransaction;
  feeb : Q
}.

Record PayResult : Type := mkPayResult {
  payedTransactions : list string
}.

(** The [transaction] field of [SignTransactionParams]. *)
Record SignTransactionParams : Type := mkSignTransactionParams {
  txHex : Transaction;
  sign_address : Address;
  inputIndex : Z;
  scriptHex : Script;
  sign_satoshis : Z;
  sigtype : Z
}.

(** The [signature] field of [SignResult]. *)
Record SignResult : Type := mkSignResult {
  sig : string;
  publicKey : string
}.

Record DirectUploadResponse : Type := mkDirectUploadResponse {
  code : Z;
  response_message : option string;
  data : UploadResult
}.

(** The browser's [File]: the pipeline reads its [type] and its [size]. *)
Record File : Type := mkFile {
  file_name : string;
  file_type : string;
  file_size : Z
}.

(** A value appended to a [FormData]: a string, a file, the hex of a
    transaction, or the [toString()] of a number. *)
Inductive FormValue : Type :=
| FormString (s : string)
| FormBlob (f : File)
| FormTxHex (tx : Transaction)
| FormNumber (n : Q).

Definition FormData := list (string * FormValue).

(** What the code reads of a [fetch] response. *)
Record Response : Type := mkResponse {
  ok : bool;
  http_status : Z;
  json : Result DirectUploadResponse
}.

(** ** The environment of the pipeline *)

(** Pinia stores, the build-time configuration, the wallet injected in
    [window.metaidwallet] and the network.  The wallet and the finalizer are
    given by their answers, the fee rate by the rational the store was given
    for it. *)
Record Env : Type := mkEnv {
  mvcFeeRate : Q;
  user_address : Address;
  user_metaid : string;
  network : Network;
  VITE_METAFS_API_BASE : string;
  getUtxos : Result (list WalletUTXO);
  pay : option (PayParams -> Result PayResult);
  signTransaction : SignTransactionParams -> Result (option SignResult);
  fetch : string -> FormData -> Result Response
}.

(** [chainStore.mvcFeeRate()]: the number held for the rate the store was
    given. *)
Definition chainStore_mvcFeeRate (env : Env) : Q := JS.double (mvcFeeRate env).

(** The functions of [meta-contract] the pipeline calls.
    - [buildPublicKeyHashOut]: [mvc.Script.buildPublicKeyHashOut(address)],
      also the script of [tx.to(address, amount)];
    - [toAddress]: [script.toAddress(network)], which may throw or return a
      falsy value ([None]);
    - [TxComposer_serialize]: [new TxComposer(tx).serialize()];
    - [TxComposer_deserialize]: [TxComposer.deserialize(str)] read through
      [getRawHex()] and [new mvc.Transaction(hex)], where [None] is
      [undefined];
    - [getTxId]: the id of a transaction;
    - [Signature_fromTxFormat_toDER]:
      [Signature.fromTxFormat(Buffer.from(sig, 'hex')).toDER()]. *)
Record MvcLib : Type := mkMvcLib {
  buildPublicKeyHashOut : Address -> Script;
  toAddress : Script -> Network -> Result (option Address);
  TxComposer_serialize : Transaction -> string;
  TxComposer_deserialize : option string -> Result Transaction;
  getTxId : Transaction -> string;
  Signature_fromTxFormat_toDER : string -> Result string
}.

(** Modelled from the spec: [mvc.Script.buildPublicKeyHashIn] belongs to the
    library and is not in [src/]; it is the standard two-element
    (signature, public key) pay-to-key-hash unlocking script, the signature
    followed by the low byte of the signature type. *)
Definition buildPublicKeyHashIn (publicKey der : string) (sigtype : Z) : Script :=
  [PushSignature der (Z.land sigtype 255); PushBytes publicKey].

(** ** Computations with exceptions and a log of external calls *)

Inductive Call : Type :=
| CallGetUtxos
| CallPay (p : PayParams)
| CallSignTransaction (p : SignTransactionParams)
| CallFetch (url : string) (body : FormData).

Definition M (A : Type) : Type := list Call -> Result A * list Call.

Definition ret {A : Type} (a : A) : M A := fun log => (Ok a, log).

Definition throw {A : Type} (m : string) : M A := fun log => (Throw (Error m), log).

Definition bind {A B : Type} (m : M A) (k : A -> M B) : M B :=
  fun log =>
    match m log with
    | (inr a, log') => k a log'
    | (inl e, log') => (inl e, log')
    end.

(** [try { m } catch (error) { h error }]. *)
Definition try_catch {A : Type} (m : M A) (h : JsError -> M A) : M A :=
  fun log =>
    match m log with
    | (inl e, log') => h e log'
    | r => r
    end.

(** An [await]ed external call: it is logged, then its answer is returned or
    its rejection thrown. *)
Definition external {A : Type} (c : Call) (answer : Result A) : M A :=
  fun log => (answer, log ++ [c]).

(** A library call that may throw. *)
Definition lift {A : Type} (r : Result A) : M A := fun log => (r, log).

Declare Scope js_scope.
Delimit Scope js_scope with js.
Notation "x <- m ;; k" := (bind m (fun x => k))
  (at level 61, m at next level, right associativity) : js_scope.
Notation "m ;;; k" := (bind m (fun _ => k))
  (at level 61, right associativity) : js_scope.

(** The result and the log of a run that starts with an empty log. *)
Definition run {A : Type} (m : M A) : Result A * list Call := m [].
Definition result_of {A : Type} (m : M A) : Result A := fst (run m).
Definition calls_of {A : Type} (m : M A) : list Call := snd (run m).

(** [catch (error) { throw new Error(`prefix${error.message}`) }]. *)
Definition rethrow {A : Type} (stage : string) (m : M A) : M A :=
  try_catch m (fun e => throw (stage ++ message e)%string).

(** ** [estimateUploadFee] *)

Definition estimatedTxSize (fileSize : Z) : Z :=
  let baseSize := 200 in
  let inputSize := 150 in
  let outputSize := 34 in
  let opReturnOverhead := 50 in
  let path := "/file" in
  let fileHost := "" in
  let finalPath :=
    match fileHost with
    | EmptyString => path
    | _ => (fileHost ++ ":" ++ path)%string
    end in
  let metadataSize := 6 + 10 + Z.of_nat (String.length finalPath) + 10 + 10 + 50 in
  let opReturnSize := opReturnOverhead + metadataSize + fileSize in
  baseSize + inputSize + outputSize * 2 + opReturnSize.

Definition estimateUploadFee (env : Env) (file : File) : Z :=
  let feeRate := JS.orDefault (chainStore_mvcFeeRate env) 1 in
  let estimatedFee :=
    JS.Math_ceil (JS.mul (inject_Z (estimatedTxSize (file_size file))) feeRate) in
  let feeWithMargin :=
    JS.Math_ceil (JS.mul (inject_Z estimatedFee) (JS.double (12 # 10))) in
  feeWithMargin.

(** ** [getWalletUTXOs] *)

Definition filler : Z := 600.

(** [utxos.filter((utxo) => utxo.value > filler)]. *)
Definition fillerUtxos (utxos : list WalletUTXO) : list WalletUTXO :=
  filter (fun utxo => filler <? value utxo) utxos.

(** [sort((a, b) => b.value - a.value)]: the sort of an array is stable, so an
    element goes in front of the later elements that do not exceed it. *)
Fixpoint insertDescending (a : WalletUTXO) (l : list WalletUTXO) : list WalletUTXO :=
  match l with
  | [] => [a]
  | b :: l' =>
      if value b - value a <=? 0 then a :: b :: l'
      else b :: insertDescending a l'
  end.

Fixpoint sortDescending (l : list WalletUTXO) : list WalletUTXO :=
  match l with
  | [] => []
  | a :: l' => insertDescending a (sortDescending l')
  end.

(** The [UTXO] pushed for a wallet output. *)
Definition selectedUtxo (lib : MvcLib) (utxo : WalletUTXO) : UTXO :=
  let scriptHex := buildPublicKeyHashOut lib (address utxo) in
  {| txId := txid utxo;
     outputIndex := outIndex utxo;
     script := scriptHex;
     satoshis := value utxo |}.

(** The [for (const utxo of sortedUtxos)] loop with its [break]. *)
Fixpoint selectLoop (lib : MvcLib) (requiredAmount : Z)
    (sortedUtxos : list WalletUTXO) (selectedUtxos : list UTXO) (totalAmount : Z)
    : list UTXO * Z :=
  match sortedUtxos with
  | [] => (selectedUtxos, totalAmount)
  | utxo :: rest =>
      let selectedUtxos := selectedUtxos ++ [selectedUtxo lib utxo] in
      let totalAmount := totalAmount + value utxo in
      if requiredAmount + 1 <=? totalAmount then (selectedUtxos, totalAmount)
      else selectLoop lib requiredAmount rest selectedUtxos totalAmount
  end.

Definition msgNoUtxos : string := "No available UTXOs in wallet".

Definition msgNoUsableUtxos : string :=
  "No UTXOs larger than 600 satoshis available in wallet".

Definition msgInsufficient (need have : Z) : string :=
  ("Insufficient balance! Need " ++ JS.Number_toString need
   ++ " satoshis, but only have " ++ JS.Number_toString have ++ " satoshis")%string.

Definition getWalletUTXOs (lib : MvcLib) (env : Env) (requiredAmount : Z) : M UTXOData :=
  rethrow "Failed to get UTXOs: "
    (utxos <- external CallGetUtxos (getUtxos env) ;;
     if (List.length utxos =? 0)%nat then throw msgNoUtxos
     else
       let fillerUtxos := fillerUtxos utxos in
       if (List.length fillerUtxos =? 0)%nat then throw msgNoUsableUtxos
       else
         let sortedUtxos := sortDescending fillerUtxos in
         let '(selectedUtxos, totalAmount) :=
           selectLoop lib requiredAmount sortedUtxos [] 0 in
         if totalAmount <? requiredAmount + 1
         then throw (msgInsufficient (requiredAmount + 1) totalAmount)
         else ret {| utxos := selectedUtxos; totalAmount := totalAmount |})%js.

(** ** [mergeUTXOs] *)

(** [output.script.toAddress(network)] inside its [try]: a throw, a falsy
    address and an address that differs from the user's all leave the loop
    running. *)
Definition paysTo (lib : MvcLib) (env : Env) (output : TxOutput) : bool :=
  match toAddress lib (out_script output) (network env) with
  | inr (Some addr) => String.eqb addr (user_address env)
  | _ => false
  end.

(** The [for (let i = 0; ...)] loop from index [i] on: the index and the
    amount it leaves in [mergedOutputIndex] and [mergedOutputAmount], or
    [None] when the index is still [-1]. *)
Fixpoint scanOutputs (lib : MvcLib) (env : Env) (outs : list TxOutput) (i : Z)
    : option (Z * Z) :=
  match outs with
  | [] => None
  | output :: rest =>
      if paysTo lib env output then Some (i, out_satoshis output)
      else scanOutputs lib env rest (i + 1)
  end.

Definition msgUndefinedSatoshis : string :=
  "Cannot read properties of undefined (reading 'satoshis')".

Definition msgUndefinedScript : string :=
  "Cannot read properties of undefined (reading 'script')".

(** The loop and the fallback on output [0] that follows it. *)
Definition locateMergedOutput (lib : MvcLib) (env : Env) (outs : list TxOutput)
    : Result (Z * Z) :=
  match scanOutputs lib env outs 0 with
  | Some found => Ok found
  | None =>
      match nth_error outs 0 with
      | Some first => Ok (0, out_satoshis first)
      | None => Throw (Error msgUndefinedSatoshis)
      end
  end.

(** The transaction handed to the wallet: version 10, no input, the single
    output [mergeTx.to(userStore.last.address, estimatedFee)]. *)
Definition mergeTx (lib : MvcLib) (env : Env) (estimatedFee : Z) : Transaction :=
  {| version := 10;
     inputs := [];
     outputs := [ {| out_script := buildPublicKeyHashOut lib (user_address env);
                     out_satoshis := estimatedFee |} ] |}.

Definition mergePayParams (lib : MvcLib) (env : Env) (estimatedFee : Z) : PayParams :=
  let txComposerSerialize := TxComposer_serialize lib (mergeTx lib env estimatedFee) in
  let feeRate := JS.orDefault (chainStore_mvcFeeRate env) 1 in
  {| transactions := [ {| txComposer := txComposerSerialize;
                          pay_message := "Merge UTXOs" |} ];
     feeb := feeRate |}.

Definition mergeUTXOs (lib : MvcLib) (env : Env) (_utxoData : UTXOData)
    (estimatedFee : Z) : M MergeResult :=
  rethrow "Failed to merge UTXOs: "
    (match pay env with
     | None => throw "Wallet does not support pay method"
     | Some pay =>
         let payParams := mergePayParams lib env estimatedFee in
         payResult <- external (CallPay payParams) (pay payParams) ;;
         let payedTxComposerStr := nth_error (payedTransactions payResult) 0 in
         payedTxComposer <- lift (TxComposer_deserialize lib payedTxComposerStr) ;;
         let signedMergeTxHex := payedTxComposer in
         let mergeTxId := getTxId lib payedTxComposer in
         let parsedMergeTx := signedMergeTxHex in
         found <- lift (locateMergedOutput lib env (outputs parsedMergeTx)) ;;
         let '(mergedOutputIndex, mergedOutputAmount) := found in
         match nth_error (outputs parsedMergeTx) (Z.to_nat mergedOutputIndex) with
         | None => throw msgUndefinedScript
         | Some output =>
             let newUtxo :=
               {| txId := mergeTxId;
                  outputIndex := mergedOutputIndex;
                  script := out_script output;
                  satoshis := mergedOutputAmount |} in
             ret {| merged := {| utxos := [newUtxo]; totalAmount := satoshis newUtxo |};
                    mergeTxId := Some mergeTxId;
                    mergeTxHex := Some signedMergeTxHex |}
         end
     end)%js.

(** ** [buildAndSignBaseTx] *)

(** [0x3 | 0x80 | 0x40]. *)
Definition SIGHASH_SINGLE_ANYONECANPAY : Z :=
  Z.lor (Z.lor 3 128) 64.

Definition msgNotExactlyOne (n : nat) : string :=
  ("SIGHASH_SINGLE requires exactly 1 UTXO, got "
   ++ JS.Number_toString (Z.of_nat n))%string.

(** The transaction before signing: version 10, [tx.from(utxo)] and
    [tx.to(userStore.last.address, 1)]. *)
Definition baseTx (lib : MvcLib) (env : Env) (utxo : UTXO) : Transaction :=
  {| version := 10;
     inputs := [ {| prevTxId := txId utxo;
                    prevOutputIndex := outputIndex utxo;
                    prevScript := script utxo;
                    prevSatoshis := satoshis utxo;
                    unlockingScript := [] |} ];
     outputs := [ {| out_script := buildPublicKeyHashOut lib (user_address env);
                     out_satoshis := 1 |} ] |}.

Definition signRequest (lib : MvcLib) (env : Env) (utxo : UTXO) : SignTransactionParams :=
  {| txHex := baseTx lib env utxo;
     sign_address := user_address env;
     inputIndex := 0;
     scriptHex := script utxo;
     sign_satoshis := satoshis utxo;
     sigtype := SIGHASH_SINGLE_ANYONECANPAY |}.

(** [tx.inputs[0].setScript(unlockingScript)]. *)
Definition setScript0 (tx : Transaction) (unlocking : Script) : Transaction :=
  {| version := version tx;
     inputs :=
       match inputs tx with
       | [] => []
       | input :: rest =>
           {| prevTxId := prevTxId input;
              prevOutputIndex := prevOutputIndex input;
              prevScript := prevScript input;
              prevSatoshis := prevSatoshis input;
              unlockingScript := unlocking |} :: rest
       end;
     outputs := outputs tx |}.

Definition buildAndSignBaseTx (lib : MvcLib) (env : Env) (utxoData : UTXOData)
    : M Transaction :=
  rethrow "Failed to build/sign MVC transaction: "
    (match utxos utxoData with
     | [utxo] =>
         let tx := baseTx lib env utxo in
         let request := signRequest lib env utxo in
         signResult <- external (CallSignTransaction request) (signTransaction env request) ;;
         match signResult with
         | None => throw "Failed to get signature"
         | Some signature =>
             der <- lift (Signature_fromTxFormat_toDER lib (sig signature)) ;;
             let unlockingScript :=
               buildPublicKeyHashIn (publicKey signature) der SIGHASH_SINGLE_ANYONECANPAY in
             let signedTxHex := setScript0 tx unlockingScript in
             ret signedTxHex
         end
     | other => throw (msgNotExactlyOne (List.length other))
     end)%js.

(** ** [directUpload] *)

Definition binaryContentType (file : File) : string :=
  let contentType := JS.orDefaultStr (file_type file) "application/octet-stream" in
  if JS.includes ";binary" contentType then contentType
  else (contentType ++ ";binary")%string.

Definition uploadForm (env : Env) (file : File) (preTxHex : Transaction)
    (totalInputAmount : Z) (mergeTxHex : option Transaction) : FormData :=
  let contentType := binaryContentType file in
  let finalPath := "/file" in
  [("file", FormBlob file); ("path", FormString finalPath)]
  ++ match mergeTxHex with
     | Some hex => [("mergeTxHex", FormTxHex hex)]
     | None => []
     end
  ++ [("preTxHex", FormTxHex preTxHex);
      ("operation", FormString "create");
      ("contentType", FormString contentType);
      ("metaId", FormString (user_metaid env));
      ("address", FormString (user_address env));
      ("changeAddress", FormString (user_address env));
      (* the string of a number is never empty: [|| '1'] does not apply *)
      ("feeRate", FormNumber (chainStore_mvcFeeRate env));
      ("totalInputAmount", FormString (JS.Number_toString totalInputAmount))].

Definition uploadUrl (env : Env) : string :=
  (VITE_METAFS_API_BASE env ++ "/api/v1/files/direct-upload")%string.

(** [new Error(result.message)]: an absent message gives the empty one. *)
Definition messageOrEmpty (m : option string) : string :=
  match m with Some s => s | None => "" end.

Definition directUpload (env : Env) (file : File) (preTxHex : Transaction)
    (totalInputAmount : Z) (mergeTxHex : option Transaction) : M UploadResult :=
  rethrow "DirectUpload failed: "
    (let formData := uploadForm env file preTxHex totalInputAmount mergeTxHex in
     response <- external (CallFetch (uploadUrl env) formData)
                          (fetch env (uploadUrl env) formData) ;;
     if negb (ok response)
     then throw ("HTTP Error: " ++ JS.Number_toString (http_status response))%string
     else
       result <- lift (json response) ;;
       if negb (code result =? 0)
       then throw (messageOrEmpty (response_message result))
       else ret (data result))%js.

(** ** [uploadFileToChainDirect] *)

Definition uploadFileToChainDirect (lib : MvcLib) (env : Env) (file : File)
    : M UploadResult :=
  try_catch
    (let estimatedFee := estimateUploadFee env file in
     selection <- getWalletUTXOs lib env estimatedFee ;;
     final <-
       (if (1 <? List.length (utxos selection))%nat
        then
          mergeResult <- mergeUTXOs lib env selection estimatedFee ;;
          ret ({| utxos := utxos (merged mergeResult);
                  totalAmount := totalAmount (merged mergeResult) |},
               mergeTxHex mergeResult)
        else
          ret ({| utxos := utxos selection;
                  totalAmount := totalAmount selection |}, None)) ;;
     let '(finalUtxo, mergeTxHex) := final in
     preTxHex <- buildAndSignBaseTx lib env finalUtxo ;;
     uploadResult <- directUpload env file preTxHex (totalAmount finalUtxo) mergeTxHex ;;
     ret uploadResult)%js
    (fun error => fun log => (Throw error, log)).

(** ** The asset pointer of [MetaTree.vue] *)

(** [`metafile://${result.txId}i0`]. *)
Definition pinIdOf (result : UploadResult) : string :=
  ("metafile://" ++ upload_txId result ++ "i0")%string.

(** ** A concrete library and environment, for evaluation *)

Module Sample.

Definition own : Address := "1Own".

(** A pay-to-key-hash script is represented by a push of the address, so
    that decoding is exact. *)
Definition p2pkh (a : Address) : Script :=
  [Opcode 118; Opcode 169; PushBytes a; Opcode 136; Opcode 172].

Definition decode (s : Script) (_ : Network) : Result (option Address) :=
  match s with
  | [Opcode 118; Opcode 169; PushBytes a; Opcode 136; Opcode 172] => Ok (Some a)
  | [] => Throw (Error "Invalid script")
  | _ => Ok None
  end.

Definition signedChangeFirst : Transaction :=
  {| version := 10;
     inputs := [];
     outputs := [ {| out_script := p2pkh own; out_satoshis := 4000 |};
                  {| out_script := p2pkh own; out_satoshis := 671 |} ] |}.

Definition signedDeclaredFirst : Transaction :=
  {| version := 10;
     inputs := [];
     outputs := [ {| out_script := p2pkh own; out_satoshis := 671 |};
                  {| out_script := p2pkh "1Other"; out_satoshis := 300 |} ] |}.

Definition signedNoMatch : Transaction :=
  {| version := 10;
     inputs := [];
     outputs := [ {| out_script := p2pkh "1Other"; out_satoshis := 300 |};
                  {| out_script := []; out_satoshis := 5 |} ] |}.

(** The composer strings the sample wallet answers with. *)
Definition deserialize (s : option string) : Result Transaction :=
  match s with
  | Some "change-first" => Ok signedChangeFirst
  | Some "declared-first" => Ok signedDeclaredFirst
  | Some "no-match" => Ok signedNoMatch
  | Some _ => Throw (Error "Unexpected token")
  | None => Throw (Error "undefined is not valid JSON")
  end.

Definition lib : MvcLib :=
  {| buildPublicKeyHashOut := p2pkh;
     toAddress := decode;
     TxComposer_serialize := fun _ => "composer";
     TxComposer_deserialize := deserialize;
     getTxId := fun _ => "ab12";
     Signature_fromTxFormat_toDER := fun s => Ok s |}.

Definition wu (v : Z) : WalletUTXO :=
  {| txid := "cd34"; outIndex := 0; address := own; value := v |}.

Definition uploaded : UploadResult :=
  {| upload_txId := "ef56"; pinId := None; status := None |}.

Definition response (isOk : bool) (st c : Z) (m : option string) : Response :=
  {| ok := isOk;
     http_status := st;
     json := Ok {| code := c; response_message := m; data := uploaded |} |}.

(** An environment with the given fee rate, wallet outputs, pay answer and
    finalizer answer. *)
Definition env (rate : Q) (outs : list WalletUTXO) (payed : string)
    (resp : Response) : Env :=
  {| mvcFeeRate := rate;
     user_address := own;
     user_metaid := "meta";
     network := "mainnet";
     VITE_METAFS_API_BASE := "https://api";
     getUtxos := Ok outs;
     pay := Some (fun _ => Ok {| payedTransactions := [payed] |});
     signTransaction := fun _ => Ok (Some {| sig := "3044"; publicKey := "02aa" |});
     fetch := fun _ _ => Ok resp |}.

Definition file (n : Z) : File :=
  {| file_name := "a.bin"; file_type := ""; file_size := n |}.

Definition okResponse : Response := response true 200 0 None.

End Sample.

(** ** Notions used to state the properties *)

(** The rational a finite binary64 number of the Standard Library is worth,
    and the binary64 numbers nearest to an integer and to a fraction of
    integers below 2^53. *)
Definition binary64_value (x : spec_float) : Q :=
  match x with
  | S754_finite s m e => ((if s then -1 else 1) * inject_Z (Zpos m) * 2 ^ e)%Q
  | _ => 0%Q
  end.

Definition binary64_of_Z (n : Z) : spec_float := binary_normalize 53 1024 n 0 false.

Definition binary64_of_Q (q : Q) : spec_float :=
  SFdiv 53 1024 (binary64_of_Z (Qnum q)) (binary64_of_Z (Zpos (Qden q))).

Module FeeSpec.

Definition metadataOverhead : Z := 6 + 10 + 5 + 10 + 10 + 50.

(** The margined fee as the specification writes it:
    [ceil (ceil (size * rate) * 1.2)] with
    [size = 200 + 150 + 2 * 34 + 50 + metadataOverhead + fileSize]. *)
Definition marginedFee (fileSize : Z) (rate : Q) : Z :=
  let size := 200 + 150 + 2 * 34 + 50 + metadataOverhead + fileSize in
  let baseFee := Qceiling (inject_Z size * rate) in
  Qceiling (inject_Z baseFee * (12 # 10)).

End FeeSpec.

(** The total of a list of wallet outputs, and of a list of selected ones. *)
Definition sumValues (l : list WalletUTXO) : Z :=
  fold_right (fun utxo acc => value utxo + acc) 0 l.

Definition sumSatoshis (l : list UTXO) : Z :=
  fold_right (fun utxo acc => satoshis utxo + acc) 0 l.

(** [a] may stand in front of [b] in a list that is descending by amount. *)
Definition descending (a b : WalletUTXO) : Prop := value b <= value a.

(** The outcome of the selector on the outputs [ws] the wallet reports:
    [getWalletUTXOs] with the bookkeeping of the monad taken away
    (lemma [getWalletUTXOs_run]). *)
Definition selectorOutcome (lib : MvcLib) (req : Z) (ws : list WalletUTXO)
    : Result UTXOData :=
  match ws with
  | [] => Throw (Error ("Failed to get UTXOs: " ++ msgNoUtxos)%string)
  | _ =>
      match fillerUtxos ws with
      | [] => Throw (Error ("Failed to get UTXOs: " ++ msgNoUsableUtxos)%string)
      | survivors =>
          let '(sel, tot) := selectLoop lib req (sortDescending survivors) [] 0 in
          if tot <? req + 1
          then Throw (Error ("Failed to get UTXOs: "
                             ++ msgInsufficient (req + 1) tot)%string)
          else Ok {| utxos := sel; totalAmount := tot |}
      end
  end.

(** The signature-type flags of the chain. *)
Definition SIGHASH_SINGLE : Z := 3.
Definition SIGHASH_FORKID : Z := 64.
Definition SIGHASH_ANYONECANPAY : Z := 128.

(** The base type of a signature type: its low five bits. *)
Definition baseType (sigtype : Z) : Z := Z.land sigtype 31.

(** No output of the list pays the user's address. *)
Definition nonePaysTo (lib : MvcLib) (env : Env) (outs : list TxOutput) : Prop :=
  Forall (fun output => paysTo lib env output = false) outs.

(** The output [mergeTx.to(userStore.last.address, estimatedFee)] declares. *)
Definition declaredOutput (lib : MvcLib) (env : Env) (estimatedFee : Z) : TxOutput :=
  {| out_script := buildPublicKeyHashOut lib (user_address env);
     out_satoshis := estimatedFee |}.

(** The environment whose wallet reports the outputs [ws], all else equal. *)
Definition withUtxos (env : Env) (ws : list WalletUTXO) : Env :=
  {| mvcFeeRate := mvcFeeRate env;
     user_address := user_address env;
     user_metaid := user_metaid env;
     network := network env;
     VITE_METAFS_API_BASE := VITE_METAFS_API_BASE env;
     getUtxos := Ok ws;
     pay := pay env;
     signTransaction := signTransaction env;
     fetch := fetch env |}.

(** Steps 5 to 7 of [uploadFileToChainDirect] on the branch that merges,
    written without the selection: consolidate, sign the base transaction
    over the merged output, upload with the merged amount. *)
Definition consolidatedUpload (lib : MvcLib) (env : Env) (file : File)
    : M UploadResult :=
  (mergeResult <- mergeUTXOs lib env {| utxos := []; totalAmount := 0 |}
                    (estimateUploadFee env file) ;;
   preTxHex <- buildAndSignBaseTx lib env (merged mergeResult) ;;
   directUpload env file preTxHex (totalAmount (merged mergeResult))
     (mergeTxHex mergeResult))%js.

Module AssetPointer.

(** Modelled from the spec: the general pointer format
    [{scheme}://{finalTransactionId}i{outputIndex}] of the external
    interfaces; [src/] only builds the instance [pinIdOf]. *)
Definition build (scheme txId : string) (index : Z) : string :=
  (scheme ++ "://" ++ txId ++ "i" ++ JS.Number_toString index)%string.

(** Modelled from the spec: no decoder of pointers is in [src/]; a pointer
    is decoded by splitting it at its last ['i'], taking the scheme prefix
    off the left part and reading the right part as the index. *)
Definition decode (scheme pointer : string) : option (string * Z) :=
  match JS.splitLast "i" pointer with
  | Some (before, after) =>
      let head := (scheme ++ "://")%string in
      if JS.startsWith head before then
        match JS.parseInt after with
        | Some index => Some (JS.drop (String.length head) before, index)
        | None => None
        end
      else None
  | None => None
  end.

End AssetPointer.

(** [s] is made of outputs taken from [l], each at most as often as [l]
    holds it. *)
Definition takenFrom (s l : list WalletUTXO) : Prop :=
  exists rest, Permutation (s ++ rest) l.

(** The outputs of amount [v], in the order of the list. *)
Definition ofAmount (v : Z) (l : list WalletUTXO) : list WalletUTXO :=
  filter (fun utxo => value utxo =? v) l.

(** [formData.get(key)]: the first value appended under [key]. *)
Fixpoint formField (key : string) (form : FormData) : option FormValue :=
  match form with
  | [] => None
  | (k, v) :: rest => if String.eqb k key then Some v else formField key rest
  end.

(** The error a stage throws: the stage prefix, then the message of the
    cause. *)
Definition thrownBy (stage : string) (r : JsError) : Prop :=
  exists cause, r = Error (stage ++ cause)%string.

(** Steps 6 and 7 of [uploadFileToChainDirect] once [finalUtxo] holds the
    single output [utxo]: sign the base transaction over it and upload. *)
Definition signAndUpload (lib : MvcLib) (env : Env) (file : File) (utxo : UTXO)
    (mergeTxHex : option Transaction) : M UploadResult :=
  (preTxHex <- buildAndSignBaseTx lib env
                 {| utxos := [utxo]; totalAmount := satoshis utxo |} ;;
   directUpload env file preTxHex (satoshis utxo) mergeTxHex)%js.

(** The transaction id the first input of a transaction spends from. *)
Definition prevTxId_of_first (tx : Transaction) : option string :=
  match inputs tx with
  | input :: _ => Some (prevTxId input)
  | [] => None
  end.

(** The outpoint of a wallet output and of a selected output. *)
Definition walletOutpoint (utxo : WalletUTXO) : string * Z :=
  (txid utxo, outIndex utxo).

Definition outpoint (utxo : UTXO) : string * Z :=
  (txId utxo, outputIndex utxo).

(** ** [MetaTree.vue]: the form built over the extracted file tree *)

#[local] Set Warnings "-register-all".

Inductive NodeType : Type := NodeFile | NodeDirectory.

(** A [Blob]: its MIME type and its bytes. *)
Record Blob : Type := mkBlob {
  blob_type : string;
  blob_bytes : list Byte.byte
}.

(** [FileTreeNode] of [zip-handler.ts]; an optional field that is absent is
    [None]. *)
Inductive FileTreeNode : Type :=
| mkFileTreeNode (name path : string) (type : NodeType) (size : option Z)
    (children : option (list FileTreeNode)) (blobUrl : option string)
    (blob : option Blob).

Definition node_name (n : FileTreeNode) : string :=
  match n with mkFileTreeNode name _ _ _ _ _ _ => name end.
Definition node_path (n : FileTreeNode) : string :=
  match n with mkFileTreeNode _ path _ _ _ _ _ => path end.
Definition node_type (n : FileTreeNode) : NodeType :=
  match n with mkFileTreeNode _ _ type _ _ _ _ => type end.
Definition node_size (n : FileTreeNode) : option Z :=
  match n with mkFileTreeNode _ _ _ size _ _ _ => size end.
Definition node_children (n : FileTreeNode) : option (list FileTreeNode) :=
  match n with mkFileTreeNode _ _ _ _ children _ _ => children end.
Definition node_blobUrl (n : FileTreeNode) : option string :=
  match n with mkFileTreeNode _ _ _ _ _ blobUrl _ => blobUrl end.
Definition node_blob (n : FileTreeNode) : option Blob :=
  match n with mkFileTreeNode _ _ _ _ _ _ blob => blob end.

Definition isDirectory (t : NodeType) : bool :=
  match t with NodeDirectory => true | NodeFile => false end.
Definition isFile (t : NodeType) : bool :=
  match t with NodeFile => true | NodeDirectory => false end.

(** The two tests that open [filterSystemFiles] and [convertNodeToFormItem]:
    a [__MACOSX] directory or a [.DS_Store] file. *)
Definition isSystemNode (name : string) (type : NodeType) : bool :=
  (String.eqb name "__MACOSX" && isDirectory type)
  || (String.eqb name ".DS_Store" && isFile type).

(** [l.map(f).filter(x => x !== null)]. *)
Definition mapNotNull {A B : Type} (f : A -> option B) : list A -> list B :=
  fix go (l : list A) : list B :=
    match l with
    | [] => []
    | a :: l' =>
        match f a with
        | Some b => b :: go l'
        | None => go l'
        end
    end.

(** [xs.length > 0 ? xs : undefined]. *)
Definition nonEmptyOrUndefined {A : Type} (xs : list A) : option (list A) :=
  match xs with
  | [] => None
  | _ => Some xs
  end.

Fixpoint filterSystemFiles (node : FileTreeNode) : option FileTreeNode :=
  match node with
  | mkFileTreeNode name path type size children blobUrl blob =>
      if String.eqb name "__MACOSX" && isDirectory type then None
      else if String.eqb name ".DS_Store" && isFile type then None
      else
        match type, children with
        | NodeFile, _ => Some node
        | NodeDirectory, Some children =>
            let filteredChildren := mapNotNull filterSystemFiles children in
            Some (mkFileTreeNode name path type size
                    (nonEmptyOrUndefined filteredChildren) blobUrl blob)
        | NodeDirectory, None => Some node
        end
  end.

Inductive ItemType : Type := ItemBlob | ItemTree.

Inductive FormItem : Type :=
| mkFormItem (id name path : string) (type : ItemType) (size : option Z)
    (level : Z) (expanded editable : bool) (children : option (list FormItem))
    (node : FileTreeNode) (pinId : option string).

Definition item_id (i : FormItem) : string :=
  match i with mkFormItem id _ _ _ _ _ _ _ _ _ _ => id end.
Definition item_name (i : FormItem) : string :=
  match i with mkFormItem _ name _ _ _ _ _ _ _ _ _ => name end.
Definition item_path (i : FormItem) : string :=
  match i with mkFormItem _ _ path _ _ _ _ _ _ _ _ => path end.
Definition item_type (i : FormItem) : ItemType :=
  match i with mkFormItem _ _ _ type _ _ _ _ _ _ _ => type end.
Definition item_size (i : FormItem) : option Z :=
  match i with mkFormItem _ _ _ _ size _ _ _ _ _ _ => size end.
Definition item_level (i : FormItem) : Z :=
  match i with mkFormItem _ _ _ _ _ level _ _ _ _ _ => level end.
Definition item_expanded (i : FormItem) : bool :=
  match i with mkFormItem _ _ _ _ _ _ expanded _ _ _ _ => expanded end.
Definition item_editable (i : FormItem) : bool :=
  match i with mkFormItem _ _ _ _ _ _ _ editable _ _ _ => editable end.
Definition item_children (i : FormItem) : option (list FormItem) :=
  match i with mkFormItem _ _ _ _ _ _ _ _ children _ _ => children end.
Definition item_node (i : FormItem) : FileTreeNode :=
  match i with mkFormItem _ _ _ _ _ _ _ _ _ node _ => node end.
Definition item_pinId (i : FormItem) : option string :=
  match i with mkFormItem _ _ _ _ _ _ _ _ _ _ pinId => pinId end.

(** [`item-${++itemIdCounter}`] for the counter already incremented. *)
Definition itemId (counter : Z) : string :=
  ("item-" ++ JS.Number_toString counter)%string.

(** [convertNodeToFormItem(node, level, parentPath)] from the value
    [itemIdCounter] of the counter: the item, or [None] for [null], and the
    counter afterwards.  The children are converted from left to right. *)
Fixpoint convertNodeToFormItem (node : FileTreeNode) (level : Z)
    (parentPath : string) (itemIdCounter : Z) : option FormItem * Z :=
  match node with
  | mkFileTreeNode name path type size children blobUrl blob =>
      if String.eqb name "__MACOSX" && isDirectory type then (None, itemIdCounter)
      else if String.eqb name ".DS_Store" && isFile type then (None, itemIdCounter)
      else
        let itemIdCounter := itemIdCounter + 1 in
        let id := itemId itemIdCounter in
        let '(filteredChildren, itemIdCounter) :=
          match children with
          | Some (child :: others) =>
              (fix convertAll (l : list FileTreeNode) (counter : Z)
                 : list FormItem * Z :=
                 match l with
                 | [] => ([], counter)
                 | c :: l' =>
                     let '(converted, counter) :=
                       convertNodeToFormItem c (level + 1) path counter in
                     let '(rest, counter) := convertAll l' counter in
                     (match converted with
                      | Some item => item :: rest
                      | None => rest
                      end, counter)
                 end) (child :: others) itemIdCounter
          | _ => ([], itemIdCounter)
          end in
        (Some (mkFormItem id name path
                 (match type with NodeFile => ItemBlob | NodeDirectory => ItemTree end)
                 size level (level <? 2) false
                 (nonEmptyOrUndefined filteredChildren)
                 node None),
         itemIdCounter)
  end.

(** [saveAllItems(item)] of [buildFormData]: the item, then all the items
    below it, children from left to right. *)
Fixpoint saveAllItems (item : FormItem) : list FormItem :=
  item ::
  match item_children item with
  | Some children => flat_map saveAllItems children
  | None => []
  end.

(** [flattenTree(items)]: an item, then, when it is expanded and has
    children, what its children flatten to. *)
Fixpoint flattenItem (item : FormItem) : list FormItem :=
  item ::
  match item_children item with
  | Some (child :: others) =>
      if item_expanded item then flat_map flattenItem (child :: others) else []
  | _ => []
  end.

Definition flattenTree (items : list FormItem) : list FormItem :=
  flat_map flattenItem items.

(** [findItemById(items, id)]. *)
Fixpoint findInItem (id : string) (item : FormItem) : option FormItem :=
  if String.eqb (item_id item) id then Some item
  else
    match item_children item with
    | Some children =>
        (fix findIn (l : list FormItem) : option FormItem :=
           match l with
           | [] => None
           | c :: l' =>
               match findInItem id c with
               | Some found => Some found
               | None => findIn l'
               end
           end) children
    | None => None
    end.

Fixpoint findItemById (items : list FormItem) (id : string) : option FormItem :=
  match items with
  | [] => None
  | item :: rest =>
      match findInItem id item with
      | Some found => Some found
      | None => findItemById rest id
      end
  end.

(** The state of the component: the counter and the two lists. *)
Record FormState : Type := mkFormState {
  itemIdCounter : Z;
  formItems : list FormItem;
  allFormItems : list FormItem
}.

(** [buildFormData()] for the value [processedTree] of the prop. *)
Definition buildFormData (processedTree : option FileTreeNode) (st : FormState)
    : FormState :=
  let emptied :=
    {| itemIdCounter := itemIdCounter st; formItems := []; allFormItems := [] |} in
  match processedTree with
  | None => emptied
  | Some tree =>
      match filterSystemFiles tree with
      | None => emptied
      | Some filteredTree =>
          match convertNodeToFormItem filteredTree 0 "" (itemIdCounter st) with
          | (None, counter) =>
              {| itemIdCounter := counter; formItems := []; allFormItems := [] |}
          | (Some rootItem, counter) =>
              {| itemIdCounter := counter;
                 formItems := flattenTree [rootItem];
                 allFormItems := saveAllItems rootItem |}
          end
      end
  end.

(** The items of the form are objects shared by [formItems], [allFormItems]
    and the [children] of their parents; [convertNodeToFormItem] gives each
    a different id, so that an object is known by its id.  Writing
    [x.expanded = !x.expanded] for the object of id [id] is then writing the
    field wherever the object stands. *)
Fixpoint flipExpanded (id : string) (item : FormItem) : FormItem :=
  match item with
  | mkFormItem id' name path type size level expanded editable children node pinId =>
      mkFormItem id' name path type size level
        (if String.eqb id' id then negb expanded else expanded) editable
        (match children with
         | Some cs => Some (map (flipExpanded id) cs)
         | None => None
         end)
        node pinId
  end.

Definition flipItems (id : string) (st : FormState) : FormState :=
  {| itemIdCounter := itemIdCounter st;
     formItems := map (flipExpanded id) (formItems st);
     allFormItems := map (flipExpanded id) (allFormItems st) |}.

(** [toggleExpand(item)] for the value [processedTree] of the prop: nothing
    for a blob or an item without [children]; else the two writes of
    [expanded], on the item found in [allFormItems] and on [item], and
    [buildFormData()]. *)
Definition toggleExpand (processedTree : option FileTreeNode) (item : FormItem)
    (st : FormState) : FormState :=
  match item_type item, item_children item with
  | ItemTree, Some _ =>
      let st :=
        match findItemById (allFormItems st) (item_id item) with
        | Some targetItem => flipItems (item_id targetItem) st
        | None => st
        end in
      let st := flipItems (item_id item) st in
      buildFormData processedTree st
  | _, _ => st
  end.

(** An item and the items below it, their ids forgotten. *)
Fixpoint withoutIds (item : FormItem) : FormItem :=
  match item with
  | mkFormItem _ name path type size level expanded editable children node pinId =>
      mkFormItem "" name path type size level expanded editable
        (match children with
         | Some cs => Some (map withoutIds cs)
         | None => None
         end)
        node pinId
  end.

(** Induction on a file tree, and on an item of the form, with the property
    available for the children. *)
Fixpoint FileTreeNode_induction (P : FileTreeNode -> Prop)
    (step : forall name path type size children blobUrl blob,
        match children with Some cs => Forall P cs | None => True end ->
        P (mkFileTreeNode name path type size children blobUrl blob))
    (n : FileTreeNode) : P n :=
  match n with
  | mkFileTreeNode name path type size children blobUrl blob =>
      step name path type size children blobUrl blob
        (match children
               return match children with Some cs => Forall P cs | None => True end
         with
         | Some cs =>
             (fix all (l : list FileTreeNode) : Forall P l :=
                match l with
                | [] => Forall_nil P
                | c :: l' => Forall_cons c (FileTreeNode_induction P step c) (all l')
                end) cs
         | None => I
         end)
  end.

Fixpoint FormItem_induction (P : FormItem -> Prop)
    (step : forall id name path type size level expanded editable children node pinId,
        match children with Some cs => Forall P cs | None => True end ->
        P (mkFormItem id name path type size level expanded editable children
             node pinId))
    (i : FormItem) : P i :=
  match i with
  | mkFormItem id name path type size level expanded editable children node pinId =>
      step id name path type size level expanded editable children node pinId
        (match children
               return match children with Some cs => Forall P cs | None => True end
         with
         | Some cs =>
             (fix all (l : list FormItem) : Forall P l :=
                match l with
                | [] => Forall_nil P
                | c :: l' => Forall_cons c (FormItem_induction P step c) (all l')
                end) cs
         | None => I
         end)
  end.

(** No [__MACOSX] directory and no [.DS_Store] file at the node or below it,
    going down through the children of directories. *)
Fixpoint freeOfSystemFiles (n : FileTreeNode) : bool :=
  match n with
  | mkFileTreeNode name _ type _ children _ _ =>
      negb (isSystemNode name type)
      && match type, children with
         | NodeDirectory, Some cs => forallb freeOfSystemFiles cs
         | _, _ => true
         end
  end.

(** The conversion of the children of a node, from left to right. *)
Definition convertChildren (level : Z) (path : string)
    : list FileTreeNode -> Z -> list FormItem * Z :=
  fix convertAll (l : list FileTreeNode) (counter : Z) : list FormItem * Z :=
    match l with
    | [] => ([], counter)
    | c :: l' =>
        let '(converted, counter) :=
          convertNodeToFormItem c (level + 1) path counter in
        let '(rest, counter) := convertAll l' counter in
        (match converted with
         | Some item => item :: rest
         | None => rest
         end, counter)
    end.

(** The ids [item-(c+1)], ..., [item-(c+n)]. *)
Definition idsAfter (c : Z) (n : nat) : list string :=
  map (fun k => itemId (c + Z.of_nat k)) (seq 1 n).

(** An item made for a node at [level]: it takes the name, the path and the
    size of its node, is a blob for a file and a tree for a directory, is
    expanded below level 2, is neither editable nor pinned, and its children
    are items made at [level + 1]. *)
Fixpoint madeAt (level : Z) (i : FormItem) : Prop :=
  match i with
  | mkFormItem _ name path type size lvl expanded editable children node pinId =>
      name = node_name node /\ path = node_path node /\ size = node_size node
      /\ type = match node_type node with
                | NodeFile => ItemBlob
                | NodeDirectory => ItemTree
                end
      /\ isSystemNode (node_name node) (node_type node) = false
      /\ lvl = level /\ expanded = (level <? 2) /\ editable = false /\ pinId = None
      /\ match children with
         | Some cs =>
             cs <> []
             /\ (fix all (l : list FormItem) : Prop :=
                   match l with
                   | [] => True
                   | c :: l' => madeAt (level + 1) c /\ all l'
                   end) cs
         | None => True
         end
  end.

(** ** [MetaTree.vue]: putting the tree on chain *)

Record SimpleTreeEntry : Type := mkSimpleTreeEntry {
  entry_type : ItemType;
  entry_file : string;
  entry_name : string
}.

Record TreeBody : Type := mkTreeBody {
  treeName : string;
  entries : list SimpleTreeEntry
}.

(** The argument of [createSimpletree]. *)
Record SimpletreeRequest : Type := mkSimpletreeRequest {
  request_body : TreeBody;
  request_path : string;
  request_contentType : string
}.

(** What the component does to the outside: a file handed to
    [uploadFileToChainDirect], with its bytes and the calls the pipeline made
    for it, or a call of [createSimpletree]. *)
Inductive TreeEvent : Type :=
| EvUploadFile (file : File) (bytes : list Byte.byte) (calls : list Call)
| EvCreateSimpletree (request : SimpletreeRequest).

(** The outside of the component: [pako.gzip]; the stores, wallet and
    finalizer as they stand after the events so far; and the answer of
    [createSimpletree], the [txid] of its result, after the events so far. *)
Record TreeWorld : Type := mkTreeWorld {
  pako_gzip : list Byte.byte -> list Byte.byte;
  envAt : list TreeEvent -> Env;
  createSimpletree : list TreeEvent -> SimpletreeRequest -> Result string
}.

(** What an upload changes: the events so far, the text of [uploadProgress],
    and the assignments [item.pinId = pinId] in the order they were made, each
    under the id of the item assigned. *)
Record TreeState : Type := mkTreeState {
  events : list TreeEvent;
  uploadProgress : string;
  pins : list (string * string)
}.

Definition setProgress (text : string) (st : TreeState) : TreeState :=
  {| events := events st; uploadProgress := text; pins := pins st |}.

Definition setPin (id pinId : string) (st : TreeState) : TreeState :=
  {| events := events st;
     uploadProgress := uploadProgress st;
     pins := pins st ++ [(id, pinId)] |}.

Definition addEvent (ev : TreeEvent) (st : TreeState) : TreeState :=
  {| events := events st ++ [ev];
     uploadProgress := uploadProgress st;
     pins := pins st |}.

(** [compressFile(blob)] and the [File] made of its result. *)
Definition compressedFile (w : TreeWorld) (item : FormItem) (blob : Blob) : File :=
  let compressed := pako_gzip w (blob_bytes blob) in
  {| file_name := item_name item;
     file_type := JS.orDefaultStr (blob_type blob) "application/octet-stream";
     file_size := Z.of_nat (List.length compressed) |}.

Definition uploadFile (lib : MvcLib) (w : TreeWorld) (item : FormItem)
    (st : TreeState) : Result string * TreeState :=
  match node_blob (item_node item) with
  | None =>
      (Throw (Error ("文件 " ++ item_name item ++ " 没有内容")%string), st)
  | Some blob =>
      let file := compressedFile w item blob in
      let '(result, calls) :=
        run (uploadFileToChainDirect lib (envAt w (events st)) file) in
      let st := addEvent (EvUploadFile file (pako_gzip w (blob_bytes blob)) calls) st in
      match result with
      | inl e => (inl e, st)
      | inr result => (Ok (pinIdOf result), st)
      end
  end.

Definition simpletreeRequest (name : string) (entries : list SimpleTreeEntry)
    : SimpletreeRequest :=
  {| request_body := {| treeName := name; entries := entries |};
     request_path := "/protocols/simpletree";
     request_contentType := "application/json" |}.

Definition entryOf (child : FormItem) (pinId : string) : SimpleTreeEntry :=
  {| entry_type := item_type child; entry_file := pinId; entry_name := item_name child |}.

(** The end of [uploadDirectory], once the loop has left [entries]. *)
Definition createTree (w : TreeWorld) (id name : string)
    (entries : list SimpleTreeEntry) (st : TreeState) : Result string * TreeState :=
  let st := setProgress ("正在上链目录: " ++ name)%string st in
  let request := simpletreeRequest name entries in
  let answer := createSimpletree w (events st) request in
  let st := addEvent (EvCreateSimpletree request) st in
  match answer with
  | inl e => (inl e, st)
  | inr txid =>
      let pinId := (txid ++ "i0")%string in
      (Ok pinId, setPin id pinId st)
  end.

Fixpoint uploadDirectory (lib : MvcLib) (w : TreeWorld) (item : FormItem)
    (st : TreeState) : Result string * TreeState :=
  match item with
  | mkFormItem id name _ _ _ _ _ _ children _ _ =>
      match children with
      | Some (first :: others) =>
          let '(looped, st) :=
            (fix each (l : list FormItem) (entries : list SimpleTreeEntry)
                 (st : TreeState) : Result (list SimpleTreeEntry) * TreeState :=
               match l with
               | [] => (Ok entries, st)
               | child :: rest =>
                   let st := setProgress ("正在处理: " ++ item_name child)%string st in
                   let '(uploaded, st) :=
                     match item_type child with
                     | ItemBlob => uploadFile lib w child st
                     | ItemTree => uploadDirectory lib w child st
                     end in
                   match uploaded with
                   | inl e => (inl e, st)
                   | inr pinId =>
                       let st := setPin (item_id child) pinId st in
                       each rest (entries ++ [entryOf child pinId]) st
                   end
               end) (first :: others) [] st in
          match looped with
          | inl e => (inl e, st)
          | inr entries => createTree w id name entries st
          end
      | _ => (Throw (Error ("目录 " ++ name ++ " 没有子项")%string), st)
      end
  end.

(** The choice made for a child in [uploadDirectory] and for the root in
    [uploadSimpleTree]: a blob is uploaded as a file, anything else as a
    directory. *)
Definition uploadItem (lib : MvcLib) (w : TreeWorld) (item : FormItem)
    (st : TreeState) : Result string * TreeState :=
  match item_type item with
  | ItemBlob => uploadFile lib w item st
  | ItemTree => uploadDirectory lib w item st
  end.

(** The loop of [uploadDirectory] over the children [l], from the entries
    gathered so far. *)
Definition uploadChildren (lib : MvcLib) (w : TreeWorld)
    : list FormItem -> list SimpleTreeEntry -> TreeState ->
      Result (list SimpleTreeEntry) * TreeState :=
  fix each (l : list FormItem) (entries : list SimpleTreeEntry) (st : TreeState)
      : Result (list SimpleTreeEntry) * TreeState :=
    match l with
    | [] => (Ok entries, st)
    | child :: rest =>
        let st := setProgress ("正在处理: " ++ item_name child)%string st in
        let '(uploaded, st) := uploadItem lib w child st in
        match uploaded with
        | inl e => (inl e, st)
        | inr pinId =>
            let st := setPin (item_id child) pinId st in
            each rest (entries ++ [entryOf child pinId]) st
        end
    end.

(** The order in which the items of a tree go on chain: a blob alone; a tree
    after all that its children bring, child by child. *)
Fixpoint chainOrder (item : FormItem) : list FormItem :=
  match item with
  | mkFormItem _ _ _ type _ _ _ _ children _ _ =>
      match type, children with
      | ItemTree, Some cs => flat_map chainOrder cs ++ [item]
      | _, _ => [item]
      end
  end.

(** The name and the kind under which an item, and an event, go on chain. *)
Definition itemTag (item : FormItem) : string * ItemType :=
  (item_name item, item_type item).

Definition eventTag (ev : TreeEvent) : string * ItemType :=
  match ev with
  | EvUploadFile file _ _ => (file_name file, ItemBlob)
  | EvCreateSimpletree request => (treeName (request_body request), ItemTree)
  end.

(** A tree item without children. *)
Definition emptyDirectory (item : FormItem) : Prop :=
  item_type item = ItemTree
  /\ (item_children item = None \/ item_children item = Some []).

(** An outcome that added events to those of [st], tagged as a first part
    of [tags], and as all of [tags] when it is a success; and that added pins
    to those of [st]. *)
Definition chained {A : Type} (tags : list (string * ItemType)) (st : TreeState)
    (out : Result A * TreeState) : Prop :=
  exists added rest more,
    events (snd out) = events st ++ added
    /\ pins (snd out) = pins st ++ more
    /\ map eventTag added ++ rest = tags
    /\ (forall a, fst out = Ok a -> rest = []).

(** A pin id as the component writes it for an item: the pointer of a file,
    or the bare [<txid>i0] of a directory. *)
Definition pinOfKind (kind : ItemType) (pinId : string) : Prop :=
  exists txid,
    pinId = match kind with
            | ItemBlob => ("metafile://" ++ txid ++ "i0")%string
            | ItemTree => (txid ++ "i0")%string
            end.

(** What the component tells its parent and its user: the two events of
    [defineEmits] and the texts of [alert]. *)
Inductive Notice : Type :=
| EmitUploadComplete (pinId : string)
| EmitUploadError (error : JsError)
| Alert (text : string).

(** The refs [uploadSimpleTree] writes besides those of an upload, and the
    notices given so far.  [emit] and [alert] return; [console] is left
    out. *)
Record PanelState : Type := mkPanelState {
  upload : TreeState;
  isUploading : bool;
  rootPinId : string;
  notices : list Notice
}.

Definition lineFeed : string := String (Ascii.ascii_of_nat 10) EmptyString.

(** [uploadSimpleTree()] for the value [items] of [allFormItems].  The first
    element of a list that is not empty is an item, so the second [return]
    is never taken. *)
Definition uploadSimpleTree (lib : MvcLib) (w : TreeWorld) (items : list FormItem)
    (ps : PanelState) : PanelState :=
  match items with
  | [] =>
      {| upload := upload ps; isUploading := isUploading ps;
         rootPinId := rootPinId ps;
         notices := notices ps ++ [Alert "没有可上链的文件"] |}
  | rootItem :: _ =>
      let st := setProgress "开始上链..." (upload ps) in
      let '(uploaded, st) := uploadItem lib w rootItem st in
      match uploaded with
      | inr finalPinId =>
          {| upload := setProgress "上链完成!" st;
             isUploading := false;
             rootPinId := finalPinId;
             notices := notices ps
                        ++ [ EmitUploadComplete finalPinId;
                             Alert ("上链成功!" ++ lineFeed ++ "根 PinID: "
                                    ++ finalPinId) ] |}
      | inl err =>
          {| upload := setProgress ("上链失败: " ++ message err) st;
             isUploading := false;
             rootPinId := "";
             notices := notices ps
                        ++ [ EmitUploadError err;
                             Alert ("上链失败: " ++ message err) ] |}
      end
  end.

(** The events of [defineEmits] among the notices. *)
Definition emitted (l : list Notice) : list Notice :=
  filter (fun n => match n with Alert _ => false | _ => true end) l.

(** What the operation recorded by an event returned, the events before it
    being [before]: the pointer of the file when the pipeline returned a
    result, the pin id of the directory when [createSimpletree] answered, or
    the error thrown. *)
Definition outcomeOf (lib : MvcLib) (w : TreeWorld) (before : list TreeEvent)
    (ev : TreeEvent) : Result string :=
  match ev with
  | EvUploadFile file _ _ =>
      match result_of (uploadFileToChainDirect lib (envAt w before) file) with
      | inl e => Throw e
      | inr result => Ok ("metafile://" ++ upload_txId result ++ "i0")%string
      end
  | EvCreateSimpletree request =>
      match createSimpletree w before request with
      | inl e => Throw e
      | inr txid => Ok (txid ++ "i0")%string
      end
  end.

(** Every operation of [evs], run after [before], returned. *)
Fixpoint succeeded (lib : MvcLib) (w : TreeWorld) (before evs : list TreeEvent)
    : Prop :=
  match evs with
  | [] => True
  | ev :: rest =>
      (exists pinId, outcomeOf lib w before ev = Ok pinId)
      /\ succeeded lib w (before ++ [ev]) rest
  end.

(** The two errors thrown before anything is sent: a file without content
    and a directory without children. *)
Definition unsent (e : JsError) : Prop :=
  exists name,
    e = Error ("文件 " ++ name ++ " 没有内容")%string
    \/ e = Error ("目录 " ++ name ++ " 没有子项")%string.

(** An outcome that stopped at the first failure: the operations it added
    all returned, but for the last one when the outcome is the error that
    one threw. *)
Definition orderly {A : Type} (lib : MvcLib) (w : TreeWorld) (st : TreeState)
    (out : Result A * TreeState) : Prop :=
  exists added,
    events (snd out) = events st ++ added
    /\ match fst out with
       | inr _ => succeeded lib w (events st) added
       | inl e =>
           (succeeded lib w (events st) added /\ unsent e)
           \/ (exists done ev,
                  added = done ++ [ev]
                  /\ succeeded lib w (events st) done
                  /\ outcomeOf lib w (events st ++ done) ev = Throw e)
       end.

(** The entry a directory declares for a child, once the upload is over in
    the state [st]: the child's name and kind, and the pin id recorded for
    the child, which has the form of its kind. *)
Definition declares (st : TreeState) (child : FormItem) (entry : SimpleTreeEntry)
    : Prop :=
  entry_name entry = item_name child
  /\ entry_type entry = item_type child
  /\ pinOfKind (item_type child) (entry_file entry)
  /\ In (item_id child, entry_file entry) (pins st).

(** A directory that filtering and conversion leave without children: it is
    not a system node and has no child, or only system nodes for children;
    or it is found, through directories that are not system nodes, below the
    node. *)
Inductive hollow : FileTreeNode -> Prop :=
| hollow_here (name path : string) (size : option Z)
    (children : option (list FileTreeNode)) (blobUrl : option string)
    (blob : option Blob) :
    isSystemNode name NodeDirectory = false ->
    (forall cs, children = Some cs ->
       Forall (fun c => isSystemNode (node_name c) (node_type c) = true) cs) ->
    hollow (mkFileTreeNode name path NodeDirectory size children blobUrl blob)
| hollow_below (name path : string) (size : option Z) (cs : list FileTreeNode)
    (blobUrl : option string) (blob : option Blob) (c : FileTreeNode) :
    isSystemNode name NodeDirectory = false ->
    In c cs ->
    hollow c ->
    hollow (mkFileTreeNode name path NodeDirectory size (Some cs) blobUrl blob).

(** A small extracted archive, for evaluation. *)
Module SampleTree.

Definition leaf (name path : string) : FileTreeNode :=
  mkFileTreeNode name path NodeFile (Some 3) None None
    (Some {| blob_type := "text/plain"; blob_bytes := [] |}).

Definition dir (name path : string) (children : list FileTreeNode) : FileTreeNode :=
  mkFileTreeNode name path NodeDirectory None (Some children) None None.

(** [site/] with [index.html], [.DS_Store], [__MACOSX/] and
    [css/] holding [a.css] and [deep/] holding [b.css]. *)
Definition site : FileTreeNode :=
  dir "site" "/"
    [ leaf "index.html" "/index.html";
      leaf ".DS_Store" "/.DS_Store";
      dir "__MACOSX" "/__MACOSX" [leaf "x" "/__MACOSX/x"];
      dir "css" "/css"
        [ leaf "a.css" "/css/a.css";
          dir "deep" "/css/deep" [leaf "b.css" "/css/deep/b.css"] ] ].

Definition start : FormState :=
  {| itemIdCounter := 0; formItems := []; allFormItems := [] |}.

(** A world in which every upload goes through: one output of 50000
    satoshis in the wallet, a finalizer that accepts, and a
    [createSimpletree] that answers with a transaction id. *)
Definition world : TreeWorld :=
  {| pako_gzip := fun bytes => bytes;
     envAt := fun _ => Sample.env 1%Q [Sample.wu 50000] "" Sample.okResponse;
     createSimpletree := fun _ _ => Ok "9f"%string |}.

Definition idle : TreeState :=
  {| events := []; uploadProgress := ""; pins := [] |}.

(** The item of a file and of a directory, as [convertNodeToFormItem] makes
    them. *)
Definition blobItem (id name : string) (level : Z) : FormItem :=
  mkFormItem id name name ItemBlob (Some 3) level (level <? 2) false None
    (leaf name name) None.

Definition treeItem (id name : string) (level : Z) (children : list FormItem)
    : FormItem :=
  mkFormItem id name name ItemTree None level (level <? 2) false
    (nonEmptyOrUndefined children) (dir name name []) None.

End SampleTree.

(** All the items of a list are made at [level]. *)
Definition allMadeAt (level : Z) : list FormItem -> Prop :=
  fix all (l : list FormItem) : Prop :=
    match l with
    | [] => True
    | c :: l' => madeAt level c /\ all l'
    end.

(** What a conversion yields: nothing for a system node, and the counter is
    left alone; otherwise an item over the node, made at the level asked,
    whose ids, in the order of [saveAllItems], are the next ids of the
    counter. *)
Definition converted (n : FileTreeNode) : Prop :=
  forall level parentPath c,
    (isSystemNode (node_name n) (node_type n) = true
     /\ convertNodeToFormItem n level parentPath c = (None, c))
    \/ (exists item,
           convertNodeToFormItem n level parentPath c
           = (Some item, c + Z.of_nat (List.length (saveAllItems item)))
           /\ item_node item = n
           /\ madeAt level item
           /\ map item_id (saveAllItems item)
              = idsAfter c (List.length (saveAllItems item))).

(** What the form shows at first: the items down to level 2. *)
Definition shownAtFirst (i : FormItem) : bool := item_level i <=? 2.

(** The item has the id looked for. *)
Definition hasId (id : string) (i : FormItem) : bool := String.eqb (item_id i) id.

(** * Properties *)

(** The plumbing of the monad, unfolded together when a run is computed. *)
Create HintDb js_run discriminated.
#[local] Hint Unfold run result_of calls_of rethrow try_catch bind external lift : js_run.

(** ** Ceilings *)

Lemma Math_ceil_upper (x : Q) : (x <= inject_Z (JS.Math_ceil x))%Q.
Proof. apply Qle_ceiling. Qed.

Lemma Math_ceil_lower (x : Q) : (inject_Z (JS.Math_ceil x) < x + 1)%Q.
Proof.
  pose proof (Qceiling_lt x) as Hlt. unfold JS.Math_ceil.
  unfold Z.sub in Hlt. rewrite inject_Z_plus in Hlt.
  change (inject_Z (- (1))) with (- (1))%Q in Hlt. lra.
Qed.

Lemma Math_ceil_le (x y : Q) :
  (x <= y)%Q -> JS.Math_ceil x <= JS.Math_ceil y.
Proof. apply Qceiling_resp_le. Qed.

Lemma Math_ceil_nonneg (x : Q) : (0 <= x)%Q -> 0 <= JS.Math_ceil x.
Proof.
  intros Hx. rewrite Zle_Qle.
  pose proof (Math_ceil_upper x). change (inject_Z 0) with 0%Q. lra.
Qed.

(** A step of at least one moves the ceiling. *)
Lemma Math_ceil_lt (x y : Q) :
  (x + 1 <= y)%Q -> JS.Math_ceil x < JS.Math_ceil y.
Proof.
  intros Hstep. rewrite Zlt_Qlt.
  pose proof (Math_ceil_lower x). pose proof (Math_ceil_upper y). lra.
Qed.

(** ** Doubles *)

Section Doubles.

Local Open Scope Q_scope.

Lemma two_neq_0 : ~ 2 == 0.
Proof. discriminate. Qed.

Lemma pow2_pos (e : Z) : 0 < 2 ^ e.
Proof. now apply Qpower_0_lt. Qed.

Lemma pow2_Z (n : Z) : (0 <= n)%Z -> 2 ^ n == inject_Z (2 ^ n).
Proof. intros Hn. now rewrite Zpower_Qpower. Qed.

Lemma pow2_le (n m : Z) : (n <= m)%Z -> 2 ^ n <= 2 ^ m.
Proof. intros Hle. now apply Qpower_le_compat_l. Qed.

Lemma pow2_lt_inv (n m : Z) : 2 ^ n < 2 ^ m -> (n < m)%Z.
Proof. intros Hlt. now apply (Qpower_lt_compat_l_inv 2). Qed.

Lemma pow2_split (n m : Z) : 2 ^ (n - m) * 2 ^ m == 2 ^ n.
Proof.
  rewrite <- Qpower_plus by apply two_neq_0.
  now replace (n - m + m)%Z with n by ring.
Qed.

Lemma inject_Z_minus (x y : Z) : inject_Z (x - y) == inject_Z x - inject_Z y.
Proof.
  unfold Z.sub. rewrite inject_Z_plus, inject_Z_opp. reflexivity.
Qed.

(** The binade of a positive rational holds it. *)
Lemma binade_spec (q : Q) :
  0 < q -> 2 ^ JS.binade q <= q /\ q < 2 ^ (JS.binade q + 1).
Proof.
  intros Hq. unfold JS.binade.
  destruct q as [a b]. cbn [Qnum Qden].
  assert (Ha : (0 < a)%Z) by (unfold Qlt in Hq; cbn in Hq; lia).
  pose proof (Z.log2_spec a Ha) as [Hla Hua].
  pose proof (Z.log2_spec (Zpos b) (Pos2Z.is_pos b)) as [Hlb Hub].
  pose proof (Z.log2_nonneg a) as Hna.
  pose proof (Z.log2_nonneg (Zpos b)) as Hnb.
  set (la := Z.log2 a) in *. set (lb := Z.log2 (Zpos b)) in *.
  clearbody la lb.
  assert (Hpa : (0 < 2 ^ la)%Z) by (apply Z.pow_pos_nonneg; lia).
  assert (Hpb : (0 < 2 ^ lb)%Z) by (apply Z.pow_pos_nonneg; lia).
  assert (Hsa : (2 ^ Z.succ la = 2 * 2 ^ la)%Z) by (apply Z.pow_succ_r; lia).
  assert (Hsb : (2 ^ Z.succ lb = 2 * 2 ^ lb)%Z) by (apply Z.pow_succ_r; lia).
  assert (Hlow : 2 ^ (la - lb - 1) <= a # b).
  { apply Qmult_le_r with (z := 2 ^ (lb + 1)); [apply pow2_pos|].
    replace (la - lb - 1)%Z with (la - (lb + 1))%Z by ring.
    rewrite pow2_split, !pow2_Z by lia.
    replace (lb + 1)%Z with (Z.succ lb) by lia.
    unfold Qle. cbn. rewrite Pos.mul_1_r, Z.mul_1_r. nia. }
  assert (Hup : a # b < 2 ^ (la - lb + 1)).
  { apply Qmult_lt_r with (z := 2 ^ lb); [apply pow2_pos|].
    replace (la - lb + 1)%Z with (la + 1 - lb)%Z by ring.
    rewrite pow2_split, !pow2_Z by lia.
    replace (la + 1)%Z with (Z.succ la) by lia.
    unfold Qlt. cbn. rewrite Pos.mul_1_r, Z.mul_1_r. nia. }
  destruct (Qle_bool (2 ^ (la - lb)) (a # b)) eqn:Htest.
  - apply Qle_bool_iff in Htest. now split.
  - split; [exact Hlow|].
    replace (la - lb - 1 + 1)%Z with (la - lb)%Z by ring.
    apply Qnot_le_lt. intros Hle. apply Qle_bool_iff in Hle. congruence.
Qed.

Lemma binade_le (x y : Q) : 0 < x -> x <= y -> (JS.binade x <= JS.binade y)%Z.
Proof.
  intros Hx Hle.
  destruct (binade_spec x Hx) as [Hlx _].
  destruct (binade_spec y (Qlt_le_trans _ _ _ Hx Hle)) as [_ Huy].
  assert (Hlt : 2 ^ JS.binade x < 2 ^ (JS.binade y + 1)).
  { eapply Qle_lt_trans; [exact Hlx|]. eapply Qle_lt_trans; [exact Hle | exact Huy]. }
  apply pow2_lt_inv in Hlt. lia.
Qed.

Lemma roundTiesToEven_comp (x y : Q) :
  x == y -> JS.roundTiesToEven x = JS.roundTiesToEven y.
Proof.
  intros Heq. unfold JS.roundTiesToEven.
  rewrite (Qfloor_comp x y Heq).
  assert (Hc : (x - inject_Z (Qfloor y) ?= 1 # 2) = (y - inject_Z (Qfloor y) ?= 1 # 2)).
  { apply Qcompare_comp; [|reflexivity]. now rewrite Heq. }
  now rewrite Hc.
Qed.

(** Rounding leaves an integer as it is. *)
Lemma roundTiesToEven_Z (k : Z) : JS.roundTiesToEven (inject_Z k) = k.
Proof.
  unfold JS.roundTiesToEven. rewrite Qfloor_Z.
  assert (Hc : (inject_Z k - inject_Z k ?= 1 # 2) = Lt).
  { apply (proj1 (Qlt_alt _ _)). lra. }
  now rewrite Hc.
Qed.

Lemma roundTiesToEven_near (x : Q) :
  (Qfloor x <= JS.roundTiesToEven x <= Qfloor x + 1)%Z.
Proof.
  unfold JS.roundTiesToEven.
  destruct (x - inject_Z (Qfloor x) ?= 1 # 2); [destruct (Z.even _)| |]; lia.
Qed.

(** Rounding keeps the order. *)
Lemma roundTiesToEven_le (x y : Q) :
  x <= y -> (JS.roundTiesToEven x <= JS.roundTiesToEven y)%Z.
Proof.
  intros Hle.
  pose proof (Qfloor_resp_le x y Hle) as Hfloor.
  pose proof (roundTiesToEven_near x) as Hx.
  pose proof (roundTiesToEven_near y) as Hy.
  destruct (Z.eq_dec (Qfloor x) (Qfloor y)) as [Hsame|Hdiff]; [|lia].
  unfold JS.roundTiesToEven in *. rewrite <- Hsame in *.
  destruct (x - inject_Z (Qfloor x) ?= 1 # 2) eqn:Hcx;
    destruct (y - inject_Z (Qfloor x) ?= 1 # 2) eqn:Hcy;
    try (destruct (Z.even (Qfloor x))); try lia.
  all: try apply (proj2 (Qeq_alt _ _)) in Hcx; try apply (proj2 (Qlt_alt _ _)) in Hcx;
    try apply (proj2 (Qgt_alt _ _)) in Hcx.
  all: try apply (proj2 (Qeq_alt _ _)) in Hcy; try apply (proj2 (Qlt_alt _ _)) in Hcy;
    try apply (proj2 (Qgt_alt _ _)) in Hcy.
  all: exfalso; lra.
Qed.

Lemma roundTiesToEven_ge (x : Q) (k : Z) :
  inject_Z k <= x -> (k <= JS.roundTiesToEven x)%Z.
Proof.
  intros Hle. rewrite <- (roundTiesToEven_Z k). now apply roundTiesToEven_le.
Qed.

Lemma roundTiesToEven_upper (x : Q) (k : Z) :
  x <= inject_Z k -> (JS.roundTiesToEven x <= k)%Z.
Proof.
  intros Hle. rewrite <- (roundTiesToEven_Z k). now apply roundTiesToEven_le.
Qed.

Lemma lastPlace_le (x y : Q) : 0 < x -> x <= y -> (JS.lastPlace x <= JS.lastPlace y)%Z.
Proof.
  intros Hx Hle. unfold JS.lastPlace. pose proof (binade_le x y Hx Hle). lia.
Qed.

(** At its last place a positive rational has at most 53 bits, and no fewer
    when that place is above the lowest. *)
Lemma scaled_below (x : Q) :
  0 < x -> x / 2 ^ JS.lastPlace x <= inject_Z (2 ^ 53).
Proof.
  intros Hx. destruct (binade_spec x Hx) as [_ Hu].
  apply Qle_shift_div_r; [apply pow2_pos|].
  rewrite <- pow2_Z by lia. rewrite <- Qpower_plus by apply two_neq_0.
  apply Qlt_le_weak. eapply Qlt_le_trans; [exact Hu|].
  apply pow2_le. unfold JS.lastPlace. lia.
Qed.

Lemma scaled_above (y : Q) :
  0 < y -> (-1074 < JS.lastPlace y)%Z -> inject_Z (2 ^ 52) <= y / 2 ^ JS.lastPlace y.
Proof.
  intros Hy Hnormal. destruct (binade_spec y Hy) as [Hl _].
  apply Qle_shift_div_l; [apply pow2_pos|].
  rewrite <- pow2_Z by lia. rewrite <- Qpower_plus by apply two_neq_0.
  eapply Qle_trans; [|exact Hl].
  apply pow2_le. unfold JS.lastPlace in *. lia.
Qed.

Lemma nearest_le (x y : Q) : 0 < x -> x <= y -> JS.nearest x <= JS.nearest y.
Proof.
  intros Hx Hle.
  assert (Hy : 0 < y) by (eapply Qlt_le_trans; eassumption).
  pose proof (lastPlace_le x y Hx Hle) as Hplace.
  unfold JS.nearest. rewrite !Qred_correct.
  destruct (Z.eq_dec (JS.lastPlace x) (JS.lastPlace y)) as [Hsame|Hdiff].
  - rewrite Hsame. apply Qmult_le_compat_r; [|apply Qlt_le_weak, pow2_pos].
    rewrite <- Zle_Qle. apply roundTiesToEven_le.
    apply Qmult_le_compat_r; [exact Hle|].
    apply Qlt_le_weak, Qinv_lt_0_compat, pow2_pos.
  - pose proof (roundTiesToEven_upper _ _ (scaled_below x Hx)) as Hux.
    assert (Hnormal : (-1074 < JS.lastPlace y)%Z) by (unfold JS.lastPlace in *; lia).
    pose proof (roundTiesToEven_ge _ _ (scaled_above y Hy Hnormal)) as Hly.
    apply Qle_trans with (inject_Z (2 ^ 53) * 2 ^ JS.lastPlace x).
    { apply Qmult_le_compat_r; [|apply Qlt_le_weak, pow2_pos]. now rewrite <- Zle_Qle. }
    apply Qle_trans with (inject_Z (2 ^ 52) * 2 ^ JS.lastPlace y).
    2:{ apply Qmult_le_compat_r; [|apply Qlt_le_weak, pow2_pos]. now rewrite <- Zle_Qle. }
    rewrite <- !pow2_Z by lia. rewrite <- !Qpower_plus by apply two_neq_0.
    apply pow2_le. lia.
Qed.

Lemma nearest_nonneg (x : Q) : 0 < x -> 0 <= JS.nearest x.
Proof.
  intros Hx. unfold JS.nearest. rewrite Qred_correct.
  apply Qmult_le_0_compat; [|apply Qlt_le_weak, pow2_pos].
  change 0 with (inject_Z 0). rewrite <- Zle_Qle.
  apply roundTiesToEven_ge. change (inject_Z 0) with 0.
  apply Qlt_le_weak, Qlt_shift_div_l; [apply pow2_pos|]. lra.
Qed.

(** A double above 0 is at least the least double. *)
Lemma nearest_least (x : Q) : 0 < JS.nearest x -> 2 ^ (-1074) <= JS.nearest x.
Proof.
  unfold JS.nearest. rewrite Qred_correct. intros Hpos.
  set (m := JS.roundTiesToEven (x / 2 ^ JS.lastPlace x)) in *.
  assert (Hm : (1 <= m)%Z).
  { destruct (Z.le_gt_cases m 0) as [Hle|Hgt]; [exfalso|lia].
    assert (Hneg : inject_Z m * 2 ^ JS.lastPlace x <= 0 * 2 ^ JS.lastPlace x).
    { apply Qmult_le_compat_r; [|apply Qlt_le_weak, pow2_pos].
      change 0 with (inject_Z 0). now rewrite <- Zle_Qle. }
    lra. }
  apply Qle_trans with (1 * 2 ^ JS.lastPlace x).
  - rewrite Qmult_1_l. apply pow2_le. unfold JS.lastPlace. lia.
  - apply Qmult_le_compat_r; [|apply Qlt_le_weak, pow2_pos].
    change 1 with (inject_Z 1). now rewrite <- Zle_Qle.
Qed.

Lemma double_pos (x : Q) : 0 < x -> JS.double x = JS.nearest x.
Proof.
  intros Hx. unfold JS.double. apply (proj1 (Qgt_alt _ _)) in Hx. now rewrite Hx.
Qed.

Lemma double_zero (x : Q) : x == 0 -> JS.double x = 0.
Proof.
  intros Hx. unfold JS.double. apply (proj1 (Qeq_alt _ _)) in Hx. now rewrite Hx.
Qed.

(** Taking the nearest double keeps the order. *)
Lemma double_le (x y : Q) : 0 <= x -> x <= y -> JS.double x <= JS.double y.
Proof.
  intros Hx Hle.
  destruct (Qlt_le_dec 0 x) as [Hpos|Hzero].
  - rewrite !double_pos by lra. now apply nearest_le.
  - rewrite (double_zero x) by lra.
    destruct (Qlt_le_dec 0 y) as [Hy|Hy].
    + rewrite double_pos by trivial. now apply nearest_nonneg.
    + rewrite (double_zero y) by lra. lra.
Qed.

Lemma double_nonneg (x : Q) : 0 <= x -> 0 <= JS.double x.
Proof.
  intros Hx. change 0 with (JS.double 0) at 1. apply double_le; lra.
Qed.

Lemma double_comp (x y : Q) : 0 <= x -> x == y -> JS.double x == JS.double y.
Proof.
  intros Hx Heq. apply Qle_antisym; apply double_le; lra.
Qed.

Lemma double_least (x : Q) : 0 <= x -> ~ JS.double x == 0 -> 2 ^ (-1074) <= JS.double x.
Proof.
  intros Hx Hnz.
  destruct (Qlt_le_dec 0 x) as [Hpos|Hzero].
  - rewrite double_pos in * by trivial.
    apply nearest_least. pose proof (nearest_nonneg x Hpos). lra.
  - exfalso. apply Hnz. rewrite double_zero; lra.
Qed.

(** A number of at most 53 bits at a place that exists is a double. *)
Lemma double_fixed (m e : Z) :
  (0 <= m < 2 ^ 53)%Z -> (-1074 <= e)%Z ->
  JS.double (inject_Z m * 2 ^ e) == inject_Z m * 2 ^ e.
Proof.
  intros Hm He.
  destruct (Z.eq_dec m 0) as [->|Hnz].
  { change (inject_Z 0) with 0. rewrite double_zero; ring. }
  assert (Hq : 0 < inject_Z m * 2 ^ e).
  { apply Qmult_lt_0_compat; [|apply pow2_pos].
    change 0 with (inject_Z 0). rewrite <- Zlt_Qlt. lia. }
  rewrite double_pos by exact Hq. unfold JS.nearest. rewrite Qred_correct.
  set (q := inject_Z m * 2 ^ e) in *.
  destruct (binade_spec q Hq) as [Hl _].
  assert (Hplace : (JS.lastPlace q <= e)%Z).
  { assert (Hlt : 2 ^ JS.binade q < 2 ^ (53 + e)).
    { eapply Qle_lt_trans; [exact Hl|]. unfold q.
      rewrite Qpower_plus by apply two_neq_0.
      apply Qmult_lt_compat_r; [apply pow2_pos|].
      rewrite pow2_Z by lia. rewrite <- Zlt_Qlt. lia. }
    apply pow2_lt_inv in Hlt. unfold JS.lastPlace. lia. }
  set (p := JS.lastPlace q) in *.
  assert (Hscaled : q / 2 ^ p == inject_Z (m * 2 ^ (e - p))).
  { unfold q. rewrite inject_Z_mult, <- pow2_Z by lia.
    rewrite <- (pow2_split e p). field. apply Qpower_not_0, two_neq_0. }
  rewrite (roundTiesToEven_comp _ _ Hscaled), roundTiesToEven_Z.
  rewrite inject_Z_mult, <- pow2_Z by lia.
  unfold q. rewrite <- Qmult_assoc, pow2_split. reflexivity.
Qed.

Lemma double_Z (n : Z) : (0 <= n < 2 ^ 53)%Z -> JS.double (inject_Z n) == inject_Z n.
Proof.
  intros Hn. pose proof (double_fixed n 0 Hn ltac:(lia)) as Hfixed.
  change (2 ^ 0) with 1 in Hfixed.
  rewrite <- (double_comp (inject_Z n * 1) (inject_Z n)); [|  |ring].
  - rewrite Hfixed. ring.
  - rewrite Qmult_1_r. change 0 with (inject_Z 0). rewrite <- Zle_Qle. lia.
Qed.

Lemma double_eighth (n : Z) :
  (0 <= n < 2 ^ 53)%Z -> JS.double (inject_Z n / 8) == inject_Z n / 8.
Proof.
  intros Hn. pose proof (double_fixed n (-3) Hn ltac:(lia)) as Hfixed.
  assert (Heq : inject_Z n * 2 ^ (-3) == inject_Z n / 8) by reflexivity.
  rewrite <- Heq at 2. rewrite <- Hfixed.
  apply double_comp; [|now symmetry].
  apply Qle_shift_div_l; [reflexivity|]. rewrite Qmult_0_l.
  change 0 with (inject_Z 0). rewrite <- Zle_Qle. lia.
Qed.

(** The number [1.2] of the source, a little below 6/5. *)
Lemma double_12 : JS.double (12 # 10) = 5404319552844595 # 4503599627370496.
Proof. vm_compute. reflexivity. Qed.

(** The ceiling of a double product is the ceiling of the exact product or
    one less. *)
Lemma ceil_double_near (x : Q) :
  0 <= x -> x <= inject_Z (2 ^ 48) ->
  (Qceiling x - 1 <= JS.Math_ceil (JS.double x) <= Qceiling x)%Z.
Proof.
  intros Hx Hrange. unfold JS.Math_ceil.
  pose proof (Qfloor_le x) as Hfloor. pose proof (Qlt_floor x) as Hnext.
  pose proof (Qfloor_resp_le 0 x Hx) as Hf0. change (Qfloor 0) with 0%Z in Hf0.
  pose proof (Qceiling_resp_le _ _ Hrange) as Hc. rewrite Qceiling_Z in Hc.
  pose proof (Qfloor_resp_le _ _ Hrange) as Hf. rewrite Qfloor_Z in Hf.
  pose proof (Qceiling_resp_le 0 x Hx) as Hc0. change (Qceiling 0) with 0%Z in Hc0.
  split.
  - assert (Hup : (Qceiling x <= Qfloor x + 1)%Z).
    { rewrite <- (Qceiling_Z (Qfloor x + 1)). apply Qceiling_resp_le. lra. }
    assert (Hlow : (Qfloor x <= Qceiling (JS.double x))%Z).
    { rewrite Zle_Qle. eapply Qle_trans; [|apply Qle_ceiling].
      rewrite <- (double_Z (Qfloor x)) by lia.
      apply double_le; [|exact Hfloor].
      change 0 with (inject_Z 0). now rewrite <- Zle_Qle. }
    lia.
  - apply Z.le_trans with (Qceiling (JS.double (inject_Z (Qceiling x)))).
    + apply Qceiling_resp_le, double_le; [exact Hx | apply Qle_ceiling].
    + rewrite (Qceiling_comp _ _ (double_Z (Qceiling x) ltac:(lia))), Qceiling_Z. lia.
Qed.

(** The margin on an integer of the range is the margin over the reals. *)
Lemma margin_exact (c : Z) :
  (0 <= c <= 2 ^ 49)%Z ->
  JS.Math_ceil (JS.mul (inject_Z c) (JS.double (12 # 10)))
  = Qceiling (inject_Z c * (12 # 10)).
Proof.
  intros Hc. unfold JS.mul, JS.Math_ceil. rewrite double_12.
  set (C := Qceiling (inject_Z c * (12 # 10))).
  pose proof (Qle_ceiling (inject_Z c * (12 # 10))) as Hup.
  pose proof (Qceiling_lt (inject_Z c * (12 # 10))) as Hlow.
  fold C in Hup, Hlow.
  rewrite inject_Z_minus in Hlow. change (inject_Z 1) with 1 in Hlow.
  assert (HC : (5 * (C - 1) < 6 * c <= 5 * C)%Z).
  { split.
    - rewrite Zlt_Qlt, !inject_Z_mult, inject_Z_minus.
      change (inject_Z 5) with 5. change (inject_Z 6) with 6.
      change (inject_Z 1) with 1. lra.
    - rewrite Zle_Qle, !inject_Z_mult.
      change (inject_Z 5) with 5. change (inject_Z 6) with 6. lra. }
  set (q := inject_Z c * (5404319552844595 # 4503599627370496)).
  assert (Hc0 : 0 <= inject_Z c) by (change 0 with (inject_Z 0); rewrite <- Zle_Qle; lia).
  assert (Hc1 : inject_Z c <= inject_Z (2 ^ 49)) by (rewrite <- Zle_Qle; lia).
  assert (Hq0 : 0 <= q) by (apply Qmult_le_0_compat; [exact Hc0 | discriminate]).
  assert (HCr : inject_Z (5 * (C - 1)) + 1 <= inject_Z (6 * c)).
  { rewrite <- (inject_Z_plus _ 1), <- Zle_Qle. lia. }
  assert (HCu : inject_Z (6 * c) <= inject_Z (5 * C)) by (rewrite <- Zle_Qle; lia).
  rewrite !inject_Z_mult in HCr, HCu. rewrite inject_Z_minus in HCr.
  change (inject_Z 5) with 5 in *. change (inject_Z 6) with 6 in *.
  change (inject_Z 1) with 1 in *. change (inject_Z (2 ^ 49)) with 562949953421312 in *.
  apply Z.le_antisymm.
  - rewrite <- (Qceiling_Z C). apply Qceiling_resp_le.
    assert (HCn : (0 <= C < 2 ^ 53)%Z) by lia.
    rewrite <- (double_Z C HCn). apply double_le; [exact Hq0|].
    unfold q. lra.
  - destruct (Z.eq_dec c 0) as [->|Hpos].
    { subst C. vm_compute. discriminate. }
    assert (HCn : (0 <= 8 * (C - 1) + 1 < 2 ^ 53)%Z) by lia.
    pose proof (double_eighth _ HCn) as Hfixed.
    assert (Hbelow : inject_Z (8 * (C - 1) + 1) / 8 <= q).
    { unfold q. rewrite inject_Z_plus, inject_Z_mult, inject_Z_minus.
      change (inject_Z 8) with 8. change (inject_Z 1) with 1.
      apply Qle_shift_div_r; [reflexivity|]. lra. }
    assert (Hd : inject_Z (8 * (C - 1) + 1) / 8 <= JS.double q).
    { rewrite <- Hfixed. apply double_le; [|exact Hbelow].
      apply Qle_shift_div_l; [reflexivity|]. rewrite Qmult_0_l.
      change 0 with (inject_Z 0). rewrite <- Zle_Qle. lia. }
    assert (Hgt : inject_Z (C - 1) < JS.double q).
    { eapply Qlt_le_trans; [|exact Hd].
      apply Qlt_shift_div_l; [reflexivity|].
      rewrite inject_Z_plus, inject_Z_mult. change (inject_Z 8) with 8.
      change (inject_Z 1) with 1. lra. }
    pose proof (Qle_ceiling (JS.double q)) as Hceil.
    assert (Hlt : inject_Z (C - 1) < inject_Z (Qceiling (JS.double q))) by lra.
    rewrite <- Zlt_Qlt in Hlt. lia.
Qed.

(** [JS.double] and [JS.mul] against the binary64 arithmetic of the Standard
    Library, on rates and sizes the estimator meets and on a subnormal. *)
Lemma double_as_binary64 :
  Forall (fun q => binary64_value (binary64_of_Q q) == JS.double q)
    [1 # 10; 11 # 10; 12 # 10; 1 # 3; 1 # 2; 3; 1 # 1000;
     1 # (3 * 2 ^ 1022)%positive; 9007199254740993 # 1].
Proof.
  repeat (constructor; [vm_compute; reflexivity|]). constructor.
Qed.

Lemma mul_as_binary64 :
  Forall (fun '(n, q) =>
            binary64_value (SFmul 53 1024 (binary64_of_Z n) (binary64_of_Q q))
            == JS.mul (inject_Z n) (JS.double q))
    [(560%Z, 1 # 10); (600%Z, 1 # 10); (650%Z, 11 # 10); (716%Z, 12 # 10);
     (56%Z, 12 # 10); (60%Z, 12 # 10); (559%Z, 1 # 3); (1559%Z, 7 # 1000);
     (671%Z, 1 # (3 * 2 ^ 1022)%positive); (9007199254740991%Z, 3 # 2)].
Proof.
  repeat (constructor; [vm_compute; reflexivity|]). constructor.
Qed.

End Doubles.

(** ** Fee estimator *)

Lemma estimatedTxSize_eq (fileSize : Z) :
  estimatedTxSize fileSize
  = 200 + 150 + 2 * 34 + 50 + FeeSpec.metadataOverhead + fileSize.
Proof.
  unfold estimatedTxSize, FeeSpec.metadataOverhead. simpl String.length. lia.
Qed.

Lemma estimatedTxSize_nonneg (fileSize : Z) :
  0 <= fileSize -> (0 <= inject_Z (estimatedTxSize fileSize))%Q.
Proof.
  intros Hsize. change 0%Q with (inject_Z 0). rewrite <- Zle_Qle.
  rewrite estimatedTxSize_eq. unfold FeeSpec.metadataOverhead. lia.
Qed.

Lemma estimatedTxSize_le (fileSize fileSize' : Z) :
  fileSize <= fileSize' ->
  (inject_Z (estimatedTxSize fileSize) <= inject_Z (estimatedTxSize fileSize'))%Q.
Proof.
  intros Hle. rewrite <- Zle_Qle, !estimatedTxSize_eq. lia.
Qed.

(** The rate the estimator charges is the number held for the reported one,
    except that 0 is charged as 1. *)
Lemma orDefault_one (rate : Q) :
  (0 <= rate)%Q ->
  ((rate == 0)%Q /\ JS.orDefault rate 1 = 1%Q)
  \/ ((0 < rate)%Q /\ JS.orDefault rate 1 = rate).
Proof.
  intros Hrate. unfold JS.orDefault.
  destruct (Qeq_bool rate 0) eqn:Hzero.
  - left. split; [now apply Qeq_bool_eq | reflexivity].
  - right. split; [|reflexivity].
    apply Qeq_bool_neq in Hzero. apply Qle_lteq in Hrate.
    destruct Hrate as [Hpos|Heq]; [exact Hpos|].
    exfalso. apply Hzero. now symmetry.
Qed.

Lemma orDefault_one_pos (rate : Q) : (0 <= rate)%Q -> (0 < JS.orDefault rate 1)%Q.
Proof.
  intros Hrate.
  destruct (orDefault_one rate Hrate) as [[_ ->]|[Hpos ->]]; [reflexivity | exact Hpos].
Qed.

Lemma feeRate_pos (env : Env) :
  (0 <= mvcFeeRate env)%Q -> (0 < JS.orDefault (chainStore_mvcFeeRate env) 1)%Q.
Proof.
  intros Hrate. apply orDefault_one_pos. now apply double_nonneg.
Qed.

(** The rate charged is at least the least double. *)
Lemma feeRate_least (env : Env) :
  (0 <= mvcFeeRate env)%Q ->
  (2 ^ (-1074) <= JS.orDefault (chainStore_mvcFeeRate env) 1)%Q.
Proof.
  intros Hrate. unfold JS.orDefault, chainStore_mvcFeeRate.
  destruct (Qeq_bool (JS.double (mvcFeeRate env)) 0) eqn:Hzero.
  - apply Qlt_le_weak. reflexivity.
  - apply double_least; [exact Hrate|]. now apply Qeq_bool_neq.
Qed.

(** The estimate before the margin, against the ceiling of the exact
    product. *)
Lemma estimatedFee_near (size r : Q) :
  (0 <= size)%Q -> (0 <= r)%Q -> (size * r <= inject_Z (2 ^ 48))%Q ->
  Qceiling (size * r) - 1 <= JS.Math_ceil (JS.mul size r) <= Qceiling (size * r).
Proof.
  intros Hsize Hr Hrange. apply ceil_double_near; [|exact Hrange].
  now apply Qmult_le_0_compat.
Qed.

Lemma estimatedFee_range (x : Q) :
  (0 <= x)%Q -> (x <= inject_Z (2 ^ 48))%Q ->
  0 <= JS.Math_ceil (JS.double x) <= 2 ^ 49.
Proof.
  intros Hx Hrange.
  pose proof (ceil_double_near x Hx Hrange) as [_ Hup].
  pose proof (Qceiling_resp_le _ _ Hrange) as Hc. rewrite Qceiling_Z in Hc.
  split; [|lia].
  unfold JS.Math_ceil. rewrite Zle_Qle.
  eapply Qle_trans; [|apply Qle_ceiling]. now apply double_nonneg.
Qed.

(** The fee does not decrease with the size, at any rate that is not
    negative. *)
Lemma marginedFee_le (size size' r : Q) :
  (0 <= size)%Q -> (0 <= r)%Q -> (size <= size')%Q ->
  JS.Math_ceil (JS.mul (inject_Z (JS.Math_ceil (JS.mul size r))) (JS.double (12 # 10)))
  <= JS.Math_ceil
       (JS.mul (inject_Z (JS.Math_ceil (JS.mul size' r))) (JS.double (12 # 10))).
Proof.
  intros Hsize Hr Hle. unfold JS.mul, JS.Math_ceil.
  assert (Hx : (0 <= size * r)%Q) by now apply Qmult_le_0_compat.
  assert (Hinner : Qceiling (JS.double (size * r)) <= Qceiling (JS.double (size' * r))).
  { apply Qceiling_resp_le, double_le; [exact Hx|]. now apply Qmult_le_compat_r. }
  assert (Hbase : 0 <= Qceiling (JS.double (size * r))).
  { rewrite Zle_Qle. eapply Qle_trans; [|apply Qle_ceiling]. now apply double_nonneg. }
  rewrite double_12.
  apply Qceiling_resp_le, double_le.
  - apply Qmult_le_0_compat; [|discriminate].
    change 0%Q with (inject_Z 0). now rewrite <- Zle_Qle.
  - apply Qmult_le_compat_r; [|discriminate]. now rewrite <- Zle_Qle.
Qed.

(** One more satoshi before the margin is at least one more after it. *)
Lemma margin_lt (c c' : Z) :
  c < c' -> Qceiling (inject_Z c * (12 # 10)) < Qceiling (inject_Z c' * (12 # 10)).
Proof.
  intros Hlt. apply Math_ceil_lt.
  assert (Hstep : (inject_Z c + 1 <= inject_Z c')%Q).
  { change 1%Q with (inject_Z 1). rewrite <- inject_Z_plus, <- Zle_Qle. lia. }
  lra.
Qed.

(** At an integer rate the products are exact. *)
Lemma estimatedFee_integer (size n : Z) (r : Q) :
  0 <= size -> 0 <= n -> (r == inject_Z n)%Q -> size * n <= 2 ^ 48 ->
  JS.Math_ceil (JS.mul (inject_Z size) r) = size * n
  /\ Qceiling (inject_Z size * r) = size * n.
Proof.
  intros Hsize Hn Hr Hrange.
  assert (Hexact : (inject_Z size * r == inject_Z (size * n))%Q)
    by (rewrite Hr, inject_Z_mult; reflexivity).
  assert (Hprod : 0 <= size * n) by nia.
  split.
  - unfold JS.mul, JS.Math_ceil.
    assert (Hdouble : (JS.double (inject_Z size * r) == inject_Z (size * n))%Q).
    { rewrite <- (double_Z (size * n)) by lia.
      apply double_comp; [|exact Hexact].
      rewrite Hexact. change 0%Q with (inject_Z 0). now rewrite <- Zle_Qle. }
    rewrite (Qceiling_comp _ _ Hdouble). apply Qceiling_Z.
  - rewrite (Qceiling_comp _ _ Hexact). apply Qceiling_Z.
Qed.

(** C3 (as amended).  For every file size >= 0 and every fee rate >= 0 reported
    by the store, the estimator returns [ceil (ceil (size * r) * 1.2)]
    computed on doubles: [size] is
    [200 + 150 + 2 * 34 + 50 + metadataOverhead + fileSize], [r] is the number
    held for the reported rate, or 1 when that number is 0, and each product
    is rounded to the nearest double before its ceiling is taken.  The result
    is a non-negative integer, non-decreasing in the file size.  While
    [size * r] stays within 2^48 it is the value of the formula over the
    reals at [r], or at most 2 below it; at an integer rate it is that value,
    and is strictly increasing in the file size. *)
Theorem estimateUploadFee_margined (env : Env) (file file' : File) :
  0 <= file_size file ->
  (0 <= mvcFeeRate env)%Q ->
  let held := JS.double (mvcFeeRate env) in
  let r := JS.orDefault held 1 in
  let size := 200 + 150 + 2 * 34 + 50 + FeeSpec.metadataOverhead + file_size file in
  let size' := 200 + 150 + 2 * 34 + 50 + FeeSpec.metadataOverhead + file_size file' in
  ((held == 0)%Q /\ r = 1%Q \/ (0 < held)%Q /\ r = held)
  /\ estimateUploadFee env file
     = Qceiling (JS.double
                   (inject_Z (Qceiling (JS.double (inject_Z size * r)))
                    * JS.double (12 # 10)))
  /\ 0 <= estimateUploadFee env file
  /\ (file_size file <= file_size file' ->
      estimateUploadFee env file <= estimateUploadFee env file')
  /\ ((inject_Z size * r <= inject_Z (2 ^ 48))%Q ->
      FeeSpec.marginedFee (file_size file) r - 2 <= estimateUploadFee env file
      /\ estimateUploadFee env file <= FeeSpec.marginedFee (file_size file) r)
  /\ (forall n : Z,
        1 <= n -> (r == inject_Z n)%Q -> size * n <= 2 ^ 48 ->
        estimateUploadFee env file = FeeSpec.marginedFee (file_size file) r
        /\ (file_size file < file_size file' -> size' * n <= 2 ^ 48 ->
            estimateUploadFee env file < estimateUploadFee env file')).
Proof.
  intros Hsize Hrate. cbv zeta.
  pose proof (feeRate_pos env Hrate) as Hr.
  pose proof (estimatedTxSize_nonneg _ Hsize) as Hest.
  unfold estimateUploadFee, FeeSpec.marginedFee, chainStore_mvcFeeRate in *.
  rewrite <- !estimatedTxSize_eq.
  set (r := JS.orDefault (JS.double (mvcFeeRate env)) 1) in *.
  set (size := estimatedTxSize (file_size file)) in *.
  set (size' := estimatedTxSize (file_size file')).
  assert (Hr0 : (0 <= r)%Q) by lra.
  split; [apply orDefault_one; now apply double_nonneg|].
  split; [reflexivity|].
  split.
  { unfold JS.mul, JS.Math_ceil. rewrite Zle_Qle.
    eapply Qle_trans; [|apply Qle_ceiling]. apply double_nonneg.
    apply Qmult_le_0_compat; [|rewrite double_12; discriminate].
    change 0%Q with (inject_Z 0). rewrite <- Zle_Qle.
    rewrite Zle_Qle. eapply Qle_trans; [|apply Qle_ceiling].
    apply double_nonneg. now apply Qmult_le_0_compat. }
  split.
  { intros Hle. apply marginedFee_le; trivial. now apply estimatedTxSize_le. }
  split.
  { intros Hrange.
    pose proof (estimatedFee_near _ _ Hest Hr0 Hrange) as [Hlow Hup].
    pose proof (estimatedFee_range _ (Qmult_le_0_compat _ _ Hest Hr0) Hrange) as Hbase.
    fold (JS.mul (inject_Z size) r) in Hbase.
    rewrite (margin_exact _ Hbase).
    set (c := Qceiling (inject_Z size * r)) in *.
    set (c' := JS.Math_ceil (JS.mul (inject_Z size) r)) in *.
    split.
    - assert (Hstep : (inject_Z c * (12 # 10) <= inject_Z c' * (12 # 10) + 2)%Q).
      { assert (Hc : (inject_Z c <= inject_Z c' + 1)%Q).
        { change 1%Q with (inject_Z 1). rewrite <- inject_Z_plus, <- Zle_Qle. lia. }
        lra. }
      pose proof (Qceiling_resp_le _ _ Hstep) as Hceil.
      assert (Hshift : Qceiling (inject_Z c' * (12 # 10) + 2)
                       = Qceiling (inject_Z c' * (12 # 10)) + 2).
      { apply Z.le_antisymm.
        - rewrite <- (Qceiling_Z (Qceiling (inject_Z c' * (12 # 10)) + 2)).
          apply Qceiling_resp_le. rewrite inject_Z_plus.
          pose proof (Qle_ceiling (inject_Z c' * (12 # 10))).
          change (inject_Z 2) with 2%Q. lra.
        - pose proof (Qceiling_lt (inject_Z c' * (12 # 10))) as Hlt.
          pose proof (Qle_ceiling (inject_Z c' * (12 # 10) + 2)) as Hle.
          rewrite inject_Z_minus in Hlt. change (inject_Z 1) with 1%Q in Hlt.
          set (C1 := Qceiling (inject_Z c' * (12 # 10))) in *.
          set (C2 := Qceiling (inject_Z c' * (12 # 10) + 2)) in *.
          assert (Hz : (inject_Z C1 + 1 < inject_Z C2)%Q) by lra.
          change 1%Q with (inject_Z 1) in Hz.
          rewrite <- inject_Z_plus, <- Zlt_Qlt in Hz. lia. }
      lia.
    - apply Qceiling_resp_le. apply Qmult_le_compat_r; [|discriminate].
      now rewrite <- Zle_Qle. }
  intros n Hn Hrn Hprod.
  assert (Hsize0 : 0 <= size) by (rewrite Zle_Qle; exact Hest).
  destruct (estimatedFee_integer size n r Hsize0 ltac:(lia) Hrn Hprod) as [Hcode Hreal].
  rewrite Hcode, Hreal, margin_exact by nia.
  split; [reflexivity|].
  intros Hlt Hprod'.
  assert (Hsize0' : 0 <= size').
  { unfold size', size in *. rewrite estimatedTxSize_eq in *. lia. }
  destruct (estimatedFee_integer size' n r Hsize0' ltac:(lia) Hrn Hprod') as [Hcode' _].
  rewrite Hcode', margin_exact by nia.
  apply margin_lt. unfold size', size. rewrite !estimatedTxSize_eq. nia.
Qed.

Lemma estimateUploadFee_margined_witness :
  estimateUploadFee (Sample.env 2%Q [] "" Sample.okResponse) (Sample.file 1000) = 3742
  /\ estimateUploadFee (Sample.env 2%Q [] "" Sample.okResponse) (Sample.file 1000)
     < estimateUploadFee (Sample.env 2%Q [] "" Sample.okResponse) (Sample.file 1001).
Proof.
  destruct (estimateUploadFee_margined
              (Sample.env 2%Q [] "" Sample.okResponse)
              (Sample.file 1000) (Sample.file 1001))
    as (_ & _ & _ & _ & _ & Hinteger).
  - simpl. lia.
  - simpl. discriminate.
  - destruct (Hinteger 2) as [Heq Hlt].
    + lia.
    + vm_compute. reflexivity.
    + vm_compute. discriminate.
    + split.
      * rewrite Heq. vm_compute. reflexivity.
      * apply Hlt; [simpl; lia | vm_compute; discriminate].
Defined.

(** C3 (as stated) fails in three places.  When the store reports rate 0 the
    formula of the claim gives fee 0, while the estimator charges the fee of
    rate 1.  At the positive rate 1/2 the fee is not strictly increasing:
    files of 0 and of 1 byte cost the same.  And the products are rounded
    before their ceilings are taken: at the reported rate 0.1, a file of 1
    byte costs 68 where the formula gives 69 at the number held for 0.1; at
    the reported rate 1.1, a file of 91 bytes costs 860 where the formula
    gives 858 at 11/10. *)
Lemma estimateUploadFee_not_as_stated :
  let zero := Sample.env 0%Q [] "" Sample.okResponse in
  let half := Sample.env (1 # 2)%Q [] "" Sample.okResponse in
  let tenth := Sample.env (1 # 10)%Q [] "" Sample.okResponse in
  let elevenTenths := Sample.env (11 # 10)%Q [] "" Sample.okResponse in
  (FeeSpec.marginedFee (file_size (Sample.file 0)) (mvcFeeRate zero) = 0
   /\ estimateUploadFee zero (Sample.file 0) = 671
   /\ estimateUploadFee zero (Sample.file 0)
      <> FeeSpec.marginedFee (file_size (Sample.file 0)) (mvcFeeRate zero))
  /\ ((0 < mvcFeeRate half)%Q
      /\ file_size (Sample.file 0) < file_size (Sample.file 1)
      /\ estimateUploadFee half (Sample.file 0) = 336
      /\ estimateUploadFee half (Sample.file 1) = 336
      /\ ~ estimateUploadFee half (Sample.file 0) < estimateUploadFee half (Sample.file 1))
  /\ (estimateUploadFee tenth (Sample.file 1) = 68
      /\ FeeSpec.marginedFee 1 (chainStore_mvcFeeRate tenth) = 69)
  /\ (estimateUploadFee elevenTenths (Sample.file 91) = 860
      /\ FeeSpec.marginedFee 91 (mvcFeeRate elevenTenths) = 858).
Proof.
  cbv zeta. split; [|split; [|split]].
  - split; [reflexivity|]. split; [vm_compute; reflexivity|]. vm_compute. discriminate.
  - split; [reflexivity|]. split; [reflexivity|].
    split; [vm_compute; reflexivity|]. split; [vm_compute; reflexivity|].
    vm_compute. discriminate.
  - split; vm_compute; reflexivity.
  - split; vm_compute; reflexivity.
Qed.

(** ** UTXO selector *)

Lemma insertDescending_perm (a : WalletUTXO) (l : list WalletUTXO) :
  Permutation (insertDescending a l) (a :: l).
Proof.
  induction l as [|b l IH]; simpl.
  - apply Permutation_refl.
  - destruct (value b - value a <=? 0).
    + apply Permutation_refl.
    + eapply perm_trans; [apply perm_skip, IH | apply perm_swap].
Qed.

Lemma sortDescending_perm (l : list WalletUTXO) :
  Permutation (sortDescending l) l.
Proof.
  induction l as [|a l IH]; simpl.
  - constructor.
  - eapply perm_trans; [apply insertDescending_perm | now apply perm_skip].
Qed.

Lemma insertDescending_sorted (a : WalletUTXO) (l : list WalletUTXO) :
  StronglySorted descending l ->
  StronglySorted descending (insertDescending a l).
Proof.
  induction 1 as [|b l Hsorted IH Hall]; simpl.
  - repeat constructor.
  - destruct (Z.leb_spec (value b - value a) 0) as [Hle|Hgt].
    + constructor.
      * now constructor.
      * constructor; [unfold descending; lia|].
        eapply Forall_impl; [|exact Hall].
        unfold descending. intros c Hc. lia.
    + constructor; trivial.
      eapply Permutation_Forall; [apply Permutation_sym, insertDescending_perm|].
      constructor; trivial. unfold descending. lia.
Qed.

Lemma sortDescending_sorted (l : list WalletUTXO) :
  StronglySorted descending (sortDescending l).
Proof.
  induction l as [|a l IH]; simpl.
  - constructor.
  - now apply insertDescending_sorted.
Qed.

Lemma sumValues_perm (l l' : list WalletUTXO) :
  Permutation l l' -> sumValues l = sumValues l'.
Proof.
  induction 1; simpl; lia.
Qed.

Lemma sumSatoshis_selected (lib : MvcLib) (l : list WalletUTXO) :
  sumSatoshis (map (selectedUtxo lib) l) = sumValues l.
Proof.
  induction l as [|a l IH]; simpl; [reflexivity | now rewrite IH].
Qed.

Lemma sumValues_firstn_le (l : list WalletUTXO) (k : nat) :
  Forall (fun utxo => 0 <= value utxo) l ->
  sumValues (firstn k l) <= sumValues l.
Proof.
  intros Hall. revert k.
  induction Hall as [|a l Ha Hall IH]; intros [|k]; simpl; try lia.
  - assert (0 <= sumValues l) by (specialize (IH 0%nat); simpl in IH; lia). lia.
  - specialize (IH k). lia.
Qed.

Lemma fillerUtxos_above (ws : list WalletUTXO) :
  Forall (fun utxo => 600 < value utxo) (fillerUtxos ws).
Proof.
  apply Forall_forall. intros u Hin.
  apply filter_In in Hin. destruct Hin as [_ Hlt].
  unfold filler in Hlt. lia.
Qed.

Lemma fillerUtxos_idem (ws : list WalletUTXO) :
  fillerUtxos (fillerUtxos ws) = fillerUtxos ws.
Proof.
  unfold fillerUtxos.
  induction ws as [|a ws IH]; simpl; trivial.
  destruct (filler <? value a) eqn:Ha; simpl; trivial.
  now rewrite Ha, IH.
Qed.

(** The loop stops at the first prefix that reaches the bound, or else runs
    through the whole list. *)
Lemma selectLoop_spec (lib : MvcLib) (req : Z) (l : list WalletUTXO) :
  forall (sel : list UTXO) (tot : Z),
  exists k : nat,
    (k <= List.length l)%nat
    /\ selectLoop lib req l sel tot
       = (sel ++ map (selectedUtxo lib) (firstn k l), tot + sumValues (firstn k l))
    /\ (forall j, (0 < j < k)%nat -> tot + sumValues (firstn j l) < req + 1)
    /\ (((0 < k)%nat /\ req + 1 <= tot + sumValues (firstn k l))
        \/ (k = List.length l
            /\ forall j, (0 < j <= k)%nat -> tot + sumValues (firstn j l) < req + 1)).
Proof.
  induction l as [|u rest IH]; intros sel tot.
  - exists 0%nat. simpl. rewrite app_nil_r, Z.add_0_r.
    split; [lia|]. split; [reflexivity|]. split; [lia|].
    right. split; [reflexivity|]. lia.
  - simpl. destruct (Z.leb_spec (req + 1) (tot + value u)) as [Hreach|Hshort].
    + exists 1%nat. simpl. rewrite Z.add_0_r.
      split; [lia|]. split; [reflexivity|]. split; [lia|].
      left. lia.
    + destruct (IH (sel ++ [selectedUtxo lib u]) (tot + value u))
        as (k & Hk & Heq & Hbefore & Hend).
      exists (S k). simpl. rewrite Heq, <- app_assoc. simpl.
      split; [lia|]. split; [f_equal; lia|]. split.
      * intros [|j] Hj; [lia|]. simpl.
        destruct j as [|j]; [simpl; lia|].
        specialize (Hbefore (S j)). simpl in Hbefore. simpl. lia.
      * destruct Hend as [[Hpos Hreach]|[Hall Hnever]].
        -- left. split; [lia|]. lia.
        -- right. split; [lia|].
           intros [|j] Hj; [lia|]. simpl.
           destruct j as [|j]; [simpl; lia|].
           specialize (Hnever (S j)). simpl in Hnever. simpl. lia.
Qed.

Lemma getWalletUTXOs_run (lib : MvcLib) (env : Env) (req : Z) (ws : list WalletUTXO) :
  getUtxos env = Ok ws ->
  run (getWalletUTXOs lib env req) = (selectorOutcome lib req ws, [CallGetUtxos]).
Proof.
  intros Hws.
  unfold getWalletUTXOs, selectorOutcome. autounfold with js_run.
  rewrite Hws. unfold Ok. cbn [app].
  destruct ws as [|w ws]; [reflexivity|].
  cbn [List.length Nat.eqb].
  destruct (fillerUtxos (w :: ws)) as [|f fs]; [reflexivity|].
  cbn [List.length Nat.eqb].
  destruct (selectLoop lib req (sortDescending (f :: fs)) [] 0) as [sel tot].
  destruct (tot <? req + 1); reflexivity.
Qed.

Lemma getWalletUTXOs_result (lib : MvcLib) (env : Env) (req : Z) (ws : list WalletUTXO) :
  getUtxos env = Ok ws ->
  result_of (getWalletUTXOs lib env req) = selectorOutcome lib req ws.
Proof.
  intros Hws. unfold result_of. now rewrite (getWalletUTXOs_run lib env req ws Hws).
Qed.

Lemma selectorOutcome_cases (lib : MvcLib) (req : Z) (ws : list WalletUTXO) :
  fillerUtxos ws <> [] ->
  let sorted := sortDescending (fillerUtxos ws) in
  (exists k : nat,
      (0 < k <= List.length sorted)%nat
      /\ (forall j, (0 < j < k)%nat -> sumValues (firstn j sorted) < req + 1)
      /\ req + 1 <= sumValues (firstn k sorted)
      /\ selectorOutcome lib req ws
         = Ok {| utxos := map (selectedUtxo lib) (firstn k sorted);
                 totalAmount := sumValues (firstn k sorted) |})
  \/ ((forall j, (0 < j <= List.length sorted)%nat ->
         sumValues (firstn j sorted) < req + 1)
      /\ selectorOutcome lib req ws
         = Throw (Error ("Failed to get UTXOs: "
                         ++ msgInsufficient (req + 1) (sumValues (fillerUtxos ws)))%string)).
Proof.
  intros Hsurvive sorted.
  assert (Hlen : (0 < List.length sorted)%nat).
  { unfold sorted.
    rewrite (Permutation_length (sortDescending_perm (fillerUtxos ws))).
    destruct (fillerUtxos ws); [contradiction | simpl; lia]. }
  assert (Hout : selectorOutcome lib req ws
                 = let '(sel, tot) := selectLoop lib req sorted [] 0 in
                   if tot <? req + 1
                   then Throw (Error ("Failed to get UTXOs: "
                                      ++ msgInsufficient (req + 1) tot)%string)
                   else Ok {| utxos := sel; totalAmount := tot |}).
  { unfold selectorOutcome, sorted.
    destruct ws as [|w ws]; [contradiction|].
    destruct (fillerUtxos (w :: ws)); [contradiction | reflexivity]. }
  rewrite Hout.
  destruct (selectLoop_spec lib req sorted [] 0) as (k & Hk & Heq & Hbefore & Hend).
  rewrite Heq. cbn [app]. rewrite !Z.add_0_l.
  destruct Hend as [[Hpos Hreach]|[Hall Hnever]].
  - left. exists k. split; [lia|]. split.
    + intros j Hj. specialize (Hbefore j Hj). lia.
    + split; [lia|].
      destruct (Z.ltb_spec (sumValues (firstn k sorted)) (req + 1)); [lia | reflexivity].
  - right. split.
    + intros j Hj. specialize (Hnever j). lia.
    + assert (Hlast : sumValues (firstn k sorted) < req + 1)
        by (specialize (Hnever k); lia).
      destruct (Z.ltb_spec (sumValues (firstn k sorted)) (req + 1)); [|lia].
      rewrite Hall, firstn_all.
      unfold sorted.
      now rewrite (sumValues_perm _ _ (sortDescending_perm (fillerUtxos ws))).
Qed.

(** C1 (as amended).  Whatever the required amount and the outputs the
    wallet reports, the selector works on the outputs above the dust floor
    sorted descending by amount.  When there is such an output it returns
    the first prefix of that order whose total reaches [requiredAmount + 1]:
    the selection is that prefix, [totalAmount] is its sum and is at least
    [requiredAmount + 1]; when no prefix, the whole list included, reaches
    the bound, it throws the insufficient-balance error, whose message gives
    [requiredAmount + 1] and the total of the filtered outputs.  When no
    output is above the dust floor it throws one of the two errors kept for
    that, whatever the required amount. *)
Theorem getWalletUTXOs_greedy (lib : MvcLib) (env : Env) (requiredAmount : Z)
    (ws : list WalletUTXO) :
  getUtxos env = Ok ws ->
  let sorted := sortDescending (fillerUtxos ws) in
  let bound := requiredAmount + 1 in
  let outcome := result_of (getWalletUTXOs lib env requiredAmount) in
  Permutation sorted (fillerUtxos ws)
  /\ StronglySorted descending sorted
  /\ (fillerUtxos ws <> [] ->
      (forall k : nat,
          (0 < k <= List.length sorted)%nat ->
          (forall j, (0 < j < k)%nat -> sumValues (firstn j sorted) < bound) ->
          bound <= sumValues (firstn k sorted) ->
          outcome
          = Ok {| utxos := map (selectedUtxo lib) (firstn k sorted);
                  totalAmount := sumValues (firstn k sorted) |})
      /\ ((forall j, (0 < j <= List.length sorted)%nat ->
             sumValues (firstn j sorted) < bound) ->
          outcome
          = Throw (Error ("Failed to get UTXOs: Insufficient balance! Need "
                          ++ JS.Number_toString bound
                          ++ " satoshis, but only have "
                          ++ JS.Number_toString (sumValues (fillerUtxos ws))
                          ++ " satoshis")%string)))
  /\ (fillerUtxos ws = [] ->
      outcome
      = Throw (Error (if (List.length ws =? 0)%nat
                      then "Failed to get UTXOs: No available UTXOs in wallet"
                      else "Failed to get UTXOs: No UTXOs larger than 600 satoshis available in wallet")%string))
  /\ (forall r : UTXOData,
        outcome = Ok r ->
        totalAmount r = sumSatoshis (utxos r) /\ bound <= totalAmount r).
Proof.
  intros Hws. cbv zeta.
  rewrite (getWalletUTXOs_result lib env requiredAmount ws Hws).
  split; [apply sortDescending_perm|].
  split; [apply sortDescending_sorted|].
  destruct (fillerUtxos ws) as [|survivor others] eqn:Hfiltered.
  { split; [intros Hsome; now contradiction Hsome|].
    unfold selectorOutcome. rewrite Hfiltered.
    split; [|destruct ws; intros r Hr; discriminate Hr].
    intros _. now destruct ws. }
  rewrite <- Hfiltered.
  assert (Hsurvive : fillerUtxos ws <> []) by (rewrite Hfiltered; discriminate).
  pose proof (selectorOutcome_cases lib requiredAmount ws Hsurvive) as Hcases.
  cbv zeta in Hcases.
  destruct Hcases as [(k0 & Hk0 & Hbefore0 & Hreach0 & Hres)|[Hnever Hres]];
    rewrite Hres.
  - split; [intros _; split|split].
    + intros k Hk Hbefore Hreach.
      assert (k = k0) as ->; [|reflexivity].
      destruct (Nat.lt_trichotomy k k0) as [Hlt|[Heq|Hgt]]; trivial.
      * specialize (Hbefore0 k). lia.
      * specialize (Hbefore k0). lia.
    + intros Hnever. specialize (Hnever k0). lia.
    + intros Hnone. now contradiction Hsurvive.
    + intros r [= <-]. cbn [utxos totalAmount].
      rewrite sumSatoshis_selected. lia.
  - split; [intros _; split|split].
    + intros k Hk _ Hreach. specialize (Hnever k). lia.
    + reflexivity.
    + intros Hnone. now contradiction Hsurvive.
    + intros r Hr. discriminate Hr.
Qed.

Lemma getWalletUTXOs_greedy_witness :
  result_of (getWalletUTXOs Sample.lib
               (Sample.env 1%Q [Sample.wu 650; Sample.wu 800; Sample.wu 100; Sample.wu 700]
                  "" Sample.okResponse) 1400)
  = Ok {| utxos := map (selectedUtxo Sample.lib) [Sample.wu 800; Sample.wu 700];
          totalAmount := 1500 |}.
Proof.
  destruct (getWalletUTXOs_greedy Sample.lib
              (Sample.env 1%Q [Sample.wu 650; Sample.wu 800; Sample.wu 100; Sample.wu 700]
                 "" Sample.okResponse) 1400
              [Sample.wu 650; Sample.wu 800; Sample.wu 100; Sample.wu 700])
    as (_ & _ & Hsome & _).
  - reflexivity.
  - destruct Hsome as [Hstop _]; [discriminate|].
    apply (Hstop 2%nat).
    + simpl. lia.
    + intros j Hj. assert (j = 1%nat) as -> by lia. vm_compute. reflexivity.
    + vm_compute. discriminate.
Defined.

(** C1 (as stated) fails on a wallet that holds dust only: the filtered set
    is empty, so accumulating all of it, which gives 0, never reaches the
    bound, yet the error thrown is not the insufficient-balance error: it is
    the error kept for a wallet without an output above 600 satoshis, and
    it reports no total. *)
Lemma getWalletUTXOs_dust_only_not_insufficient :
  let ws := [Sample.wu 100; Sample.wu 600] in
  let env := Sample.env 1%Q ws "" Sample.okResponse in
  let requiredAmount := 1000 in
  fillerUtxos ws = []
  /\ sumValues (sortDescending (fillerUtxos ws)) < requiredAmount + 1
  /\ result_of (getWalletUTXOs Sample.lib env requiredAmount)
     = Throw (Error "Failed to get UTXOs: No UTXOs larger than 600 satoshis available in wallet")
  /\ result_of (getWalletUTXOs Sample.lib env requiredAmount)
     <> Throw (Error ("Failed to get UTXOs: Insufficient balance! Need "
                      ++ JS.Number_toString (requiredAmount + 1)
                      ++ " satoshis, but only have "
                      ++ JS.Number_toString (sumValues (fillerUtxos ws))
                      ++ " satoshis")%string)
  /\ forall e, result_of (getWalletUTXOs Sample.lib env requiredAmount) = Throw e ->
       JS.includes "Insufficient balance" (message e) = false.
Proof.
  cbv zeta. split; [reflexivity|]. split; [vm_compute; reflexivity|].
  split; [vm_compute; reflexivity|]. split; [vm_compute; discriminate|].
  intros e He. vm_compute in He. injection He as <-. vm_compute. reflexivity.
Qed.

Lemma In_firstn_In {A : Type} (k : nat) (l : list A) (x : A) :
  In x (firstn k l) -> In x l.
Proof.
  intros Hin. rewrite <- (firstn_skipn k l). apply in_or_app. now left.
Qed.

(** C6.  Outputs of at most 600 satoshis never take part in the selection:
    the survivors are exactly the wallet's outputs above 600, every selected
    output is one of them, and the outcome is the one the survivors alone
    give.  So when the survivors total less than [requiredAmount + 1] the
    selector throws the insufficient-balance error whatever the dust outputs
    add up to.  With no output at all it throws the no-outputs error, and
    with outputs none of which survives, the no-usable-outputs error. *)
Theorem getWalletUTXOs_dust (lib : MvcLib) (env : Env) (requiredAmount : Z)
    (ws : list WalletUTXO) :
  getUtxos env = Ok ws ->
  (forall w, In w (fillerUtxos ws) <-> In w ws /\ 600 < value w)
  /\ (ws = [] ->
      result_of (getWalletUTXOs lib env requiredAmount)
      = Throw (Error "Failed to get UTXOs: No available UTXOs in wallet"))
  /\ (ws <> [] -> fillerUtxos ws = [] ->
      result_of (getWalletUTXOs lib env requiredAmount)
      = Throw (Error
          "Failed to get UTXOs: No UTXOs larger than 600 satoshis available in wallet"))
  /\ (forall r : UTXOData,
        result_of (getWalletUTXOs lib env requiredAmount) = Ok r ->
        forall u, In u (utxos r) ->
          600 < satoshis u
          /\ exists w, In w ws /\ 600 < value w /\ u = selectedUtxo lib w)
  /\ (fillerUtxos ws <> [] ->
      sumValues (fillerUtxos ws) < requiredAmount + 1 ->
      result_of (getWalletUTXOs lib env requiredAmount)
      = Throw (Error ("Failed to get UTXOs: "
                      ++ msgInsufficient (requiredAmount + 1)
                           (sumValues (fillerUtxos ws)))%string))
  /\ (forall env' : Env,
        getUtxos env' = Ok (fillerUtxos ws) ->
        fillerUtxos ws <> [] ->
        result_of (getWalletUTXOs lib env requiredAmount)
        = result_of (getWalletUTXOs lib env' requiredAmount)).
Proof.
  intros Hws.
  rewrite (getWalletUTXOs_result lib env requiredAmount ws Hws).
  assert (Hfilter : forall w, In w (fillerUtxos ws) <-> In w ws /\ 600 < value w).
  { intros w. unfold fillerUtxos, filler. rewrite filter_In.
    split; intros [Hin Hv]; split; trivial; lia. }
  split; [exact Hfilter|].
  split; [intros ->; reflexivity|].
  split.
  { intros Hne Hnone. unfold selectorOutcome. rewrite Hnone.
    destruct ws; [contradiction | reflexivity]. }
  split.
  { intros r Hr u Hu.
    assert (Hsurvive : fillerUtxos ws <> []).
    { intros Hnone. unfold selectorOutcome in Hr. rewrite Hnone in Hr.
      destruct ws; discriminate Hr. }
    pose proof (selectorOutcome_cases lib requiredAmount ws Hsurvive) as Hcases.
    cbv zeta in Hcases.
    destruct Hcases as [(k & _ & _ & _ & Hres)|[_ Hres]];
      rewrite Hres in Hr; [|discriminate Hr].
    injection Hr as <-. cbn [utxos] in Hu.
    apply in_map_iff in Hu. destruct Hu as (w & <- & Hw).
    apply In_firstn_In in Hw.
    apply (Permutation_in _ (sortDescending_perm (fillerUtxos ws))) in Hw.
    apply Hfilter in Hw. destruct Hw as [Hin Hv].
    split; [exact Hv|]. exists w. auto. }
  split.
  { intros Hsurvive Hshort.
    pose proof (selectorOutcome_cases lib requiredAmount ws Hsurvive) as Hcases.
    cbv zeta in Hcases.
    destruct Hcases as [(k & _ & _ & Hreach & _)|[_ Hres]]; [|exact Hres].
    exfalso.
    assert (Hle : sumValues (firstn k (sortDescending (fillerUtxos ws)))
                  <= sumValues (sortDescending (fillerUtxos ws))).
    { apply sumValues_firstn_le.
      eapply Permutation_Forall;
        [apply Permutation_sym, sortDescending_perm|].
      eapply Forall_impl; [|apply fillerUtxos_above].
      intros w Hw. simpl in Hw. lia. }
    rewrite (sumValues_perm _ _ (sortDescending_perm (fillerUtxos ws))) in Hle.
    lia. }
  intros env' Hws' Hsurvive.
  rewrite (getWalletUTXOs_result lib env' requiredAmount _ Hws').
  unfold selectorOutcome. rewrite fillerUtxos_idem.
  destruct ws as [|w ws]; [contradiction|].
  destruct (fillerUtxos (w :: ws)); [contradiction | reflexivity].
Qed.

(** Raw sufficiency does not help: 700 + 600 + 600 covers 1001, the only
    survivor does not. *)
Lemma getWalletUTXOs_dust_witness :
  1000 + 1 <= sumValues [Sample.wu 700; Sample.wu 600; Sample.wu 600]
  /\ result_of (getWalletUTXOs Sample.lib
                  (Sample.env 1%Q [Sample.wu 700; Sample.wu 600; Sample.wu 600]
                     "" Sample.okResponse) 1000)
     = Throw (Error
         "Failed to get UTXOs: Insufficient balance! Need 1001 satoshis, but only have 700 satoshis").
Proof.
  split; [vm_compute; discriminate|].
  destruct (getWalletUTXOs_dust Sample.lib
              (Sample.env 1%Q [Sample.wu 700; Sample.wu 600; Sample.wu 600]
                 "" Sample.okResponse) 1000
              [Sample.wu 700; Sample.wu 600; Sample.wu 600] eq_refl)
    as (_ & _ & _ & _ & Hshort & _).
  rewrite Hshort.
  - reflexivity.
  - discriminate.
  - vm_compute. reflexivity.
Defined.

(** ** Base-transaction builder *)

Lemma buildAndSignBaseTx_reject (lib : MvcLib) (env : Env) (utxoData : UTXOData) :
  List.length (utxos utxoData) <> 1%nat ->
  run (buildAndSignBaseTx lib env utxoData)
  = (Throw (Error ("Failed to build/sign MVC transaction: "
                   ++ msgNotExactlyOne (List.length (utxos utxoData)))%string), []).
Proof.
  intros Hlen. unfold buildAndSignBaseTx, throw. autounfold with js_run.
  destruct (utxos utxoData) as [|u [|u' rest]]; try reflexivity.
  now contradiction Hlen.
Qed.

Lemma buildAndSignBaseTx_calls (lib : MvcLib) (env : Env) (utxoData : UTXOData)
    (utxo : UTXO) :
  utxos utxoData = [utxo] ->
  calls_of (buildAndSignBaseTx lib env utxoData)
  = [CallSignTransaction (signRequest lib env utxo)].
Proof.
  intros Hone.
  unfold buildAndSignBaseTx. autounfold with js_run.
  rewrite Hone. cbn [app].
  destruct (signTransaction env (signRequest lib env utxo)) as [e|[signature|]];
    try reflexivity.
  destruct (Signature_fromTxFormat_toDER lib (sig signature)); reflexivity.
Qed.

(** C2.  Given zero outputs, or two or more, the builder throws the
    exactly-one-UTXO error at once, before any request reaches the signer;
    it builds the transaction and asks for the signature exactly when the
    argument holds one output. *)
Theorem buildAndSignBaseTx_exactly_one (lib : MvcLib) (env : Env) (utxoData : UTXOData) :
  (List.length (utxos utxoData) <> 1%nat ->
   run (buildAndSignBaseTx lib env utxoData)
   = (Throw (Error ("Failed to build/sign MVC transaction: "
                    ++ "SIGHASH_SINGLE requires exactly 1 UTXO, got "
                    ++ JS.Number_toString (Z.of_nat (List.length (utxos utxoData))))%string),
      []))
  /\ (forall utxo, utxos utxoData = [utxo] ->
      calls_of (buildAndSignBaseTx lib env utxoData)
      = [CallSignTransaction (signRequest lib env utxo)])
  /\ ((exists request,
         In (CallSignTransaction request) (calls_of (buildAndSignBaseTx lib env utxoData)))
      <-> List.length (utxos utxoData) = 1%nat).
Proof.
  split; [apply buildAndSignBaseTx_reject|].
  split; [apply buildAndSignBaseTx_calls|].
  split.
  - intros [request Hin].
    destruct (Nat.eq_dec (List.length (utxos utxoData)) 1) as [Hone|Hnot]; trivial.
    unfold calls_of in Hin.
    rewrite (buildAndSignBaseTx_reject lib env utxoData Hnot) in Hin.
    destruct Hin.
  - intros Hone.
    destruct (utxos utxoData) as [|utxo [|u' rest]] eqn:Hutxos; try discriminate Hone.
    exists (signRequest lib env utxo).
    rewrite (buildAndSignBaseTx_calls lib env utxoData utxo Hutxos). now left.
Qed.

Lemma buildAndSignBaseTx_exactly_one_witness :
  run (buildAndSignBaseTx Sample.lib (Sample.env 1%Q [] "" Sample.okResponse)
         {| utxos := [selectedUtxo Sample.lib (Sample.wu 5000);
                      selectedUtxo Sample.lib (Sample.wu 3000)];
            totalAmount := 8000 |})
  = (Throw (Error
       "Failed to build/sign MVC transaction: SIGHASH_SINGLE requires exactly 1 UTXO, got 2"),
     []).
Proof.
  destruct (buildAndSignBaseTx_exactly_one Sample.lib
              (Sample.env 1%Q [] "" Sample.okResponse)
              {| utxos := [selectedUtxo Sample.lib (Sample.wu 5000);
                           selectedUtxo Sample.lib (Sample.wu 3000)];
                 totalAmount := 8000 |}) as (Hreject & _).
  rewrite Hreject.
  - reflexivity.
  - simpl. discriminate.
Defined.

(** C5.  With a single output, the builder shows the signer the version-10
    transaction whose only input spends the given output and whose only
    output pays 1 satoshi to the user's own address, and asks for the
    signature of input 0, over the script and the amount of that output,
    under the signature type [0x3 | 0x80 | 0x40], whose base type is
    SIGHASH_SINGLE and which carries the ANYONECANPAY flag.  When the signer
    answers with a signature that decodes, the builder returns that same
    transaction with, for unlocking script of its input, the two-element
    script (signature with that type, public key), and it has called nothing
    but the signer, once. *)
Theorem buildAndSignBaseTx_signed (lib : MvcLib) (env : Env) (utxo : UTXO)
    (total : Z) (signature : SignResult) (der : string) :
  let shown :=
    {| version := 10;
       inputs := [ {| prevTxId := txId utxo;
                      prevOutputIndex := outputIndex utxo;
                      prevScript := script utxo;
                      prevSatoshis := satoshis utxo;
                      unlockingScript := [] |} ];
       outputs := [ {| out_script := buildPublicKeyHashOut lib (user_address env);
                       out_satoshis := 1 |} ] |} in
  let request :=
    {| txHex := shown;
       sign_address := user_address env;
       inputIndex := 0;
       scriptHex := script utxo;
       sign_satoshis := satoshis utxo;
       sigtype := Z.lor (Z.lor 3 128) 64 |} in
  signTransaction env request = Ok (Some signature) ->
  Signature_fromTxFormat_toDER lib (sig signature) = Ok der ->
  let unlocking :=
    [PushSignature der (Z.lor (Z.lor 3 128) 64); PushBytes (publicKey signature)] in
  let signedTx :=
    {| version := 10;
       inputs := [ {| prevTxId := txId utxo;
                      prevOutputIndex := outputIndex utxo;
                      prevScript := script utxo;
                      prevSatoshis := satoshis utxo;
                      unlockingScript := unlocking |} ];
       outputs := [ {| out_script := buildPublicKeyHashOut lib (user_address env);
                       out_satoshis := 1 |} ] |} in
  run (buildAndSignBaseTx lib env {| utxos := [utxo]; totalAmount := total |})
  = (Ok signedTx, [CallSignTransaction request])
  /\ List.length (inputs signedTx) = 1%nat
  /\ List.length (outputs signedTx) = 1%nat
  /\ List.length unlocking = 2%nat
  /\ inputs signedTx = map (fun input =>
                              {| prevTxId := prevTxId input;
                                 prevOutputIndex := prevOutputIndex input;
                                 prevScript := prevScript input;
                                 prevSatoshis := prevSatoshis input;
                                 unlockingScript := unlocking |}) (inputs shown)
  /\ outputs signedTx = outputs shown
  /\ baseType (sigtype request) = 3
  /\ Z.land (sigtype request) 128 = 128.
Proof.
  cbv zeta. intros Hsign Hder.
  split.
  - unfold buildAndSignBaseTx. autounfold with js_run.
    cbn [utxos app].
    change (signRequest lib env utxo)
      with {| txHex :=
                {| version := 10;
                   inputs := [ {| prevTxId := txId utxo;
                                  prevOutputIndex := outputIndex utxo;
                                  prevScript := script utxo;
                                  prevSatoshis := satoshis utxo;
                                  unlockingScript := [] |} ];
                   outputs := [ {| out_script :=
                                     buildPublicKeyHashOut lib (user_address env);
                                   out_satoshis := 1 |} ] |};
              sign_address := user_address env;
              inputIndex := 0;
              scriptHex := script utxo;
              sign_satoshis := satoshis utxo;
              sigtype := Z.lor (Z.lor 3 128) 64 |}.
    rewrite Hsign. unfold Ok at 1. cbn iota beta.
    rewrite Hder. reflexivity.
  - repeat split; reflexivity.
Qed.

Lemma buildAndSignBaseTx_signed_witness :
  result_of (buildAndSignBaseTx Sample.lib (Sample.env 1%Q [] "" Sample.okResponse)
               {| utxos := [selectedUtxo Sample.lib (Sample.wu 5000)];
                  totalAmount := 5000 |})
  = Ok {| version := 10;
          inputs := [ {| prevTxId := "cd34";
                         prevOutputIndex := 0;
                         prevScript := Sample.p2pkh Sample.own;
                         prevSatoshis := 5000;
                         unlockingScript := [PushSignature "3044" 195; PushBytes "02aa"] |} ];
          outputs := [ {| out_script := Sample.p2pkh Sample.own; out_satoshis := 1 |} ] |}.
Proof.
  destruct (buildAndSignBaseTx_signed Sample.lib (Sample.env 1%Q [] "" Sample.okResponse)
              (selectedUtxo Sample.lib (Sample.wu 5000)) 5000
              {| sig := "3044"; publicKey := "02aa" |} "3044" eq_refl eq_refl)
    as (Hrun & _).
  unfold result_of. rewrite Hrun. reflexivity.
Defined.

(** ** Consolidator *)

Lemma scanOutputs_first (lib : MvcLib) (env : Env) (pre : list TxOutput)
    (o : TxOutput) (post : list TxOutput) :
  nonePaysTo lib env pre ->
  paysTo lib env o = true ->
  forall i : Z,
    scanOutputs lib env (pre ++ o :: post) i
    = Some (i + Z.of_nat (List.length pre), out_satoshis o).
Proof.
  induction 1 as [|p pre Hp Hpre IH]; intros Ho i.
  - simpl. rewrite Ho. now rewrite Z.add_0_r.
  - rewrite <- app_comm_cons. cbv beta in Hp.
    change (scanOutputs lib env (p :: pre ++ o :: post) i)
      with (if paysTo lib env p then Some (i, out_satoshis p)
            else scanOutputs lib env (pre ++ o :: post) (i + 1)).
    rewrite Hp, (IH Ho). f_equal. f_equal. cbn [List.length]. lia.
Qed.

Lemma scanOutputs_none (lib : MvcLib) (env : Env) (outs : list TxOutput) :
  nonePaysTo lib env outs ->
  forall i : Z, scanOutputs lib env outs i = None.
Proof.
  induction 1 as [|p outs Hp Houts IH]; intros i; simpl; trivial.
  cbv beta in Hp. now rewrite Hp.
Qed.

Lemma locateMergedOutput_first (lib : MvcLib) (env : Env) (pre : list TxOutput)
    (o : TxOutput) (post : list TxOutput) :
  nonePaysTo lib env pre ->
  paysTo lib env o = true ->
  locateMergedOutput lib env (pre ++ o :: post)
  = Ok (Z.of_nat (List.length pre), out_satoshis o).
Proof.
  intros Hpre Ho. unfold locateMergedOutput.
  now rewrite (scanOutputs_first lib env pre o post Hpre Ho 0).
Qed.

Lemma locateMergedOutput_fallback (lib : MvcLib) (env : Env) (first : TxOutput)
    (rest : list TxOutput) :
  nonePaysTo lib env (first :: rest) ->
  locateMergedOutput lib env (first :: rest) = Ok (0, out_satoshis first).
Proof.
  intros Hnone. unfold locateMergedOutput.
  now rewrite (scanOutputs_none lib env _ Hnone 0).
Qed.

(** With no output at all there is no output 0 to fall back on: reading its
    amount throws. *)
Lemma locateMergedOutput_no_outputs (lib : MvcLib) (env : Env) :
  locateMergedOutput lib env [] = Throw (Error msgUndefinedSatoshis).
Proof. reflexivity. Qed.

Lemma nth_error_middle {A : Type} (pre : list A) (o : A) (post : list A) :
  nth_error (pre ++ o :: post) (Z.to_nat (Z.of_nat (List.length pre))) = Some o.
Proof.
  rewrite Nat2Z.id. induction pre as [|p pre IH]; simpl; trivial.
Qed.

(** What [mergeUTXOs] does once the wallet has answered with a composer that
    deserializes. *)
Lemma mergeUTXOs_run (lib : MvcLib) (env : Env) (utxoData : UTXOData)
    (estimatedFee : Z) (payFn : PayParams -> Result PayResult)
    (payResult : PayResult) (signed : Transaction) :
  pay env = Some payFn ->
  payFn (mergePayParams lib env estimatedFee) = Ok payResult ->
  TxComposer_deserialize lib (nth_error (payedTransactions payResult) 0) = Ok signed ->
  run (mergeUTXOs lib env utxoData estimatedFee)
  = (match locateMergedOutput lib env (outputs signed) with
     | inl e => Throw (Error ("Failed to merge UTXOs: " ++ message e)%string)
     | inr (index, amount) =>
         match nth_error (outputs signed) (Z.to_nat index) with
         | None => Throw (Error ("Failed to merge UTXOs: " ++ msgUndefinedScript)%string)
         | Some output =>
             Ok {| merged :=
                     {| utxos := [ {| txId := getTxId lib signed;
                                      outputIndex := index;
                                      script := out_script output;
                                      satoshis := amount |} ];
                        totalAmount := amount |};
                   mergeTxId := Some (getTxId lib signed);
                   mergeTxHex := Some signed |}
         end
     end,
     [CallPay (mergePayParams lib env estimatedFee)]).
Proof.
  intros Hpay Hanswer Hsigned.
  unfold mergeUTXOs. autounfold with js_run.
  rewrite Hpay. cbn [app]. rewrite Hanswer. unfold Ok at 1. cbn iota beta.
  rewrite Hsigned. unfold Ok at 1. cbn iota beta.
  destruct (locateMergedOutput lib env (outputs signed)) as [e|[index amount]];
    [reflexivity|].
  destruct (nth_error (outputs signed) (Z.to_nat index)); reflexivity.
Qed.

(** C7 (as amended).  Once the wallet has answered with a signed merge
    transaction, the consolidator walks its outputs in index order and
    returns, as the merged output, the first one whose script decodes to the
    user's address, with the index, script and amount it has there; when
    exactly one output pays the user it is that output, wherever it stands.
    When no output matches and the transaction has an output, output 0 is
    returned as the merged output instead of a failure; a transaction without
    any output makes the consolidator fail. *)
Theorem locateMergedOutput_scan (lib : MvcLib) (env : Env) (utxoData : UTXOData)
    (estimatedFee : Z) (payFn : PayParams -> Result PayResult)
    (payResult : PayResult) (signed : Transaction) :
  pay env = Some payFn ->
  payFn (mergePayParams lib env estimatedFee) = Ok payResult ->
  TxComposer_deserialize lib (nth_error (payedTransactions payResult) 0) = Ok signed ->
  let outcome := result_of (mergeUTXOs lib env utxoData estimatedFee) in
  let mergedAt (index : Z) (output : TxOutput) :=
    Ok {| merged :=
            {| utxos := [ {| txId := getTxId lib signed;
                             outputIndex := index;
                             script := out_script output;
                             satoshis := out_satoshis output |} ];
               totalAmount := out_satoshis output |};
          mergeTxId := Some (getTxId lib signed);
          mergeTxHex := Some signed |} in
  (forall pre o post,
      outputs signed = pre ++ o :: post ->
      nonePaysTo lib env pre ->
      paysTo lib env o = true ->
      outcome = mergedAt (Z.of_nat (List.length pre)) o)
  /\ (forall pre o post,
        outputs signed = pre ++ o :: post ->
        paysTo lib env o = true ->
        nonePaysTo lib env (pre ++ post) ->
        outcome = mergedAt (Z.of_nat (List.length pre)) o
        /\ nth_error (outputs signed) (List.length pre) = Some o)
  /\ (forall first rest,
        outputs signed = first :: rest ->
        nonePaysTo lib env (first :: rest) ->
        outcome = mergedAt 0 first)
  /\ (outputs signed = [] ->
      outcome
      = Throw (Error "Failed to merge UTXOs: Cannot read properties of undefined (reading 'satoshis')")).
Proof.
  intros Hpay Hanswer Hsigned. cbv zeta. unfold result_of.
  rewrite (mergeUTXOs_run lib env utxoData estimatedFee payFn payResult signed
             Hpay Hanswer Hsigned).
  cbn [fst].
  assert (Hfirst : forall pre o post,
             outputs signed = pre ++ o :: post ->
             nonePaysTo lib env pre ->
             paysTo lib env o = true ->
             match locateMergedOutput lib env (outputs signed) with
             | inl e => Throw (Error ("Failed to merge UTXOs: " ++ message e)%string)
             | inr (index, amount) =>
                 match nth_error (outputs signed) (Z.to_nat index) with
                 | None =>
                     Throw (Error ("Failed to merge UTXOs: " ++ msgUndefinedScript)%string)
                 | Some output =>
                     Ok {| merged :=
                             {| utxos := [ {| txId := getTxId lib signed;
                                              outputIndex := index;
                                              script := out_script output;
                                              satoshis := amount |} ];
                                totalAmount := amount |};
                           mergeTxId := Some (getTxId lib signed);
                           mergeTxHex := Some signed |}
                 end
             end
             = Ok {| merged :=
                       {| utxos := [ {| txId := getTxId lib signed;
                                        outputIndex := Z.of_nat (List.length pre);
                                        script := out_script o;
                                        satoshis := out_satoshis o |} ];
                          totalAmount := out_satoshis o |};
                     mergeTxId := Some (getTxId lib signed);
                     mergeTxHex := Some signed |}).
  { intros pre o post Houts Hnone Ho. rewrite Houts.
    rewrite (locateMergedOutput_first lib env pre o post Hnone Ho).
    unfold Ok at 1. cbn iota beta. now rewrite nth_error_middle. }
  split; [exact Hfirst|].
  split.
  { intros pre o post Houts Ho Hnone.
    apply Forall_app in Hnone. destruct Hnone as [Hpre _].
    split; [now apply (Hfirst pre o post)|].
    rewrite Houts. pose proof (nth_error_middle pre o post) as Hnth.
    now rewrite Nat2Z.id in Hnth. }
  split.
  { intros first rest Houts Hnone.
    rewrite Houts, (locateMergedOutput_fallback lib env first rest Hnone).
    reflexivity. }
  intros Hempty. rewrite Hempty. reflexivity.
Qed.

Lemma locateMergedOutput_scan_witness :
  result_of (mergeUTXOs Sample.lib (Sample.env 1%Q [] "no-match" Sample.okResponse)
               {| utxos := []; totalAmount := 0 |} 671)
  = Ok {| merged :=
            {| utxos := [ {| txId := "ab12";
                             outputIndex := 0;
                             script := Sample.p2pkh "1Other";
                             satoshis := 300 |} ];
               totalAmount := 300 |};
          mergeTxId := Some "ab12"%string;
          mergeTxHex := Some Sample.signedNoMatch |}
  /\ result_of (mergeUTXOs Sample.lib
                  (Sample.env 1%Q [] "declared-first" Sample.okResponse)
                  {| utxos := []; totalAmount := 0 |} 671)
     = Ok {| merged :=
               {| utxos := [ {| txId := "ab12";
                                outputIndex := 0;
                                script := Sample.p2pkh Sample.own;
                                satoshis := 671 |} ];
                  totalAmount := 671 |};
             mergeTxId := Some "ab12"%string;
             mergeTxHex := Some Sample.signedDeclaredFirst |}.
Proof.
  split.
  - destruct (locateMergedOutput_scan Sample.lib
                (Sample.env 1%Q [] "no-match" Sample.okResponse)
                {| utxos := []; totalAmount := 0 |} 671
                (fun _ => Ok {| payedTransactions := ["no-match"%string] |})
                {| payedTransactions := ["no-match"%string] |}
                Sample.signedNoMatch eq_refl eq_refl eq_refl)
      as (_ & _ & Hfallback & _).
    apply (Hfallback {| out_script := Sample.p2pkh "1Other"; out_satoshis := 300 |}
             [ {| out_script := []; out_satoshis := 5 |} ]);
      [reflexivity | repeat constructor].
  - destruct (locateMergedOutput_scan Sample.lib
                (Sample.env 1%Q [] "declared-first" Sample.okResponse)
                {| utxos := []; totalAmount := 0 |} 671
                (fun _ => Ok {| payedTransactions := ["declared-first"%string] |})
                {| payedTransactions := ["declared-first"%string] |}
                Sample.signedDeclaredFirst eq_refl eq_refl eq_refl)
      as (_ & Hunique & _).
    apply (Hunique [] {| out_script := Sample.p2pkh Sample.own; out_satoshis := 671 |}
             [ {| out_script := Sample.p2pkh "1Other"; out_satoshis := 300 |} ]);
      [reflexivity | reflexivity | repeat constructor].
Defined.

(** C7 (as stated) fails on a signed merge transaction without any output:
    no output matches, and the consolidator does not fall back on output 0,
    it fails on reading it. *)
Lemma mergeUTXOs_no_output_fails :
  let empty := {| version := 10; inputs := []; outputs := [] |} in
  let lib :=
    {| buildPublicKeyHashOut := Sample.p2pkh;
       toAddress := Sample.decode;
       TxComposer_serialize := fun _ => "composer"%string;
       TxComposer_deserialize := fun _ => Ok empty;
       getTxId := fun _ => "ab12"%string;
       Signature_fromTxFormat_toDER := fun s => Ok s |} in
  let env := Sample.env 1%Q [] "payed" Sample.okResponse in
  nonePaysTo lib env (outputs empty)
  /\ result_of (mergeUTXOs lib env {| utxos := []; totalAmount := 0 |} 671)
     = Throw (Error "Failed to merge UTXOs: Cannot read properties of undefined (reading 'satoshis')")
  /\ forall r,
       result_of (mergeUTXOs lib env {| utxos := []; totalAmount := 0 |} 671) <> Ok r.
Proof.
  cbv zeta. split; [constructor|]. split; [reflexivity|].
  intros r Hr. discriminate Hr.
Qed.

(** C4 (as amended).  When the consolidator succeeds and the signed merge
    transaction has an output paying the user's own address, the merged
    output it returns is the first such output in index order, with the
    amount that output carries in the signed transaction; this is the
    fee-estimate target when that output is the one the request declared.
    The result holds exactly this one output, [totalAmount] equal to its
    amount, the id of the merge transaction and its raw bytes; the selection
    handed to the consolidator plays no part. *)
Theorem mergeUTXOs_first_self_paying (lib : MvcLib) (env : Env) (utxoData : UTXOData)
    (estimatedFee : Z) (payFn : PayParams -> Result PayResult)
    (payResult : PayResult) (signed : Transaction)
    (pre : list TxOutput) (o : TxOutput) (post : list TxOutput) :
  pay env = Some payFn ->
  payFn (mergePayParams lib env estimatedFee) = Ok payResult ->
  TxComposer_deserialize lib (nth_error (payedTransactions payResult) 0) = Ok signed ->
  outputs signed = pre ++ o :: post ->
  nonePaysTo lib env pre ->
  paysTo lib env o = true ->
  let newUtxo :=
    {| txId := getTxId lib signed;
       outputIndex := Z.of_nat (List.length pre);
       script := out_script o;
       satoshis := out_satoshis o |} in
  result_of (mergeUTXOs lib env utxoData estimatedFee)
  = Ok {| merged := {| utxos := [newUtxo]; totalAmount := out_satoshis o |};
          mergeTxId := Some (getTxId lib signed);
          mergeTxHex := Some signed |}
  /\ outputs (mergeTx lib env estimatedFee) = [declaredOutput lib env estimatedFee]
  /\ (o = declaredOutput lib env estimatedFee -> satoshis newUtxo = estimatedFee).
Proof.
  intros Hpay Hanswer Hsigned Houts Hpre Ho. cbv zeta.
  split; [|split].
  - unfold result_of.
    rewrite (mergeUTXOs_run lib env utxoData estimatedFee payFn payResult signed
               Hpay Hanswer Hsigned).
    rewrite Houts, (locateMergedOutput_first lib env pre o post Hpre Ho).
    cbn [fst]. unfold Ok at 1. cbn iota beta.
    now rewrite nth_error_middle.
  - reflexivity.
  - intros ->. reflexivity.
Qed.

Lemma mergeUTXOs_first_self_paying_witness :
  result_of (mergeUTXOs Sample.lib (Sample.env 1%Q [] "declared-first" Sample.okResponse)
               {| utxos := []; totalAmount := 0 |} 671)
  = Ok {| merged :=
            {| utxos := [ {| txId := "ab12";
                             outputIndex := 0;
                             script := Sample.p2pkh Sample.own;
                             satoshis := 671 |} ];
               totalAmount := 671 |};
          mergeTxId := Some "ab12"%string;
          mergeTxHex := Some Sample.signedDeclaredFirst |}.
Proof.
  destruct (mergeUTXOs_first_self_paying Sample.lib
              (Sample.env 1%Q [] "declared-first" Sample.okResponse)
              {| utxos := []; totalAmount := 0 |} 671
              (fun _ => Ok {| payedTransactions := ["declared-first"%string] |})
              {| payedTransactions := ["declared-first"%string] |}
              Sample.signedDeclaredFirst
              []
              {| out_script := Sample.p2pkh Sample.own; out_satoshis := 671 |}
              [ {| out_script := Sample.p2pkh "1Other"; out_satoshis := 300 |} ]
              eq_refl eq_refl eq_refl eq_refl (Forall_nil _) eq_refl)
    as (Hres & _).
  exact Hres.
Defined.

(** C4 (as stated) fails when the wallet puts its change, which also pays
    the user, in front of the declared output: the consolidator succeeds, the
    signed transaction contains the declared output, and the merged amount is
    the change, not the target. *)
Lemma mergeUTXOs_amount_not_target :
  let env := Sample.env 1%Q [] "change-first" Sample.okResponse in
  let estimatedFee := 671 in
  exists r : MergeResult,
    result_of (mergeUTXOs Sample.lib env
                 {| utxos := [selectedUtxo Sample.lib (Sample.wu 800);
                              selectedUtxo Sample.lib (Sample.wu 700)];
                    totalAmount := 1500 |} estimatedFee) = Ok r
    /\ mergeTxHex r = Some Sample.signedChangeFirst
    /\ In (declaredOutput Sample.lib env estimatedFee) (outputs Sample.signedChangeFirst)
    /\ paysTo Sample.lib env (declaredOutput Sample.lib env estimatedFee) = true
    /\ utxos (merged r) = [ {| txId := "ab12"; outputIndex := 0;
                               script := Sample.p2pkh Sample.own; satoshis := 4000 |} ]
    /\ totalAmount (merged r) = 4000
    /\ totalAmount (merged r) <> estimatedFee.
Proof.
  cbv zeta. eexists. split; [reflexivity|].
  repeat split; try reflexivity.
  - right. left. reflexivity.
  - cbn. discriminate.
Qed.

(** ** The pipeline *)

Lemma try_catch_rethrow {A : Type} (m : M A) (log : list Call) :
  try_catch m (fun error => fun log' => (Throw error, log')) log = m log.
Proof.
  unfold try_catch, Throw. now destruct (m log) as [[e|a] log'].
Qed.

Lemma uploadFileToChainDirect_merging (lib : MvcLib) (env : Env) (file : File)
    (ws : list WalletUTXO) (selection : UTXOData) :
  getUtxos env = Ok ws ->
  result_of (getWalletUTXOs lib env (estimateUploadFee env file)) = Ok selection ->
  (1 < List.length (utxos selection))%nat ->
  run (uploadFileToChainDirect lib env file)
  = consolidatedUpload lib env file [CallGetUtxos].
Proof.
  intros Hws Hsel Hmany.
  unfold run, uploadFileToChainDirect. rewrite try_catch_rethrow.
  unfold result_of in Hsel.
  pose proof (getWalletUTXOs_run lib env (estimateUploadFee env file) ws Hws) as Hrun.
  rewrite Hrun in Hsel. cbn [fst] in Hsel. rewrite Hsel in Hrun.
  unfold run in Hrun.
  unfold bind at 1. rewrite Hrun. unfold Ok at 1. cbn iota beta.
  apply Nat.ltb_lt in Hmany. rewrite Hmany.
  unfold consolidatedUpload.
  change (mergeUTXOs lib env selection (estimateUploadFee env file))
    with (mergeUTXOs lib env {| utxos := []; totalAmount := 0 |}
            (estimateUploadFee env file)).
  unfold bind, ret.
  destruct (mergeUTXOs lib env {| utxos := []; totalAmount := 0 |}
              (estimateUploadFee env file) [CallGetUtxos]) as [[e|mergeResult] log];
    [reflexivity|].
  unfold Ok. cbn iota beta.
  destruct mergeResult as [[mergedUtxos mergedTotal] mid mhex]. cbn [merged utxos totalAmount mergeTxHex].
  destruct (buildAndSignBaseTx lib env
              {| utxos := mergedUtxos; totalAmount := mergedTotal |} log)
    as [[e|preTxHex] log']; [reflexivity|].
  destruct (directUpload env file preTxHex mergedTotal mhex log') as [[e|res] log''];
    reflexivity.
Qed.

Lemma mergeUTXOs_calls (lib : MvcLib) (env : Env) (utxoData : UTXOData)
    (estimatedFee : Z) (c : Call) :
  In c (calls_of (mergeUTXOs lib env utxoData estimatedFee)) ->
  c = CallPay (mergePayParams lib env estimatedFee).
Proof.
  unfold mergeUTXOs, throw. autounfold with js_run.
  destruct (pay env) as [payFn|]; [|intros []].
  cbn [app].
  assert (Honly : forall r : Result MergeResult,
             In c (snd (r, [CallPay (mergePayParams lib env estimatedFee)])) ->
             c = CallPay (mergePayParams lib env estimatedFee)).
  { intros r [Heq|[]]. now symmetry. }
  destruct (payFn (mergePayParams lib env estimatedFee)) as [e|payResult];
    [apply Honly|].
  destruct (TxComposer_deserialize lib (nth_error (payedTransactions payResult) 0))
    as [e|signed]; [apply Honly|].
  destruct (locateMergedOutput lib env (outputs signed)) as [e|[index amount]];
    [apply Honly|].
  destruct (nth_error (outputs signed) (Z.to_nat index)); apply Honly.
Qed.

Lemma scanOutputs_withUtxos (lib : MvcLib) (env : Env) (ws : list WalletUTXO)
    (outs : list TxOutput) :
  forall i, scanOutputs lib (withUtxos env ws) outs i = scanOutputs lib env outs i.
Proof.
  induction outs as [|o outs IH]; intros i; simpl; trivial.
  change (paysTo lib (withUtxos env ws) o) with (paysTo lib env o).
  now rewrite IH.
Qed.

Lemma mergeUTXOs_withUtxos (lib : MvcLib) (env : Env) (ws : list WalletUTXO)
    (utxoData : UTXOData) (estimatedFee : Z) (log : list Call) :
  mergeUTXOs lib (withUtxos env ws) utxoData estimatedFee log
  = mergeUTXOs lib env utxoData estimatedFee log.
Proof.
  unfold mergeUTXOs. autounfold with js_run.
  change (pay (withUtxos env ws)) with (pay env).
  destruct (pay env) as [payFn|]; [|reflexivity].
  change (mergePayParams lib (withUtxos env ws) estimatedFee)
    with (mergePayParams lib env estimatedFee).
  destruct (payFn (mergePayParams lib env estimatedFee)) as [e|payResult];
    [reflexivity|].
  destruct (TxComposer_deserialize lib (nth_error (payedTransactions payResult) 0))
    as [e|signed]; [reflexivity|].
  unfold locateMergedOutput. now rewrite scanOutputs_withUtxos.
Qed.

Lemma consolidatedUpload_withUtxos (lib : MvcLib) (env : Env) (ws : list WalletUTXO)
    (file : File) (log : list Call) :
  consolidatedUpload lib (withUtxos env ws) file log
  = consolidatedUpload lib env file log.
Proof.
  unfold consolidatedUpload, bind.
  change (estimateUploadFee (withUtxos env ws) file) with (estimateUploadFee env file).
  now rewrite mergeUTXOs_withUtxos.
Qed.

(** C10.  The consolidator never reads the selection it is given: on two
    selections, with the same estimated fee and the same wallet, it runs to
    the same result and the same calls.  Its only call is [pay], for a
    transaction that has no input and the single declared output, so the
    inputs are the wallet's choice.  In the pipeline, once the selection has
    more than one output, everything that follows works on the merged output
    and its amount: two wallets that differ only in the outputs they report
    lead to the same upload. *)
Theorem mergeUTXOs_ignores_selection (lib : MvcLib) (env : Env)
    (utxoData utxoData' : UTXOData) (estimatedFee : Z) :
  (forall log,
      mergeUTXOs lib env utxoData estimatedFee log
      = mergeUTXOs lib env utxoData' estimatedFee log)
  /\ (forall c, In c (calls_of (mergeUTXOs lib env utxoData estimatedFee)) ->
        c = CallPay (mergePayParams lib env estimatedFee))
  /\ transactions (mergePayParams lib env estimatedFee)
     = [ {| txComposer := TxComposer_serialize lib (mergeTx lib env estimatedFee);
            pay_message := "Merge UTXOs" |} ]
  /\ inputs (mergeTx lib env estimatedFee) = []
  /\ outputs (mergeTx lib env estimatedFee) = [declaredOutput lib env estimatedFee]
  /\ (forall file ws selection,
        getUtxos env = Ok ws ->
        result_of (getWalletUTXOs lib env (estimateUploadFee env file)) = Ok selection ->
        (1 < List.length (utxos selection))%nat ->
        run (uploadFileToChainDirect lib env file)
        = consolidatedUpload lib env file [CallGetUtxos])
  /\ (forall file ws ws' selection selection',
        result_of (getWalletUTXOs lib (withUtxos env ws) (estimateUploadFee env file))
        = Ok selection ->
        result_of (getWalletUTXOs lib (withUtxos env ws') (estimateUploadFee env file))
        = Ok selection' ->
        (1 < List.length (utxos selection))%nat ->
        (1 < List.length (utxos selection'))%nat ->
        run (uploadFileToChainDirect lib (withUtxos env ws) file)
        = run (uploadFileToChainDirect lib (withUtxos env ws') file)).
Proof.
  split; [reflexivity|].
  split; [apply mergeUTXOs_calls|].
  repeat (split; [reflexivity|]).
  split; [apply uploadFileToChainDirect_merging|].
  intros file ws ws' selection selection' Hsel Hsel' Hmany Hmany'.
  rewrite (uploadFileToChainDirect_merging lib (withUtxos env ws) file ws selection
             eq_refl Hsel Hmany).
  rewrite (uploadFileToChainDirect_merging lib (withUtxos env ws') file ws' selection'
             eq_refl Hsel' Hmany').
  now rewrite !consolidatedUpload_withUtxos.
Qed.

Lemma mergeUTXOs_ignores_selection_witness :
  run (uploadFileToChainDirect Sample.lib
         (withUtxos (Sample.env 1%Q [] "declared-first" Sample.okResponse)
            [Sample.wu 800; Sample.wu 700; Sample.wu 650]) (Sample.file 1000))
  = run (uploadFileToChainDirect Sample.lib
           (withUtxos (Sample.env 1%Q [] "declared-first" Sample.okResponse)
              [Sample.wu 1000; Sample.wu 900; Sample.wu 5]) (Sample.file 1000)).
Proof.
  destruct (mergeUTXOs_ignores_selection Sample.lib
              (Sample.env 1%Q [] "declared-first" Sample.okResponse)
              {| utxos := []; totalAmount := 0 |} {| utxos := []; totalAmount := 0 |} 671)
    as (_ & _ & _ & _ & _ & _ & Hsame).
  apply (Hsame (Sample.file 1000)
           [Sample.wu 800; Sample.wu 700; Sample.wu 650]
           [Sample.wu 1000; Sample.wu 900; Sample.wu 5]
           {| utxos := map (selectedUtxo Sample.lib)
                         [Sample.wu 800; Sample.wu 700; Sample.wu 650];
              totalAmount := 2150 |}
           {| utxos := map (selectedUtxo Sample.lib) [Sample.wu 1000; Sample.wu 900];
              totalAmount := 1900 |}).
  - reflexivity.
  - reflexivity.
  - simpl. lia.
  - simpl. lia.
Defined.

(** ** Upload coordinator *)

Lemma prefix_append (p s : string) : String.prefix p (p ++ s) = true.
Proof.
  induction p as [|a p IH]; simpl.
  - now destruct s.
  - destruct (ascii_dec a a) as [_|Hne]; [exact IH | now contradiction Hne].
Qed.

Lemma prefix_refl (s : string) : String.prefix s s = true.
Proof.
  induction s as [|a s IH]; simpl; trivial.
  destruct (ascii_dec a a) as [_|Hne]; [exact IH | now contradiction Hne].
Qed.

Lemma includes_append (m stage : string) : JS.includes m (stage ++ m) = true.
Proof.
  induction stage as [|a stage IH].
  - cbn [append]. destruct m as [|b m]; [reflexivity|].
    cbn [JS.includes]. now rewrite prefix_refl.
  - cbn [append JS.includes]. rewrite IH. apply orb_true_r.
Qed.

Lemma directUpload_run (env : Env) (file : File) (preTxHex : Transaction)
    (totalInputAmount : Z) (merge : option Transaction) (response : Response) :
  fetch env (uploadUrl env) (uploadForm env file preTxHex totalInputAmount merge)
  = Ok response ->
  result_of (directUpload env file preTxHex totalInputAmount merge)
  = if negb (ok response)
    then Throw (Error ("DirectUpload failed: HTTP Error: "
                       ++ JS.Number_toString (http_status response))%string)
    else match json response with
         | inl e => Throw (Error ("DirectUpload failed: " ++ message e)%string)
         | inr body =>
             if negb (code body =? 0)
             then Throw (Error ("DirectUpload failed: "
                                ++ messageOrEmpty (response_message body))%string)
             else Ok (data body)
         end.
Proof.
  intros Hfetch.
  unfold directUpload. autounfold with js_run.
  rewrite Hfetch. unfold Ok at 1. cbn iota beta.
  destruct (negb (ok response)); [reflexivity|].
  destruct (json response) as [e|body]; [reflexivity|].
  destruct (negb (code body =? 0)); reflexivity.
Qed.

(** C8 (as amended).  Whatever the finalizer answers: a non-success
    transport status is a terminal failure whose message is the HTTP status
    (the body, and any message in it, is not read); over a successful
    transport, a non-zero application code is a terminal failure whose
    message is the stage prefix followed by the server's message verbatim,
    so that [{code: 1, message: "insufficient fee"}] surfaces a failure
    carrying "insufficient fee"; and the upload succeeds, with the [data] of
    the response and its transaction id, only for a successful transport
    with code 0. *)
Theorem directUpload_outcome (env : Env) (file : File) (preTxHex : Transaction)
    (totalInputAmount : Z) (merge : option Transaction) (response : Response) :
  fetch env (uploadUrl env) (uploadForm env file preTxHex totalInputAmount merge)
  = Ok response ->
  let outcome := result_of (directUpload env file preTxHex totalInputAmount merge) in
  (ok response = false ->
   outcome = Throw (Error ("DirectUpload failed: HTTP Error: "
                           ++ JS.Number_toString (http_status response))%string))
  /\ (forall body serverMessage,
        ok response = true -> json response = Ok body -> code body <> 0 ->
        response_message body = Some serverMessage ->
        outcome = Throw (Error ("DirectUpload failed: " ++ serverMessage)%string)
        /\ JS.includes serverMessage ("DirectUpload failed: " ++ serverMessage) = true)
  /\ (forall body,
        ok response = true -> json response = Ok body -> code body = 1 ->
        response_message body = Some "insufficient fee"%string ->
        outcome = Throw (Error "DirectUpload failed: insufficient fee"))
  /\ (forall body,
        ok response = true -> json response = Ok body -> code body = 0 ->
        outcome = Ok (data body))
  /\ (forall r,
        outcome = Ok r ->
        ok response = true
        /\ exists body, json response = Ok body /\ code body = 0 /\ r = data body).
Proof.
  intros Hfetch. cbv zeta.
  rewrite (directUpload_run env file preTxHex totalInputAmount merge response Hfetch).
  split; [intros ->; reflexivity|].
  split.
  { intros body serverMessage Hok Hjson Hcode Hmsg.
    rewrite Hok, Hjson. unfold Ok. cbn [negb]. rewrite Hmsg.
    destruct (Z.eqb_spec (code body) 0); [contradiction|].
    split; [reflexivity | apply includes_append]. }
  split.
  { intros body Hok Hjson Hcode Hmsg.
    rewrite Hok, Hjson. unfold Ok. cbn [negb]. now rewrite Hcode, Hmsg. }
  split.
  { intros body Hok Hjson Hcode.
    rewrite Hok, Hjson. unfold Ok. cbn [negb]. now rewrite Hcode. }
  intros r Hr.
  destruct (ok response); [|discriminate Hr].
  split; trivial. cbn [negb] in Hr.
  destruct (json response) as [e|body]; [discriminate Hr|].
  exists body. destruct (Z.eqb_spec (code body) 0) as [Hzero|Hnz];
    [|discriminate Hr].
  cbn [negb] in Hr. injection Hr as <-. auto.
Qed.

Lemma directUpload_outcome_witness :
  result_of (directUpload
               (Sample.env 1%Q [] ""
                  (Sample.response true 200 1 (Some "insufficient fee"%string)))
               (Sample.file 3) Sample.signedDeclaredFirst 5000 None)
  = Throw (Error "DirectUpload failed: insufficient fee").
Proof.
  destruct (directUpload_outcome
              (Sample.env 1%Q [] ""
                 (Sample.response true 200 1 (Some "insufficient fee"%string)))
              (Sample.file 3) Sample.signedDeclaredFirst 5000 None
              (Sample.response true 200 1 (Some "insufficient fee"%string)) eq_refl)
    as (_ & _ & Hfee & _).
  apply (Hfee {| code := 1;
                 response_message := Some "insufficient fee"%string;
                 data := Sample.uploaded |}); reflexivity.
Defined.

(** C8 (as stated) fails on a transport failure: the finalizer answers
    status 500 with the body [{code: 1, message: "insufficient fee"}], and
    the failure carries the status, not the server's message. *)
Lemma directUpload_http_error_drops_message :
  let response := Sample.response false 500 1 (Some "insufficient fee"%string) in
  let env := Sample.env 1%Q [] "" response in
  ok response = false
  /\ json response
     = Ok {| code := 1; response_message := Some "insufficient fee"%string;
             data := Sample.uploaded |}
  /\ result_of (directUpload env (Sample.file 3) Sample.signedDeclaredFirst 5000 None)
     = Throw (Error "DirectUpload failed: HTTP Error: 500")
  /\ JS.includes "insufficient fee" "DirectUpload failed: HTTP Error: 500" = false.
Proof.
  cbv zeta. repeat split.
Qed.

(** ** Asset pointer *)

Lemma append_assoc (a b c : string) : ((a ++ b) ++ c = a ++ (b ++ c))%string.
Proof.
  induction a as [|x a IH]; simpl; [reflexivity | now rewrite IH].
Qed.

Lemma length_append (a b : string) :
  String.length (a ++ b) = (String.length a + String.length b)%nat.
Proof.
  induction a as [|x a IH]; simpl; [reflexivity | now rewrite IH].
Qed.

Lemma drop_append (a b : string) : JS.drop (String.length a) (a ++ b) = b.
Proof.
  induction a as [|x a IH]; simpl; [now destruct b | exact IH].
Qed.

Lemma splitLast_at (c : ascii) (before after : string) :
  JS.splitLast c after = None ->
  JS.splitLast c (before ++ String c after) = Some (before, after).
Proof.
  intros Hfree. induction before as [|x before IH]; simpl.
  - now rewrite Hfree, Ascii.eqb_refl.
  - now rewrite IH.
Qed.

(** Decimal numerals have no ['i']. *)
Lemma splitLast_uint (d : uint) :
  JS.splitLast "i" (NilEmpty.string_of_uint d) = None.
Proof.
  induction d; simpl; try rewrite IHd; reflexivity.
Qed.

Lemma splitLast_Number_toString (n : Z) :
  JS.splitLast "i" (JS.Number_toString n) = None.
Proof.
  unfold JS.Number_toString, NilZero.string_of_int, NilZero.string_of_uint.
  destruct (Z.to_int n) as [d|d].
  - destruct d; try reflexivity;
      (change (NilEmpty.string_of_uint ?u) with (NilEmpty.string_of_uint u);
       apply splitLast_uint).
  - simpl. destruct d; try reflexivity;
      match goal with
      | |- context [NilEmpty.string_of_uint ?u] =>
          now rewrite (splitLast_uint u)
      end.
Qed.

Lemma parseInt_Number_toString (n : Z) :
  JS.parseInt (JS.Number_toString n) = Some n.
Proof.
  unfold JS.parseInt, JS.Number_toString.
  rewrite NilZero.isi.
  - simpl. now rewrite DecimalZ.of_to.
  - destruct n; simpl; try discriminate.
    intros [= H]. now apply DecimalPos.Unsigned.to_uint_nonnil in H.
  - destruct n; simpl; try discriminate.
    intros [= H]. now apply DecimalPos.Unsigned.to_uint_nonnil in H.
Qed.

Lemma assetPointer_decode_build (scheme txId : string) (index : Z) :
  AssetPointer.decode scheme (AssetPointer.build scheme txId index) = Some (txId, index).
Proof.
  unfold AssetPointer.decode, AssetPointer.build.
  replace (scheme ++ "://" ++ txId ++ "i" ++ JS.Number_toString index)%string
    with (((scheme ++ "://") ++ txId) ++ String "i" (JS.Number_toString index))%string
    by (rewrite !append_assoc; reflexivity).
  rewrite (splitLast_at "i" _ _ (splitLast_Number_toString index)).
  unfold JS.startsWith. rewrite prefix_append, parseInt_Number_toString.
  now rewrite drop_append.
Qed.

(** C9.  Whenever [uploadFile] returns a pointer, the pipeline has returned
    a result for the compressed file of the item, and the pointer is
    [metafile://{txId}i0] for the transaction id of that result: the pointer
    of index 0 under the scheme [metafile].  Split at its last ['i'], it
    decodes to that transaction id and 0.  More generally a pointer built as
    [{scheme}://{txId}i{index}] decodes to the pair it was built from,
    whatever the transaction id and the index. *)
Theorem assetPointer_roundtrip (lib : MvcLib) (w : TreeWorld) (item : FormItem)
    (st st' : TreeState) (pinId : string) :
  uploadFile lib w item st = (Ok pinId, st') ->
  (exists blob result,
      node_blob (item_node item) = Some blob
      /\ result_of (uploadFileToChainDirect lib (envAt w (events st))
                      (compressedFile w item blob)) = Ok result
      /\ pinId = ("metafile://" ++ upload_txId result ++ "i0")%string
      /\ pinId = AssetPointer.build "metafile" (upload_txId result) 0
      /\ AssetPointer.decode "metafile" pinId = Some (upload_txId result, 0))
  /\ (forall scheme txId index,
        AssetPointer.decode scheme (AssetPointer.build scheme txId index)
        = Some (txId, index)).
Proof.
  intros Hupload. split; [|apply assetPointer_decode_build].
  unfold uploadFile in Hupload.
  destruct (node_blob (item_node item)) as [blob|]; [|discriminate Hupload].
  exists blob. unfold result_of.
  destruct (run (uploadFileToChainDirect lib (envAt w (events st))
                   (compressedFile w item blob))) as [[e|result] calls];
    [discriminate Hupload|].
  injection Hupload as <- _. exists result.
  split; [reflexivity|]. split; [reflexivity|].
  split; [reflexivity|]. split; [reflexivity|].
  change (pinIdOf result) with (AssetPointer.build "metafile" (upload_txId result) 0).
  apply assetPointer_decode_build.
Qed.

Lemma assetPointer_roundtrip_witness :
  fst (uploadFile Sample.lib SampleTree.world
         (SampleTree.blobItem "item-2" "index.html" 1) SampleTree.idle)
  = Ok "metafile://ef56i0"%string
  /\ exists txId,
       AssetPointer.decode "metafile" "metafile://ef56i0" = Some (txId, 0).
Proof.
  destruct (uploadFile Sample.lib SampleTree.world
              (SampleTree.blobItem "item-2" "index.html" 1) SampleTree.idle)
    as [uploaded st'] eqn:Hupload.
  assert (Hpin : uploaded = Ok "metafile://ef56i0"%string).
  { apply (f_equal fst) in Hupload. vm_compute in Hupload. now symmetry. }
  subst uploaded.
  destruct (assetPointer_roundtrip Sample.lib SampleTree.world _ _ _ _ Hupload)
    as [(blob & result & _ & _ & _ & _ & Hdecode) _].
  split; [reflexivity|].
  now exists (upload_txId result).
Defined.

(** * Further properties *)

(** ** Selector: order, coverage and size of the selection *)

Lemma insertDescending_ofAmount (v : Z) (a : WalletUTXO) (l : list WalletUTXO) :
  ofAmount v (insertDescending a l) = ofAmount v (a :: l).
Proof.
  unfold ofAmount. induction l as [|b l IH]; [reflexivity|].
  cbn [insertDescending].
  destruct (Z.leb_spec (value b - value a) 0) as [Hle|Hgt]; [reflexivity|].
  cbn [filter] in *. rewrite IH.
  destruct (Z.eqb_spec (value a) v) as [Ha|Ha];
    destruct (Z.eqb_spec (value b) v) as [Hb|Hb]; try reflexivity.
  lia.
Qed.

(** X1.  The sort is stable: the outputs of any one amount stand in the
    sorted list in the order in which the wallet reported them. *)
Theorem sortDescending_stable (v : Z) (l : list WalletUTXO) :
  ofAmount v (sortDescending l) = ofAmount v l.
Proof.
  induction l as [|a l IH]; [reflexivity|].
  cbn [sortDescending]. rewrite insertDescending_ofAmount.
  unfold ofAmount in *. cbn [filter]. now rewrite IH.
Qed.

Lemma sumValues_app (l l' : list WalletUTXO) :
  sumValues (l ++ l') = sumValues l + sumValues l'.
Proof.
  induction l as [|a l IH]; simpl; lia.
Qed.

Lemma sumValues_nonneg (l : list WalletUTXO) :
  Forall (fun utxo => 0 <= value utxo) l -> 0 <= sumValues l.
Proof.
  induction 1; simpl; lia.
Qed.

(** One more element of a list bounded by [top] adds at most [top]. *)
Lemma sumValues_firstn_succ (top : Z) (l : list WalletUTXO) :
  Forall (fun utxo => value utxo <= top) l ->
  Forall (fun utxo => 0 <= value utxo) l ->
  0 <= top ->
  forall k, sumValues (firstn (S k) l) <= top + sumValues (firstn k l).
Proof.
  intros Hbound Hpos Htop.
  induction Hbound as [|a l Ha Hbound IH]; intros k.
  - simpl. destruct k; simpl; lia.
  - inversion Hpos as [|? ? Hapos Hlpos]; subst.
    destruct k as [|k]; [simpl; lia|].
    specialize (IH Hlpos k).
    change (sumValues (firstn (S (S k)) (a :: l)))
      with (value a + sumValues (firstn (S k) l)).
    change (sumValues (firstn (S k) (a :: l)))
      with (value a + sumValues (firstn k l)).
    lia.
Qed.

(** Among the outputs of a list sorted descending, no [k] of them total more
    than the first [k]. *)
Lemma sumValues_taken_le (sorted : list WalletUTXO) :
  StronglySorted descending sorted ->
  Forall (fun utxo => 0 <= value utxo) sorted ->
  forall s rest,
    Permutation (s ++ rest) sorted ->
    sumValues s <= sumValues (firstn (List.length s) sorted).
Proof.
  induction 1 as [|a l Hsorted IH Hall]; intros Hpos s rest Hperm.
  - apply Permutation_sym, Permutation_nil, app_eq_nil in Hperm.
    destruct Hperm as [-> _]. simpl. lia.
  - inversion Hpos as [|? ? Ha Hlpos]; subst.
    assert (Hin : In a (s ++ rest))
      by (eapply Permutation_in; [apply Permutation_sym, Hperm | now left]).
    apply in_app_or in Hin. destruct Hin as [Hin|Hin].
    + apply in_split in Hin. destruct Hin as (s1 & s2 & ->).
      assert (Hperm' : Permutation ((s1 ++ s2) ++ rest) l).
      { apply Permutation_cons_inv with (a := a).
        eapply perm_trans; [|exact Hperm].
        rewrite <- !app_assoc. cbn [app].
        apply Permutation_middle. }
      specialize (IH Hlpos _ _ Hperm').
      rewrite length_app in *. cbn [List.length].
      rewrite Nat.add_succ_r. cbn [firstn].
      rewrite !sumValues_app in *. simpl. lia.
    + apply in_split in Hin. destruct Hin as (r1 & r2 & ->).
      assert (Hperm' : Permutation (s ++ r1 ++ r2) l).
      { apply Permutation_cons_inv with (a := a).
        eapply perm_trans; [|exact Hperm].
        rewrite app_assoc.
        eapply perm_trans; [apply Permutation_middle|].
        now rewrite <- app_assoc. }
      specialize (IH Hlpos _ _ Hperm').
      destruct s as [|x s]; [simpl; lia|].
      cbn [List.length firstn].
      assert (Hstep : sumValues (firstn (S (List.length s)) l)
                      <= value a + sumValues (firstn (List.length s) l)).
      { apply sumValues_firstn_succ; trivial. }
      cbn [List.length] in IH. simpl sumValues at 2. lia.
Qed.

Lemma sorted_survivors_nonneg (ws : list WalletUTXO) :
  Forall (fun utxo => 0 <= value utxo) (sortDescending (fillerUtxos ws)).
Proof.
  eapply Permutation_Forall; [apply Permutation_sym, sortDescending_perm|].
  eapply Forall_impl; [|apply fillerUtxos_above].
  intros w Hw. simpl in Hw. lia.
Qed.

(** X2.  The selection is as small as a covering set can be: when the
    required amount is not negative and the selector succeeds, no collection
    of surviving outputs that reaches [requiredAmount + 1] has fewer outputs
    than the selection. *)
Theorem getWalletUTXOs_fewest (lib : MvcLib) (env : Env) (requiredAmount : Z)
    (ws : list WalletUTXO) (r : UTXOData) (s : list WalletUTXO) :
  getUtxos env = Ok ws ->
  0 <= requiredAmount ->
  result_of (getWalletUTXOs lib env requiredAmount) = Ok r ->
  takenFrom s (fillerUtxos ws) ->
  requiredAmount + 1 <= sumValues s ->
  (List.length (utxos r) <= List.length s)%nat.
Proof.
  intros Hws Hreq Hr [rest Hperm] Hcover.
  rewrite (getWalletUTXOs_result lib env requiredAmount ws Hws) in Hr.
  assert (Hsurvive : fillerUtxos ws <> []).
  { intros Hnone. unfold selectorOutcome in Hr. rewrite Hnone in Hr.
    destruct ws; discriminate Hr. }
  pose proof (selectorOutcome_cases lib requiredAmount ws Hsurvive) as Hcases.
  cbv zeta in Hcases.
  destruct Hcases as [(k & Hk & Hbefore & _ & Hres)|[_ Hres]];
    rewrite Hres in Hr; [|discriminate Hr].
  injection Hr as <-. cbn [utxos].
  rewrite length_map, length_firstn.
  destruct (Nat.le_gt_cases k (List.length s)) as [Hle|Hgt]; [lia|].
  exfalso.
  assert (Hle : sumValues s
                <= sumValues (firstn (List.length s) (sortDescending (fillerUtxos ws)))).
  { apply (sumValues_taken_le _ (sortDescending_sorted _)
             (sorted_survivors_nonneg ws) s rest).
    eapply perm_trans; [exact Hperm | apply Permutation_sym, sortDescending_perm]. }
  destruct s as [|x s]; [simpl in Hcover; lia|].
  specialize (Hbefore (List.length (x :: s))). cbn [List.length] in *. lia.
Qed.

Lemma getWalletUTXOs_fewest_witness :
  (List.length (map (selectedUtxo Sample.lib) [Sample.wu 900; Sample.wu 800])
   <= List.length [Sample.wu 700; Sample.wu 650; Sample.wu 800])%nat.
Proof.
  apply (getWalletUTXOs_fewest Sample.lib
           (Sample.env 1%Q [Sample.wu 700; Sample.wu 900; Sample.wu 650; Sample.wu 800]
              "" Sample.okResponse) 1500
           [Sample.wu 700; Sample.wu 900; Sample.wu 650; Sample.wu 800]
           {| utxos := map (selectedUtxo Sample.lib) [Sample.wu 900; Sample.wu 800];
              totalAmount := 1700 |}
           [Sample.wu 700; Sample.wu 650; Sample.wu 800]).
  - reflexivity.
  - lia.
  - reflexivity.
  - exists [Sample.wu 900]. cbn. apply perm_skip.
    apply Permutation_sym.
    apply (Permutation_cons_append [Sample.wu 650; Sample.wu 800] (Sample.wu 900)).
  - vm_compute. discriminate.
Defined.

(** X3.  With at least one surviving output, the selector succeeds exactly
    when the survivors together reach [requiredAmount + 1]; in particular it
    succeeds as soon as some collection of survivors covers that bound. *)
Theorem getWalletUTXOs_succeeds_iff (lib : MvcLib) (env : Env) (requiredAmount : Z)
    (ws : list WalletUTXO) :
  getUtxos env = Ok ws ->
  fillerUtxos ws <> [] ->
  ((exists r, result_of (getWalletUTXOs lib env requiredAmount) = Ok r)
   <-> requiredAmount + 1 <= sumValues (fillerUtxos ws))
  /\ (forall s, takenFrom s (fillerUtxos ws) ->
        requiredAmount + 1 <= sumValues s ->
        exists r, result_of (getWalletUTXOs lib env requiredAmount) = Ok r).
Proof.
  intros Hws Hsurvive.
  rewrite (getWalletUTXOs_result lib env requiredAmount ws Hws).
  pose proof (selectorOutcome_cases lib requiredAmount ws Hsurvive) as Hcases.
  cbv zeta in Hcases.
  pose proof (sumValues_perm _ _ (sortDescending_perm (fillerUtxos ws))) as Hsum.
  assert (Hiff : (exists r, selectorOutcome lib requiredAmount ws = Ok r)
                 <-> requiredAmount + 1 <= sumValues (fillerUtxos ws)).
  { destruct Hcases as [(k & Hk & _ & Hreach & Hres)|[Hnever Hres]]; rewrite Hres.
    - split; [intros _ | intros _; eexists; reflexivity].
      pose proof (sumValues_firstn_le _ k (sorted_survivors_nonneg ws)). lia.
    - split; [intros [r Hr]; discriminate Hr|].
      intros Hcover. exfalso.
      specialize (Hnever (List.length (sortDescending (fillerUtxos ws)))).
      rewrite firstn_all in Hnever.
      assert (0 < List.length (sortDescending (fillerUtxos ws)))%nat.
      { rewrite (Permutation_length (sortDescending_perm (fillerUtxos ws))).
        destruct (fillerUtxos ws); [contradiction | simpl; lia]. }
      lia. }
  split; [exact Hiff|].
  intros s [rest Hperm] Hcover. apply Hiff.
  rewrite <- (sumValues_perm _ _ Hperm), sumValues_app.
  assert (0 <= sumValues rest); [|lia].
  apply sumValues_nonneg.
  assert (Hall : Forall (fun utxo => 0 <= value utxo) (s ++ rest)).
  { eapply Permutation_Forall; [apply Permutation_sym, Hperm|].
    eapply Forall_impl; [|apply fillerUtxos_above].
    intros w Hw. simpl in Hw. lia. }
  apply Forall_app in Hall. tauto.
Qed.

Lemma getWalletUTXOs_succeeds_iff_witness :
  exists r,
    result_of (getWalletUTXOs Sample.lib
                 (Sample.env 1%Q [Sample.wu 800; Sample.wu 100; Sample.wu 700]
                    "" Sample.okResponse) 1400) = Ok r.
Proof.
  destruct (getWalletUTXOs_succeeds_iff Sample.lib
              (Sample.env 1%Q [Sample.wu 800; Sample.wu 100; Sample.wu 700]
                 "" Sample.okResponse) 1400
              [Sample.wu 800; Sample.wu 100; Sample.wu 700]) as (Hiff & _).
  - reflexivity.
  - discriminate.
  - apply Hiff. vm_compute. discriminate.
Defined.

(** ** The stages of the pipeline, one by one *)

Lemma getWalletUTXOs_stage (lib : MvcLib) (env : Env) (requiredAmount : Z) :
  exists res : Result UTXOData,
    run (getWalletUTXOs lib env requiredAmount) = (res, [CallGetUtxos])
    /\ match res with
       | inl e => thrownBy "Failed to get UTXOs: " e
       | inr selection =>
           utxos selection <> []
           /\ totalAmount selection = sumSatoshis (utxos selection)
       end.
Proof.
  destruct (getUtxos env) as [e|ws] eqn:Hws.
  - exists (Throw (Error ("Failed to get UTXOs: " ++ message e)%string)).
    split; [|now exists (message e)].
    unfold getWalletUTXOs. autounfold with js_run. now rewrite Hws.
  - exists (selectorOutcome lib requiredAmount ws).
    split; [now apply getWalletUTXOs_run|].
    destruct ws as [|w ws]; [now eexists|].
    destruct (fillerUtxos (w :: ws)) as [|f fs] eqn:Hsurvivors.
    + unfold selectorOutcome. rewrite Hsurvivors. now eexists.
    + assert (Hsurvive : fillerUtxos (w :: ws) <> []) by (rewrite Hsurvivors; discriminate).
      pose proof (selectorOutcome_cases lib requiredAmount (w :: ws) Hsurvive) as Hcases.
      cbv zeta in Hcases.
      destruct Hcases as [(k & Hk & _ & _ & Hres)|[_ Hres]]; rewrite Hres.
      * unfold Ok. cbn iota beta. cbn [utxos totalAmount].
        rewrite sumSatoshis_selected. split; [|reflexivity].
        intros Hnil. apply (f_equal (@List.length UTXO)) in Hnil.
        rewrite length_map, length_firstn in Hnil. cbn [List.length] in Hnil. lia.
      * now eexists.
Qed.

Lemma mergeUTXOs_stage (lib : MvcLib) (env : Env) (utxoData : UTXOData)
    (estimatedFee : Z) (log : list Call) :
  exists (res : Result MergeResult) (log' : list Call),
    mergeUTXOs lib env utxoData estimatedFee log = (res, log')
    /\ match res with
       | inl e =>
           thrownBy "Failed to merge UTXOs: " e
           /\ (log' = log \/ log' = log ++ [CallPay (mergePayParams lib env estimatedFee)])
       | inr mergeResult =>
           log' = log ++ [CallPay (mergePayParams lib env estimatedFee)]
           /\ exists signed index output,
               mergeTxHex mergeResult = Some signed
               /\ mergeTxId mergeResult = Some (getTxId lib signed)
               /\ nth_error (outputs signed) (Z.to_nat index) = Some output
               /\ merged mergeResult
                  = {| utxos := [ {| txId := getTxId lib signed;
                                     outputIndex := index;
                                     script := out_script output;
                                     satoshis := totalAmount (merged mergeResult) |} ];
                       totalAmount := totalAmount (merged mergeResult) |}
       end.
Proof.
  unfold mergeUTXOs, throw. autounfold with js_run.
  destruct (pay env) as [payFn|].
  2:{ eexists. eexists. split; [reflexivity|]. split; [now eexists | now left]. }
  destruct (payFn (mergePayParams lib env estimatedFee)) as [e|payResult].
  { eexists. eexists. split; [reflexivity|]. split; [now eexists | now right]. }
  destruct (TxComposer_deserialize lib (nth_error (payedTransactions payResult) 0))
    as [e|signed].
  { eexists. eexists. split; [reflexivity|]. split; [now eexists | now right]. }
  destruct (locateMergedOutput lib env (outputs signed)) as [e|[index amount]].
  { eexists. eexists. split; [reflexivity|]. split; [now eexists | now right]. }
  destruct (nth_error (outputs signed) (Z.to_nat index)) as [output|] eqn:Hnth.
  - eexists. eexists. split; [reflexivity|]. split; [reflexivity|].
    exists signed, index, output. cbn. auto.
  - eexists. eexists. split; [reflexivity|]. split; [now eexists | now right].
Qed.

Lemma buildAndSignBaseTx_stage (lib : MvcLib) (env : Env) (utxo : UTXO)
    (total : Z) (log : list Call) :
  exists res : Result Transaction,
    buildAndSignBaseTx lib env {| utxos := [utxo]; totalAmount := total |} log
    = (res, log ++ [CallSignTransaction (signRequest lib env utxo)])
    /\ match res with
       | inl e => thrownBy "Failed to build/sign MVC transaction: " e
       | inr signedTx =>
           exists unlocking,
             signedTx = setScript0 (baseTx lib env utxo) unlocking
       end.
Proof.
  unfold buildAndSignBaseTx, throw. autounfold with js_run. cbn [utxos].
  destruct (signTransaction env (signRequest lib env utxo)) as [e|[signature|]].
  - eexists. split; [reflexivity | now eexists].
  - destruct (Signature_fromTxFormat_toDER lib (sig signature)) as [e|der].
    + eexists. split; [reflexivity | now eexists].
    + eexists. split; [reflexivity | now eexists].
  - eexists. split; [reflexivity | now eexists].
Qed.

Lemma directUpload_stage (env : Env) (file : File) (preTxHex : Transaction)
    (totalInputAmount : Z) (merge : option Transaction) (log : list Call) :
  exists res : Result UploadResult,
    directUpload env file preTxHex totalInputAmount merge log
    = (res, log ++ [CallFetch (uploadUrl env)
                      (uploadForm env file preTxHex totalInputAmount merge)])
    /\ match res with
       | inl e => thrownBy "DirectUpload failed: " e
       | inr _ => True
       end.
Proof.
  unfold directUpload, throw. autounfold with js_run.
  destruct (fetch env (uploadUrl env)
              (uploadForm env file preTxHex totalInputAmount merge)) as [e|response].
  - eexists. split; [reflexivity | now eexists].
  - destruct (negb (ok response)).
    + eexists. split; [reflexivity | now eexists].
    + destruct (json response) as [e|body].
      * eexists. split; [reflexivity | now eexists].
      * destruct (negb (code body =? 0)).
        -- eexists. split; [reflexivity | now eexists].
        -- eexists. split; [reflexivity | exact I].
Qed.

(** ** The pipeline as a whole *)

(** The four ways a run of the pipeline can go: the selection fails; one
    output is selected and goes straight to signing; the consolidation
    fails; the consolidation succeeds and its merged output, an output of the
    signed merge transaction, goes to signing. *)
Lemma uploadFileToChainDirect_run (lib : MvcLib) (env : Env) (file : File) :
  let payCall := CallPay (mergePayParams lib env (estimateUploadFee env file)) in
  (exists e,
      run (uploadFileToChainDirect lib env file) = (Throw e, [CallGetUtxos])
      /\ thrownBy "Failed to get UTXOs: " e)
  \/ (exists utxo,
        run (uploadFileToChainDirect lib env file)
        = signAndUpload lib env file utxo None [CallGetUtxos])
  \/ (exists e log,
        run (uploadFileToChainDirect lib env file) = (Throw e, log)
        /\ thrownBy "Failed to merge UTXOs: " e
        /\ (log = [CallGetUtxos] \/ log = [CallGetUtxos; payCall]))
  \/ (exists signed index output amount,
        nth_error (outputs signed) (Z.to_nat index) = Some output
        /\ run (uploadFileToChainDirect lib env file)
           = signAndUpload lib env file
               {| txId := getTxId lib signed;
                  outputIndex := index;
                  script := out_script output;
                  satoshis := amount |}
               (Some signed) [CallGetUtxos; payCall]).
Proof.
  cbv zeta.
  destruct (getWalletUTXOs_stage lib env (estimateUploadFee env file))
    as (res & Hrun & Hres).
  unfold run in Hrun.
  remember (run (uploadFileToChainDirect lib env file)) as outcome eqn:Hout.
  unfold run, uploadFileToChainDirect in Hout. rewrite try_catch_rethrow in Hout.
  unfold bind at 1 in Hout. rewrite Hrun in Hout.
  destruct res as [e|selection].
  { left. exists e. split; [exact Hout | exact Hres]. }
  right. destruct Hres as [Hsome Htotal].
  destruct selection as [selected total]. cbn [utxos totalAmount] in *.
  destruct selected as [|utxo [|utxo' more]]; [contradiction| |].
  - left. exists utxo. cbn [List.length Nat.ltb Nat.leb] in Hout.
    assert (Hsat : total = satoshis utxo) by (rewrite Htotal; simpl; lia).
    rewrite Hsat in Hout. rewrite Hout. unfold signAndUpload, bind, ret.
    unfold Ok. cbn iota beta. cbn [totalAmount].
    destruct (buildAndSignBaseTx lib env
                {| utxos := [utxo]; totalAmount := satoshis utxo |} [CallGetUtxos])
      as [[e|preTxHex] log]; [reflexivity|].
    destruct (directUpload env file preTxHex (satoshis utxo) None log)
      as [[e|res] log']; reflexivity.
  - right. cbn [List.length Nat.ltb Nat.leb] in Hout.
    set (selection := {| utxos := utxo :: utxo' :: more; totalAmount := total |}) in *.
    destruct (mergeUTXOs_stage lib env selection (estimateUploadFee env file)
                [CallGetUtxos]) as (res & log & Hmerge & Hshape).
    unfold bind, ret in Hout. rewrite Hmerge in Hout.
    destruct res as [e|mergeResult].
    + left. destruct Hshape as [Hthrown Hlog].
      exists e, log. split; [exact Hout|]. split; [exact Hthrown|].
      destruct Hlog as [->| ->]; [now left | now right].
    + right. destruct Hshape as (-> & signed & index & output & Hhex & _ & Hnth & Hmerged).
      exists signed, index, output, (totalAmount (merged mergeResult)).
      split; [exact Hnth|].
      unfold Ok in Hout. cbn iota beta in Hout.
      rewrite Hmerged, Hhex in Hout. cbn [utxos totalAmount app] in Hout.
      rewrite Hout. unfold signAndUpload, bind. cbn [satoshis totalAmount].
      change ([CallGetUtxos]
              ++ [CallPay (mergePayParams lib env (estimateUploadFee env file))])
        with [CallGetUtxos;
              CallPay (mergePayParams lib env (estimateUploadFee env file))].
      match goal with
      | |- context [buildAndSignBaseTx lib env ?d ?l] =>
          destruct (buildAndSignBaseTx lib env d l) as [[e|preTxHex] log]
      end; [reflexivity|].
      match goal with
      | |- context [directUpload env file preTxHex ?t ?m log] =>
          destruct (directUpload env file preTxHex t m log) as [[e|res] log']
      end; reflexivity.
Qed.

(** Signing and uploading: the signer is always asked, and the finalizer is
    contacted only with the transaction the signer's answer completes. *)
Lemma signAndUpload_run (lib : MvcLib) (env : Env) (file : File) (utxo : UTXO)
    (merge : option Transaction) (log : list Call) :
  (exists e,
      signAndUpload lib env file utxo merge log
      = (Throw e, log ++ [CallSignTransaction (signRequest lib env utxo)])
      /\ thrownBy "Failed to build/sign MVC transaction: " e)
  \/ (exists unlocking res,
        signAndUpload lib env file utxo merge log
        = (res, log ++ [CallSignTransaction (signRequest lib env utxo);
                        CallFetch (uploadUrl env)
                          (uploadForm env file
                             (setScript0 (baseTx lib env utxo) unlocking)
                             (satoshis utxo) merge)])
        /\ match res with
           | inl e => thrownBy "DirectUpload failed: " e
           | inr _ => True
           end).
Proof.
  unfold signAndUpload, bind.
  destruct (buildAndSignBaseTx_stage lib env utxo (satoshis utxo) log)
    as (res & Hbuild & Hres).
  rewrite Hbuild. destruct res as [e|signedTx].
  - left. exists e. split; [reflexivity | exact Hres].
  - right. destruct Hres as [unlocking ->].
    destruct (directUpload_stage env file (setScript0 (baseTx lib env utxo) unlocking)
                (satoshis utxo) merge
                (log ++ [CallSignTransaction (signRequest lib env utxo)]))
      as (res & Hupload & Hres).
    exists unlocking, res. rewrite Hupload, <- app_assoc. split; [reflexivity | exact Hres].
Qed.

(** X4.  Every run of the pipeline ends in one of four ways, and its calls
    come in one order: the wallet's outputs are fetched first; [pay] comes
    second, when it comes; the signer is asked next, and the finalizer last.
    A failure carries the prefix of the stage that failed.  A run that gets
    past selection and consolidation always reaches the signer: the builder
    never receives anything but a single output. *)
Theorem uploadFileToChainDirect_stages (lib : MvcLib) (env : Env) (file : File) :
  let outcome := result_of (uploadFileToChainDirect lib env file) in
  let calls := calls_of (uploadFileToChainDirect lib env file) in
  let payCall := CallPay (mergePayParams lib env (estimateUploadFee env file)) in
  (exists e,
      outcome = Throw e /\ thrownBy "Failed to get UTXOs: " e
      /\ calls = [CallGetUtxos])
  \/ (exists e,
        outcome = Throw e /\ thrownBy "Failed to merge UTXOs: " e
        /\ (calls = [CallGetUtxos] \/ calls = [CallGetUtxos; payCall]))
  \/ (exists e utxo,
        outcome = Throw e /\ thrownBy "Failed to build/sign MVC transaction: " e
        /\ (calls = [CallGetUtxos; CallSignTransaction (signRequest lib env utxo)]
            \/ calls = [CallGetUtxos; payCall;
                        CallSignTransaction (signRequest lib env utxo)]))
  \/ (exists utxo form,
        (calls = [CallGetUtxos; CallSignTransaction (signRequest lib env utxo);
                  CallFetch (uploadUrl env) form]
         \/ calls = [CallGetUtxos; payCall;
                     CallSignTransaction (signRequest lib env utxo);
                     CallFetch (uploadUrl env) form])
        /\ ((exists e, outcome = Throw e /\ thrownBy "DirectUpload failed: " e)
            \/ exists res, outcome = Ok res)).
Proof.
  cbv zeta. unfold result_of, calls_of.
  destruct (uploadFileToChainDirect_run lib env file)
    as [(e & -> & He)|[(utxo & ->)|[(e & log & -> & He & Hlog)
                                   |(signed & index & output & amount & _ & ->)]]].
  - left. exists e. auto.
  - right. right.
    destruct (signAndUpload_run lib env file utxo None [CallGetUtxos])
      as [(e & -> & He)|(unlocking & res & -> & Hres)].
    + left. exists e, utxo. cbn [fst snd app]. auto.
    + right. eexists utxo, _. cbn [fst snd app]. split; [left; reflexivity|].
      destruct res as [e|res]; [left; exists e; auto | right; now exists res].
  - right. left. exists e. cbn [fst snd]. auto.
  - right. right.
    match goal with
    | |- context [signAndUpload lib env file ?u ?m ?l] =>
        destruct (signAndUpload_run lib env file u m l)
          as [(e & -> & He)|(unlocking & res & -> & Hres)]
    end.
    + left. eexists e, _. cbn [fst snd app]. split; [reflexivity|].
      split; [exact He | right; reflexivity].
    + right. eexists _, _. cbn [fst snd app]. split; [right; reflexivity|].
      destruct res as [e|res]; [left; exists e; auto | right; now exists res].
Qed.

(** X5.  Whatever reaches the finalizer is consistent: the form is posted to
    the direct-upload endpoint; its [preTxHex] is the very transaction the
    signer was shown, with nothing but an unlocking script put on its input;
    that transaction is the version-10 transaction that spends one output
    and pays 1 satoshi to the user, and the signer was asked over the script
    and the amount of that output; [totalInputAmount] is the amount of that
    output; and the form carries [mergeTxHex] exactly when [pay] was called,
    in which case the output spent is an output of that merge
    transaction. *)
Theorem uploadFileToChainDirect_form (lib : MvcLib) (env : Env) (file : File)
    (url : string) (form : FormData) :
  let calls := calls_of (uploadFileToChainDirect lib env file) in
  In (CallFetch url form) calls ->
  url = uploadUrl env
  /\ exists request utxo unlocking,
      In (CallSignTransaction request) calls
      /\ formField "preTxHex" form
         = Some (FormTxHex (setScript0 (txHex request) unlocking))
      /\ txHex request
         = {| version := 10;
              inputs := [ {| prevTxId := txId utxo;
                             prevOutputIndex := outputIndex utxo;
                             prevScript := script utxo;
                             prevSatoshis := satoshis utxo;
                             unlockingScript := [] |} ];
              outputs := [ {| out_script := buildPublicKeyHashOut lib (user_address env);
                              out_satoshis := 1 |} ] |}
      /\ inputIndex request = 0
      /\ scriptHex request = script utxo
      /\ sign_satoshis request = satoshis utxo
      /\ formField "totalInputAmount" form
         = Some (FormString (JS.Number_toString (satoshis utxo)))
      /\ ((formField "mergeTxHex" form = None
           /\ forall p, ~ In (CallPay p) calls)
          \/ (exists signed output,
                 formField "mergeTxHex" form = Some (FormTxHex signed)
                 /\ In (CallPay (mergePayParams lib env (estimateUploadFee env file)))
                      calls
                 /\ txId utxo = getTxId lib signed
                 /\ nth_error (outputs signed) (Z.to_nat (outputIndex utxo))
                    = Some output
                 /\ script utxo = out_script output
                 /\ prevTxId_of_first (setScript0 (txHex request) unlocking)
                    = Some (getTxId lib signed))).
Proof.
  cbv zeta. unfold calls_of.
  destruct (uploadFileToChainDirect_run lib env file)
    as [(e & -> & He)|[(utxo & ->)|[(e & log & -> & He & Hlog)
                                   |(signed & index & output & amount & Hnth & ->)]]].
  - cbn [snd]. intros [Hin|[]]. discriminate Hin.
  - destruct (signAndUpload_run lib env file utxo None [CallGetUtxos])
      as [(e & -> & He)|(unlocking & res & -> & Hres)]; cbn [snd app].
    + intros [Hin|[Hin|[]]]; discriminate Hin.
    + intros [Hin|[Hin|[Hin|[]]]]; try discriminate Hin.
      injection Hin as <- <-. split; [reflexivity|].
      exists (signRequest lib env utxo), utxo, unlocking.
      split; [right; left; reflexivity|].
      repeat (split; [reflexivity|]).
      left. split; [reflexivity|].
      intros p [Hp|[Hp|[Hp|[]]]]; discriminate Hp.
  - cbn [snd]. destruct Hlog as [->| ->].
    + intros [Hin|[]]. discriminate Hin.
    + intros [Hin|[Hin|[]]]; discriminate Hin.
  - match goal with
    | |- context [signAndUpload lib env file ?u ?m ?l] =>
        destruct (signAndUpload_run lib env file u m l)
          as [(e & -> & He)|(unlocking & res & -> & Hres)]
    end; cbn [snd app].
    + intros [Hin|[Hin|[Hin|[]]]]; discriminate Hin.
    + intros [Hin|[Hin|[Hin|[Hin|[]]]]]; try discriminate Hin.
      injection Hin as <- <-. split; [reflexivity|].
      eexists (signRequest lib env _), _, unlocking.
      split; [right; right; left; reflexivity|].
      repeat (split; [reflexivity|]).
      right. exists signed, output.
      split; [reflexivity|]. split; [right; left; reflexivity|].
      cbn [txId outputIndex script]. auto.
Qed.

Lemma uploadFileToChainDirect_form_witness :
  let env := Sample.env 1%Q [Sample.wu 5000] "" Sample.okResponse in
  let utxo := selectedUtxo Sample.lib (Sample.wu 5000) in
  let preTx :=
    setScript0 (baseTx Sample.lib env utxo) [PushSignature "3044" 195; PushBytes "02aa"] in
  let form := uploadForm env (Sample.file 1000) preTx 5000 None in
  exists request unlocking,
    In (CallSignTransaction request)
       (calls_of (uploadFileToChainDirect Sample.lib env (Sample.file 1000)))
    /\ formField "preTxHex" form
       = Some (FormTxHex (setScript0 (txHex request) unlocking)).
Proof.
  cbv zeta.
  destruct (uploadFileToChainDirect_form Sample.lib
              (Sample.env 1%Q [Sample.wu 5000] "" Sample.okResponse)
              (Sample.file 1000)
              (uploadUrl (Sample.env 1%Q [Sample.wu 5000] "" Sample.okResponse))
              (uploadForm (Sample.env 1%Q [Sample.wu 5000] "" Sample.okResponse)
                 (Sample.file 1000)
                 (setScript0
                    (baseTx Sample.lib
                       (Sample.env 1%Q [Sample.wu 5000] "" Sample.okResponse)
                       (selectedUtxo Sample.lib (Sample.wu 5000)))
                    [PushSignature "3044" 195; PushBytes "02aa"])
                 5000 None))
    as (_ & request & spent & unlocking & Hasked & Hpre & _).
  - vm_compute. right. right. left. reflexivity.
  - exists request, unlocking. split; [exact Hasked | exact Hpre].
Defined.

(** ** Consolidator: the merged output is an output of the signed transaction *)

Lemma scanOutputs_found (lib : MvcLib) (env : Env) (outs : list TxOutput) :
  forall (start index amount : Z),
    scanOutputs lib env outs start = Some (index, amount) ->
    start <= index
    /\ exists output,
        nth_error outs (Z.to_nat (index - start)) = Some output
        /\ amount = out_satoshis output
        /\ paysTo lib env output = true
        /\ nonePaysTo lib env (firstn (Z.to_nat (index - start)) outs).
Proof.
  induction outs as [|o outs IH]; intros start index amount Hscan; [discriminate Hscan|].
  cbn [scanOutputs] in Hscan.
  destruct (paysTo lib env o) eqn:Ho.
  - injection Hscan as <- <-. split; [lia|].
    exists o. rewrite Z.sub_diag. cbn. repeat split; trivial. constructor.
  - apply IH in Hscan. destruct Hscan as (Hle & output & Hnth & Hamount & Hpays & Hnone).
    split; [lia|]. exists output.
    replace (Z.to_nat (index - start)) with (S (Z.to_nat (index - (start + 1)))) by lia.
    cbn [nth_error firstn]. repeat split; trivial.
    constructor; trivial.
Qed.

Lemma scanOutputs_not_found (lib : MvcLib) (env : Env) (outs : list TxOutput) :
  forall start, scanOutputs lib env outs start = None -> nonePaysTo lib env outs.
Proof.
  induction outs as [|o outs IH]; intros start Hscan; [constructor|].
  cbn [scanOutputs] in Hscan.
  destruct (paysTo lib env o) eqn:Ho; [discriminate Hscan|].
  constructor; [exact Ho | now apply (IH (start + 1))].
Qed.

Lemma locateMergedOutput_sound (lib : MvcLib) (env : Env) (outs : list TxOutput)
    (index amount : Z) :
  locateMergedOutput lib env outs = Ok (index, amount) ->
  0 <= index
  /\ exists output,
      nth_error outs (Z.to_nat index) = Some output
      /\ amount = out_satoshis output
      /\ ((paysTo lib env output = true
           /\ nonePaysTo lib env (firstn (Z.to_nat index) outs))
          \/ (index = 0 /\ nonePaysTo lib env outs)).
Proof.
  unfold locateMergedOutput. intros Hlocate.
  destruct (scanOutputs lib env outs 0) as [[i a]|] eqn:Hscan.
  - injection Hlocate as <- <-.
    apply scanOutputs_found in Hscan.
    destruct Hscan as (Hle & output & Hnth & Hamount & Hpays & Hnone).
    rewrite Z.sub_0_r in *. split; [exact Hle|].
    exists output. repeat split; trivial. now left.
  - apply scanOutputs_not_found in Hscan.
    destruct outs as [|first rest]; [discriminate Hlocate|].
    injection Hlocate as <- <-. split; [lia|].
    exists first. cbn. repeat split; trivial. now right.
Qed.

(** X6.  When the consolidator succeeds, the merged output it returns is an
    output of the signed merge transaction it returns: its index is a valid
    index of that transaction, its script and amount are those found there,
    its transaction id is the id of that transaction, and [totalAmount] is
    its amount.  That output pays the user and is the first to do so, unless
    no output pays the user, in which case it is output 0. *)
Theorem mergeUTXOs_sound (lib : MvcLib) (env : Env) (utxoData : UTXOData)
    (estimatedFee : Z) (mergeResult : MergeResult) :
  result_of (mergeUTXOs lib env utxoData estimatedFee) = Ok mergeResult ->
  exists signed output merged_utxo,
    mergeTxHex mergeResult = Some signed
    /\ mergeTxId mergeResult = Some (getTxId lib signed)
    /\ merged mergeResult
       = {| utxos := [merged_utxo]; totalAmount := out_satoshis output |}
    /\ txId merged_utxo = getTxId lib signed
    /\ 0 <= outputIndex merged_utxo
    /\ nth_error (outputs signed) (Z.to_nat (outputIndex merged_utxo)) = Some output
    /\ script merged_utxo = out_script output
    /\ satoshis merged_utxo = out_satoshis output
    /\ ((paysTo lib env output = true
         /\ nonePaysTo lib env
              (firstn (Z.to_nat (outputIndex merged_utxo)) (outputs signed)))
        \/ (outputIndex merged_utxo = 0 /\ nonePaysTo lib env (outputs signed))).
Proof.
  unfold result_of, run, mergeUTXOs, throw. autounfold with js_run.
  destruct (pay env) as [payFn|]; [|discriminate].
  destruct (payFn (mergePayParams lib env estimatedFee)) as [e|payResult];
    [discriminate|].
  destruct (TxComposer_deserialize lib (nth_error (payedTransactions payResult) 0))
    as [e|signed]; [discriminate|].
  destruct (locateMergedOutput lib env (outputs signed)) as [e|[index amount]] eqn:Hlocate;
    [discriminate|].
  apply locateMergedOutput_sound in Hlocate.
  destruct Hlocate as (Hindex & output & Hnth & -> & Hpays).
  rewrite Hnth. cbn [fst]. intros [= <-].
  exists signed, output. eexists. cbn.
  repeat split; trivial.
Qed.

Lemma mergeUTXOs_sound_witness :
  exists signed output merged_utxo,
    mergeTxHex {| merged := {| utxos := [ {| txId := "ab12"; outputIndex := 0;
                                              script := Sample.p2pkh Sample.own;
                                              satoshis := 4000 |} ];
                               totalAmount := 4000 |};
                  mergeTxId := Some "ab12"%string;
                  mergeTxHex := Some Sample.signedChangeFirst |} = Some signed
    /\ nth_error (outputs signed) (Z.to_nat (outputIndex merged_utxo)) = Some output
    /\ satoshis merged_utxo = out_satoshis output.
Proof.
  destruct (mergeUTXOs_sound Sample.lib
              (Sample.env 1%Q [] "change-first" Sample.okResponse)
              {| utxos := []; totalAmount := 0 |} 671
              {| merged := {| utxos := [ {| txId := "ab12"; outputIndex := 0;
                                            script := Sample.p2pkh Sample.own;
                                            satoshis := 4000 |} ];
                              totalAmount := 4000 |};
                 mergeTxId := Some "ab12"%string;
                 mergeTxHex := Some Sample.signedChangeFirst |} eq_refl)
    as (signed & output & merged_utxo & Hhex & _ & _ & _ & _ & Hnth & _ & Hsat & _).
  exists signed, output, merged_utxo. auto.
Defined.

(** ** Builder: nothing is returned that the signer did not sign *)

(** X7.  The builder returns a transaction only when it was given exactly one
    output, the signer answered the request over that output with a
    signature, and that signature decoded; the transaction returned is the
    one the signer was shown, changed in nothing but the unlocking script of
    its input, which is built from the signer's answer. *)
Theorem buildAndSignBaseTx_only_signed (lib : MvcLib) (env : Env)
    (utxoData : UTXOData) (signedTx : Transaction) :
  result_of (buildAndSignBaseTx lib env utxoData) = Ok signedTx ->
  exists utxo signature der,
    utxos utxoData = [utxo]
    /\ signTransaction env (signRequest lib env utxo) = Ok (Some signature)
    /\ Signature_fromTxFormat_toDER lib (sig signature) = Ok der
    /\ signedTx
       = setScript0 (txHex (signRequest lib env utxo))
           (buildPublicKeyHashIn (publicKey signature) der SIGHASH_SINGLE_ANYONECANPAY)
    /\ version signedTx = version (txHex (signRequest lib env utxo))
    /\ outputs signedTx = outputs (txHex (signRequest lib env utxo))
    /\ map (fun input => (prevTxId input, prevOutputIndex input, prevSatoshis input))
         (inputs signedTx)
       = [(txId utxo, outputIndex utxo, satoshis utxo)]
    /\ scriptHex (signRequest lib env utxo) = script utxo
    /\ sign_satoshis (signRequest lib env utxo) = satoshis utxo.
Proof.
  unfold result_of, run, buildAndSignBaseTx, throw. autounfold with js_run.
  destruct (utxos utxoData) as [|utxo [|utxo' more]]; try discriminate.
  cbn [app].
  destruct (signTransaction env (signRequest lib env utxo)) as [e|[signature|]] eqn:Hsign;
    try discriminate.
  destruct (Signature_fromTxFormat_toDER lib (sig signature)) as [e|der] eqn:Hder;
    [discriminate|].
  cbn [fst]. intros [= <-].
  exists utxo, signature, der. repeat split; trivial.
Qed.

Lemma buildAndSignBaseTx_only_signed_witness :
  exists utxo signature der,
    [selectedUtxo Sample.lib (Sample.wu 5000)] = [utxo]
    /\ signTransaction (Sample.env 1%Q [] "" Sample.okResponse)
         (signRequest Sample.lib (Sample.env 1%Q [] "" Sample.okResponse) utxo)
       = Ok (Some signature)
    /\ Signature_fromTxFormat_toDER Sample.lib (sig signature) = Ok der.
Proof.
  destruct (buildAndSignBaseTx_only_signed Sample.lib
              (Sample.env 1%Q [] "" Sample.okResponse)
              {| utxos := [selectedUtxo Sample.lib (Sample.wu 5000)];
                 totalAmount := 5000 |}
              (setScript0
                 (baseTx Sample.lib (Sample.env 1%Q [] "" Sample.okResponse)
                    (selectedUtxo Sample.lib (Sample.wu 5000)))
                 [PushSignature "3044" 195; PushBytes "02aa"]) eq_refl)
    as (utxo & signature & der & Hone & Hsign & Hder & _).
  exists utxo, signature, der. auto.
Defined.

(** ** Coordinator: the content type sent is flagged binary, once *)

Lemma includes_nonempty (p s : string) :
  p <> ""%string -> JS.includes p s = true -> s <> ""%string.
Proof.
  intros Hp Hinc ->. destruct p as [|a p]; [now apply Hp | discriminate Hinc].
Qed.

(** X8.  The content type put in the form always contains [;binary]: a type
    that already contains it is sent as it is, any other type gets [;binary]
    appended, the missing type being [application/octet-stream]; so the
    normalisation changes nothing when applied to its own result. *)
Theorem binaryContentType_flagged (env : Env) (file : File) (preTxHex : Transaction)
    (totalInputAmount : Z) (merge : option Transaction) :
  formField "contentType" (uploadForm env file preTxHex totalInputAmount merge)
  = Some (FormString (binaryContentType file))
  /\ JS.includes ";binary" (binaryContentType file) = true
  /\ (JS.includes ";binary" (file_type file) = true ->
      binaryContentType file = file_type file)
  /\ (JS.includes ";binary" (file_type file) = false ->
      binaryContentType file
      = (JS.orDefaultStr (file_type file) "application/octet-stream" ++ ";binary")%string)
  /\ binaryContentType
       {| file_name := file_name file;
          file_type := binaryContentType file;
          file_size := file_size file |}
     = binaryContentType file.
Proof.
  assert (Hkeep : forall f,
             JS.includes ";binary" (file_type f) = true ->
             binaryContentType f = file_type f).
  { intros f Hinc. unfold binaryContentType.
    assert (Hne : file_type f <> ""%string)
      by (apply (includes_nonempty ";binary"); [discriminate | exact Hinc]).
    destruct (file_type f) as [|a t] eqn:Htype; [contradiction|].
    cbn [JS.orDefaultStr]. now rewrite Hinc. }
  assert (Hflag : forall f, JS.includes ";binary" (binaryContentType f) = true).
  { intros f. unfold binaryContentType.
    destruct (JS.includes ";binary"
                (JS.orDefaultStr (file_type f) "application/octet-stream")) eqn:Hinc;
      [exact Hinc | apply includes_append]. }
  split; [destruct merge; reflexivity|].
  split; [apply Hflag|].
  split; [apply Hkeep|].
  split.
  - intros Hinc. unfold binaryContentType.
    destruct (file_type file) as [|a t] eqn:Htype; [reflexivity|].
    cbn [JS.orDefaultStr]. now rewrite Hinc.
  - apply (Hkeep {| file_name := file_name file;
                   file_type := binaryContentType file;
                   file_size := file_size file |}).
    apply Hflag.
Qed.

Lemma binaryContentType_flagged_witness :
  binaryContentType {| file_name := "a.gz"; file_type := "application/gzip";
                       file_size := 10 |}
  = "application/gzip;binary"%string
  /\ binaryContentType {| file_name := "a.gz"; file_type := "application/gzip;binary";
                          file_size := 10 |}
     = "application/gzip;binary"%string.
Proof.
  destruct (binaryContentType_flagged (Sample.env 1%Q [] "" Sample.okResponse)
              {| file_name := "a.gz"; file_type := "application/gzip"; file_size := 10 |}
              Sample.signedDeclaredFirst 0 None) as (_ & _ & _ & Happend & _).
  destruct (binaryContentType_flagged (Sample.env 1%Q [] "" Sample.okResponse)
              {| file_name := "a.gz"; file_type := "application/gzip;binary";
                 file_size := 10 |}
              Sample.signedDeclaredFirst 0 None) as (_ & _ & Hkeep & _).
  split.
  - rewrite Happend; reflexivity.
  - rewrite Hkeep; reflexivity.
Defined.

(** ** Estimator: how far the fee is from the exact product *)

(** X9.  For a file size and a reported rate that are not negative, and
    while the product [P] of the estimated size and the rate charged stays
    within 2^48, the estimated fee is at least 1.2 times [P - 1] and less
    than 1.2 times [P] plus 2.2: the rounding of the products can take the
    fee below 1.2 times [P], but by less than 1.2 satoshis.  The fee is at
    least 2 satoshis, so that the amount asked of the selector is
    positive. *)
Theorem estimateUploadFee_bounds (env : Env) (file : File) :
  0 <= file_size file ->
  (0 <= mvcFeeRate env)%Q ->
  let exact :=
    (inject_Z (estimatedTxSize (file_size file))
     * JS.orDefault (chainStore_mvcFeeRate env) 1)%Q in
  (exact <= inject_Z (2 ^ 48))%Q ->
  ((exact - 1) * (12 # 10) <= inject_Z (estimateUploadFee env file))%Q
  /\ (inject_Z (estimateUploadFee env file) < exact * (12 # 10) + (22 # 10))%Q
  /\ 2 <= estimateUploadFee env file.
Proof.
  intros Hsize Hrate. cbv zeta. intros Hrange. unfold estimateUploadFee.
  pose proof (feeRate_pos env Hrate) as Hr.
  pose proof (feeRate_least env Hrate) as Hleast.
  set (r := JS.orDefault (chainStore_mvcFeeRate env) 1) in *.
  pose proof (estimatedTxSize_nonneg _ Hsize) as Hest.
  set (size := inject_Z (estimatedTxSize (file_size file))) in *.
  assert (Hr0 : (0 <= r)%Q) by lra.
  pose proof (estimatedFee_near size r Hest Hr0 Hrange) as [Hlow Hup].
  pose proof (estimatedFee_range _ (Qmult_le_0_compat _ _ Hest Hr0) Hrange) as Hbase.
  fold (JS.mul size r) in Hbase.
  rewrite (margin_exact _ Hbase).
  pose proof (Qle_ceiling (size * r)) as Hc.
  pose proof (Qceiling_lt (size * r)) as Hc'.
  rewrite inject_Z_minus in Hc'. change (inject_Z 1) with 1%Q in Hc'.
  set (c := Qceiling (size * r)) in *.
  set (base := JS.Math_ceil (JS.mul size r)) in *.
  pose proof (Math_ceil_upper (inject_Z base * (12 # 10))) as Hup2.
  pose proof (Math_ceil_lower (inject_Z base * (12 # 10))) as Hlow2.
  unfold JS.Math_ceil in Hup2, Hlow2.
  assert (Hb1 : (inject_Z c - 1 <= inject_Z base)%Q).
  { rewrite <- (inject_Z_minus c 1), <- Zle_Qle. lia. }
  assert (Hb2 : (inject_Z base <= inject_Z c)%Q) by (rewrite <- Zle_Qle; lia).
  split; [lra|]. split; [lra|].
  assert (Hsizepos : (1 <= size)%Q).
  { unfold size. change 1%Q with (inject_Z 1). rewrite <- Zle_Qle.
    rewrite estimatedTxSize_eq. unfold FeeSpec.metadataOverhead. lia. }
  assert (Hprod : (2 ^ (-1074) <= size * r)%Q).
  { apply Qle_trans with (y := (1 * r)%Q); [lra|].
    apply Qmult_le_compat_r; lra. }
  assert (Hpositive : (0 < JS.double (size * r))%Q).
  { eapply Qlt_le_trans; [|apply double_le; [|exact Hprod]].
    - pose proof (double_fixed 1 (-1074) ltac:(lia) ltac:(lia)) as Hfixed.
      assert (Hsame : (JS.double (2 ^ (-1074)) == 2 ^ (-1074))%Q).
      { apply Qeq_trans with (JS.double (inject_Z 1 * 2 ^ (-1074))).
        - apply double_comp; [apply Qlt_le_weak, pow2_pos|].
          symmetry. apply Qmult_1_l.
        - apply Qeq_trans with (inject_Z 1 * 2 ^ (-1074))%Q; [exact Hfixed|].
          apply Qmult_1_l. }
      apply Qlt_le_trans with (2 ^ (-1074))%Q; [apply pow2_pos|].
      apply Qle_lteq. right. now symmetry.
    - apply Qlt_le_weak, pow2_pos. }
  assert (Hone : 1 <= base).
  { assert (0 < base); [|lia].
    rewrite Zlt_Qlt. change (inject_Z 0) with 0%Q.
    pose proof (Math_ceil_upper (JS.mul size r)) as Hceil.
    unfold JS.mul in Hceil at 1. fold base in Hceil. lra. }
  change 2 with (Qceiling (12 # 10)). apply Qceiling_resp_le.
  rewrite Zle_Qle in Hone. change (inject_Z 1) with 1%Q in Hone. lra.
Qed.

Lemma estimateUploadFee_bounds_witness :
  2 <= estimateUploadFee (Sample.env (1 # 1000)%Q [] "" Sample.okResponse) (Sample.file 0).
Proof.
  destruct (estimateUploadFee_bounds
              (Sample.env (1 # 1000)%Q [] "" Sample.okResponse) (Sample.file 0))
    as (_ & _ & Hmin).
  - simpl. lia.
  - simpl. discriminate.
  - vm_compute. discriminate.
  - exact Hmin.
Defined.

(** ** Selector: no outpoint is selected twice *)

Lemma outpoints_prefix (k : nat) (ws : list WalletUTXO) :
  NoDup (map walletOutpoint ws) -> NoDup (map walletOutpoint (firstn k ws)).
Proof.
  revert k. induction ws as [|w ws IH]; intros k Hdistinct.
  - destruct k; constructor.
  - destruct k as [|k]; [constructor|].
    apply NoDup_cons_iff in Hdistinct. destruct Hdistinct as [Hfresh Hrest].
    cbn [firstn map]. apply NoDup_cons_iff. split; [|now apply IH].
    intros Hin. apply Hfresh.
    apply in_map_iff in Hin. destruct Hin as (w' & Hsame & Hw').
    rewrite <- Hsame. apply in_map. now apply In_firstn_In in Hw'.
Qed.

Lemma outpoints_survivors (ws : list WalletUTXO) :
  NoDup (map walletOutpoint ws) -> NoDup (map walletOutpoint (fillerUtxos ws)).
Proof.
  unfold fillerUtxos.
  induction ws as [|w ws IH]; intros Hdistinct; [constructor|].
  apply NoDup_cons_iff in Hdistinct. destruct Hdistinct as [Hfresh Hrest].
  cbn [filter]. destruct (filler <? value w); [|now apply IH].
  cbn [map]. apply NoDup_cons_iff. split; [|now apply IH].
  intros Hin. apply Hfresh.
  apply in_map_iff in Hin. destruct Hin as (w' & Hsame & Hw').
  rewrite <- Hsame. apply in_map. apply filter_In in Hw'. tauto.
Qed.

(** X10.  When the outputs the wallet reports have distinct outpoints, so do
    the outputs selected: no outpoint is put among the inputs twice, and each
    selected outpoint is one the wallet reported. *)
Theorem getWalletUTXOs_distinct (lib : MvcLib) (env : Env) (requiredAmount : Z)
    (ws : list WalletUTXO) (r : UTXOData) :
  getUtxos env = Ok ws ->
  NoDup (map walletOutpoint ws) ->
  result_of (getWalletUTXOs lib env requiredAmount) = Ok r ->
  NoDup (map outpoint (utxos r))
  /\ incl (map outpoint (utxos r)) (map walletOutpoint ws).
Proof.
  intros Hws Hnd Hr.
  rewrite (getWalletUTXOs_result lib env requiredAmount ws Hws) in Hr.
  assert (Hsurvive : fillerUtxos ws <> []).
  { intros Hnone. unfold selectorOutcome in Hr. rewrite Hnone in Hr.
    destruct ws; discriminate Hr. }
  pose proof (selectorOutcome_cases lib requiredAmount ws Hsurvive) as Hcases.
  cbv zeta in Hcases.
  destruct Hcases as [(k & _ & _ & _ & Hres)|[_ Hres]];
    rewrite Hres in Hr; [|discriminate Hr].
  injection Hr as <-. cbn [utxos]. rewrite map_map.
  change (fun x => outpoint (selectedUtxo lib x)) with walletOutpoint.
  split.
  - apply outpoints_prefix.
    eapply Permutation_NoDup.
    + apply Permutation_map, Permutation_sym, sortDescending_perm.
    + now apply outpoints_survivors.
  - intros o Hin. apply in_map_iff in Hin. destruct Hin as (w & <- & Hw).
    apply in_map. apply In_firstn_In in Hw.
    apply (Permutation_in _ (sortDescending_perm (fillerUtxos ws))) in Hw.
    apply filter_In in Hw. tauto.
Qed.

Lemma getWalletUTXOs_distinct_witness :
  NoDup (map outpoint
           [ {| txId := "aa"; outputIndex := 1;
                script := Sample.p2pkh Sample.own; satoshis := 900 |};
             {| txId := "aa"; outputIndex := 0;
                script := Sample.p2pkh Sample.own; satoshis := 800 |} ]).
Proof.
  destruct (getWalletUTXOs_distinct Sample.lib
              (Sample.env 1%Q
                 [ {| txid := "aa"; outIndex := 0; address := Sample.own; value := 800 |};
                   {| txid := "aa"; outIndex := 1; address := Sample.own; value := 900 |} ]
                 "" Sample.okResponse) 1000
              [ {| txid := "aa"; outIndex := 0; address := Sample.own; value := 800 |};
                {| txid := "aa"; outIndex := 1; address := Sample.own; value := 900 |} ]
              {| utxos := [ {| txId := "aa"; outputIndex := 1;
                               script := Sample.p2pkh Sample.own; satoshis := 900 |};
                            {| txId := "aa"; outputIndex := 0;
                               script := Sample.p2pkh Sample.own; satoshis := 800 |} ];
                 totalAmount := 1700 |}) as (Hnd & _).
  - reflexivity.
  - cbn. constructor.
    + intros [Hin|[]]. discriminate Hin.
    + constructor; [intros [] | constructor].
  - reflexivity.
  - exact Hnd.
Defined.

(** ** The form: filtering the tree *)

Lemma filterSystemFiles_eq (name path : string) (type : NodeType) (size : option Z)
    (children : option (list FileTreeNode)) (blobUrl : option string)
    (blob : option Blob) :
  filterSystemFiles (mkFileTreeNode name path type size children blobUrl blob)
  = if isSystemNode name type then None
    else match type, children with
         | NodeDirectory, Some cs =>
             Some (mkFileTreeNode name path type size
                     (nonEmptyOrUndefined (mapNotNull filterSystemFiles cs))
                     blobUrl blob)
         | _, _ => Some (mkFileTreeNode name path type size children blobUrl blob)
         end.
Proof.
  unfold isSystemNode. cbn [filterSystemFiles].
  destruct (String.eqb name "__MACOSX"), (String.eqb name ".DS_Store"), type, children;
    reflexivity.
Qed.

Lemma mapNotNull_filtered (cs : list FileTreeNode) :
  Forall (fun c => forall c',
            filterSystemFiles c = Some c' ->
            freeOfSystemFiles c' = true /\ filterSystemFiles c' = Some c') cs ->
  forallb freeOfSystemFiles (mapNotNull filterSystemFiles cs) = true
  /\ mapNotNull filterSystemFiles (mapNotNull filterSystemFiles cs)
     = mapNotNull filterSystemFiles cs.
Proof.
  induction 1 as [|c cs Hc Hcs [IHfree IHsame]]; [now split|].
  cbn [mapNotNull].
  destruct (filterSystemFiles c) as [c'|] eqn:Hfilter; [|now split].
  destruct (Hc c' eq_refl) as [Hfree Hsame].
  cbn [forallb mapNotNull]. rewrite Hfree, Hsame, IHfree, IHsame. now split.
Qed.

(** X11.  Filtering drops a node exactly when it is a [__MACOSX] directory or
    a [.DS_Store] file.  A node that is kept keeps its name, path, type, size
    and blob; no system file is left in it, at any depth below directories;
    and filtering it again gives it back unchanged. *)
Theorem filterSystemFiles_clean (n : FileTreeNode) :
  (filterSystemFiles n = None <-> isSystemNode (node_name n) (node_type n) = true)
  /\ forall n',
      filterSystemFiles n = Some n' ->
      node_name n' = node_name n /\ node_path n' = node_path n
      /\ node_type n' = node_type n /\ node_size n' = node_size n
      /\ node_blob n' = node_blob n
      /\ freeOfSystemFiles n' = true
      /\ filterSystemFiles n' = Some n'.
Proof.
  split.
  - destruct n as [name path type size children blobUrl blob].
    rewrite filterSystemFiles_eq. cbn [node_name node_type].
    destruct (isSystemNode name type); [tauto|].
    split; [|discriminate]. destruct type, children; discriminate.
  - induction n as [name path type size children blobUrl blob IH]
      using FileTreeNode_induction.
    intros n'. rewrite filterSystemFiles_eq.
    destruct (isSystemNode name type) eqn:Hsystem; [discriminate|].
    assert (Hself : forall cs,
               match type, cs with
               | NodeDirectory, Some _ => False
               | _, _ => True
               end ->
               freeOfSystemFiles (mkFileTreeNode name path type size cs blobUrl blob) = true
               /\ filterSystemFiles (mkFileTreeNode name path type size cs blobUrl blob)
                  = Some (mkFileTreeNode name path type size cs blobUrl blob)).
    { intros cs Hshape. rewrite filterSystemFiles_eq. cbn [freeOfSystemFiles].
      rewrite Hsystem. destruct type, cs; try contradiction; now split. }
    destruct type; [|destruct children as [cs|]].
    + intros [= <-]. cbn [node_name node_path node_type node_size node_blob].
      repeat (split; [reflexivity|]). now apply Hself.
    + intros [= <-]. cbn [node_name node_path node_type node_size node_blob].
      repeat (split; [reflexivity|]).
      assert (Hcs : Forall (fun c => forall c',
                              filterSystemFiles c = Some c' ->
                              freeOfSystemFiles c' = true
                              /\ filterSystemFiles c' = Some c') cs).
      { eapply Forall_impl; [|exact IH].
        intros c Hc c' Hfilter. specialize (Hc c' Hfilter). tauto. }
      destruct (mapNotNull_filtered cs Hcs) as [Hfree Hsame].
      rewrite filterSystemFiles_eq. cbn [freeOfSystemFiles]. rewrite Hsystem.
      destruct (mapNotNull filterSystemFiles cs) as [|f fs] eqn:Hfiltered.
      * now split.
      * cbn [nonEmptyOrUndefined negb andb]. rewrite Hfree, Hsame. now split.
    + intros [= <-]. cbn [node_name node_path node_type node_size node_blob].
      repeat (split; [reflexivity|]). now apply Hself.
Qed.

Lemma filterSystemFiles_clean_witness :
  filterSystemFiles SampleTree.site
  = Some (SampleTree.dir "site" "/"
            [ SampleTree.leaf "index.html" "/index.html";
              SampleTree.dir "css" "/css"
                [ SampleTree.leaf "a.css" "/css/a.css";
                  SampleTree.dir "deep" "/css/deep"
                    [SampleTree.leaf "b.css" "/css/deep/b.css"] ] ])
  /\ freeOfSystemFiles
       (SampleTree.dir "site" "/"
          [ SampleTree.leaf "index.html" "/index.html";
            SampleTree.dir "css" "/css"
              [ SampleTree.leaf "a.css" "/css/a.css";
                SampleTree.dir "deep" "/css/deep"
                  [SampleTree.leaf "b.css" "/css/deep/b.css"] ] ]) = true.
Proof.
  split; [reflexivity|].
  destruct (filterSystemFiles_clean SampleTree.site) as [_ Hkept].
  destruct (Hkept _ eq_refl) as (_ & _ & _ & _ & _ & Hfree & _).
  exact Hfree.
Defined.

(** ** The form: converting the tree *)

Lemma convertNodeToFormItem_eq (name path : string) (type : NodeType)
    (size : option Z) (children : option (list FileTreeNode))
    (blobUrl : option string) (blob : option Blob)
    (level : Z) (parentPath : string) (c : Z) :
  convertNodeToFormItem (mkFileTreeNode name path type size children blobUrl blob)
    level parentPath c
  = if isSystemNode name type then (None, c)
    else
      let '(filteredChildren, c') :=
        match children with
        | Some (child :: others) => convertChildren level path (child :: others) (c + 1)
        | _ => ([], c + 1)
        end in
      (Some (mkFormItem (itemId (c + 1)) name path
               (match type with NodeFile => ItemBlob | NodeDirectory => ItemTree end)
               size level (level <? 2) false
               (nonEmptyOrUndefined filteredChildren)
               (mkFileTreeNode name path type size children blobUrl blob) None),
       c').
Proof.
  unfold isSystemNode. cbn [convertNodeToFormItem].
  destruct (String.eqb name "__MACOSX"), (String.eqb name ".DS_Store"), type;
    cbn [andb orb isDirectory isFile]; reflexivity.
Qed.

Lemma map_seq_from (f : nat -> string) (n a m : nat) :
  map f (seq (a + n) m) = map (fun k => f (k + n)%nat) (seq a m).
Proof.
  revert a. induction m as [|m IH]; intros a; [reflexivity|].
  cbn [seq map]. f_equal. apply (IH (S a)).
Qed.

Lemma idsAfter_app (c : Z) (n m : nat) :
  idsAfter c (n + m) = idsAfter c n ++ idsAfter (c + Z.of_nat n) m.
Proof.
  unfold idsAfter. rewrite seq_app, map_app. f_equal.
  rewrite map_seq_from. apply map_ext. intros k. f_equal. lia.
Qed.

Lemma saveAllItems_made (id name path : string) (type : ItemType) (size : option Z)
    (level : Z) (expanded editable : bool) (items : list FormItem)
    (node : FileTreeNode) (pinId : option string) :
  saveAllItems (mkFormItem id name path type size level expanded editable
                  (nonEmptyOrUndefined items) node pinId)
  = mkFormItem id name path type size level expanded editable
      (nonEmptyOrUndefined items) node pinId
    :: flat_map saveAllItems items.
Proof.
  destruct items; reflexivity.
Qed.

Lemma convertChildren_spec (cs : list FileTreeNode) :
  Forall converted cs ->
  forall level path c,
  exists items,
    convertChildren level path cs c
    = (items, c + Z.of_nat (List.length (flat_map saveAllItems items)))
    /\ allMadeAt (level + 1) items
    /\ map item_id (flat_map saveAllItems items)
       = idsAfter c (List.length (flat_map saveAllItems items)).
Proof.
  induction 1 as [|n cs Hn Hcs IH]; intros level path c.
  - exists []. cbn. rewrite Z.add_0_r. auto.
  - cbn [convertChildren].
    destruct (Hn (level + 1) path c) as [[_ Hskip]|(item & Hitem & _ & Hmade & Hids)].
    + rewrite Hskip. destruct (IH level path c) as (items & Hrest & Hall & Hrids).
      fold (convertChildren level path). rewrite Hrest. now exists items.
    + rewrite Hitem.
      destruct (IH level path (c + Z.of_nat (List.length (saveAllItems item))))
        as (items & Hrest & Hall & Hrids).
      fold (convertChildren level path). rewrite Hrest.
      exists (item :: items). cbn [flat_map allMadeAt].
      rewrite length_app, map_app, idsAfter_app, Hids, Hrids.
      split; [f_equal; lia|]. split; [now split | reflexivity].
Qed.

Lemma convertNodeToFormItem_spec (n : FileTreeNode) : converted n.
Proof.
  induction n as [name path type size children blobUrl blob IH]
    using FileTreeNode_induction.
  intros level parentPath c. rewrite convertNodeToFormItem_eq.
  cbn [node_name node_type].
  destruct (isSystemNode name type) eqn:Hsystem; [left; now split|].
  right.
  assert (Hchildren :
            exists items,
              match children with
              | Some (child :: others) =>
                  convertChildren level path (child :: others) (c + 1)
              | _ => ([], c + 1)
              end
              = (items, c + 1 + Z.of_nat (List.length (flat_map saveAllItems items)))
              /\ allMadeAt (level + 1) items
              /\ map item_id (flat_map saveAllItems items)
                 = idsAfter (c + 1) (List.length (flat_map saveAllItems items))).
  { destruct children as [[|child others]|].
    - exists []. cbn. rewrite Z.add_0_r. auto.
    - apply convertChildren_spec. exact IH.
    - exists []. cbn. rewrite Z.add_0_r. auto. }
  destruct Hchildren as (items & -> & Hall & Hids).
  eexists. rewrite saveAllItems_made. cbn [List.length map item_id item_node].
  split; [f_equal; lia|]. split; [reflexivity|]. split.
  - cbn [madeAt node_name node_path node_size node_type].
    repeat (split; [first [reflexivity | exact Hsystem]|]).
    destruct items as [|i items]; [exact I|].
    cbn [nonEmptyOrUndefined]. split; [discriminate | exact Hall].
  - rewrite Hids.
    change (S (List.length (flat_map saveAllItems items)))
      with (1 + List.length (flat_map saveAllItems items))%nat.
    rewrite idsAfter_app. reflexivity.
Qed.

Lemma itemId_inj (a b : Z) : itemId a = itemId b -> a = b.
Proof.
  unfold itemId. intros Heq. cbn in Heq. injection Heq as Heq.
  apply (f_equal JS.parseInt) in Heq.
  rewrite !parseInt_Number_toString in Heq. now injection Heq.
Qed.

Lemma idsAfter_NoDup (c : Z) (n : nat) : NoDup (idsAfter c n).
Proof.
  unfold idsAfter. generalize 1%nat as start. induction n as [|n IH]; intros start.
  - constructor.
  - cbn [seq map]. constructor; [|apply IH].
    intros Hin. apply in_map_iff in Hin. destruct Hin as (k & Hk & Hin).
    apply itemId_inj in Hk. apply in_seq in Hin. lia.
Qed.

(** X12.  The ids given by a conversion are fresh and follow the counter: the
    item and the items below it receive, in the order of [saveAllItems], the
    ids that follow the value the counter had; the counter ends advanced by
    the number of items made, and no two items share an id.  A system node
    makes no item and leaves the counter as it was, and only a system node
    makes no item. *)
Theorem convertNodeToFormItem_ids (n : FileTreeNode) (level : Z) (parentPath : string)
    (c : Z) :
  (isSystemNode (node_name n) (node_type n) = true ->
   convertNodeToFormItem n level parentPath c = (None, c))
  /\ (forall c', convertNodeToFormItem n level parentPath c = (None, c') ->
        c' = c /\ isSystemNode (node_name n) (node_type n) = true)
  /\ (forall item c',
        convertNodeToFormItem n level parentPath c = (Some item, c') ->
        c' = c + Z.of_nat (List.length (saveAllItems item))
        /\ map item_id (saveAllItems item)
           = idsAfter c (List.length (saveAllItems item))
        /\ item_id item = itemId (c + 1)
        /\ NoDup (map item_id (saveAllItems item))).
Proof.
  split.
  { intros Hsystem. destruct n as [name path type size children blobUrl blob].
    cbn [node_name node_type] in Hsystem.
    now rewrite convertNodeToFormItem_eq, Hsystem. }
  destruct (convertNodeToFormItem_spec n level parentPath c)
    as [[Hsystem Hnone]|(item & Hitem & _ & _ & Hids)].
  - rewrite Hnone. split.
    + intros c' [= <-]. now split.
    + intros item c' Heq. discriminate Heq.
  - rewrite Hitem. split.
    + intros c' Heq. discriminate Heq.
    + intros item' c' [= <- <-]. split; [reflexivity|]. split; [exact Hids|].
      split; [|rewrite Hids; apply idsAfter_NoDup].
      destruct item. cbn [saveAllItems map List.length] in Hids.
      unfold idsAfter in Hids. cbn [seq map] in Hids.
      now injection Hids.
Qed.

Lemma convertNodeToFormItem_ids_witness :
  match convertNodeToFormItem SampleTree.site 0 "" 7 with
  | (Some item, c') =>
      c' = 13
      /\ map item_id (saveAllItems item)
         = ["item-8"; "item-9"; "item-10"; "item-11"; "item-12"; "item-13"]%string
  | (None, _) => False
  end.
Proof.
  destruct (convertNodeToFormItem SampleTree.site 0 "" 7) as [[item|] c'] eqn:Hconvert.
  - destruct (convertNodeToFormItem_ids SampleTree.site 0 "" 7) as (_ & _ & Hids).
    destruct (Hids item c' Hconvert) as (Hcounter & Hseq & _).
    rewrite Hseq.
    vm_compute in Hconvert. injection Hconvert as <- <-.
    split; reflexivity.
  - vm_compute in Hconvert. discriminate Hconvert.
Defined.

Lemma allMadeAt_Forall (level : Z) (cs : list FormItem) :
  allMadeAt level cs <-> Forall (madeAt level) cs.
Proof.
  induction cs as [|c cs IH]; cbn [allMadeAt].
  - split; [constructor | trivial].
  - rewrite IH. split.
    + intros [Hc Hcs]. now constructor.
    + intros Hall. inversion Hall; subst. now split.
Qed.

(** The fields of every item under an item made at [level]. *)
Lemma madeAt_all (i : FormItem) :
  forall level, madeAt level i ->
  Forall (fun x =>
            level <= item_level x
            /\ item_name x = node_name (item_node x)
            /\ item_path x = node_path (item_node x)
            /\ item_size x = node_size (item_node x)
            /\ item_type x = match node_type (item_node x) with
                             | NodeFile => ItemBlob
                             | NodeDirectory => ItemTree
                             end
            /\ isSystemNode (item_name x) (node_type (item_node x)) = false
            /\ item_expanded x = (item_level x <? 2)
            /\ item_editable x = false
            /\ item_pinId x = None
            /\ match item_children x with
               | Some cs =>
                   cs <> [] /\ Forall (fun ch => item_level ch = item_level x + 1) cs
               | None => True
               end)
         (saveAllItems i).
Proof.
  induction i as [id name path type size lvl expanded editable children node pinId IH]
    using FormItem_induction.
  intros level Hmade. cbn [madeAt] in Hmade.
  destruct Hmade as (-> & -> & -> & -> & Hsystem & -> & -> & -> & -> & Hchildren).
  cbn [saveAllItems item_children]. constructor.
  - cbn. repeat (split; [first [reflexivity | lia | exact Hsystem]|]).
    destruct children as [cs|]; [|exact I].
    destruct Hchildren as [Hne Hall]. split; [exact Hne|].
    apply (allMadeAt_Forall (level + 1)) in Hall.
    eapply Forall_impl; [|exact Hall].
    intros ch Hch. destruct ch. cbn [madeAt] in Hch. cbn. tauto.
  - destruct children as [cs|]; [|constructor].
    destruct Hchildren as [_ Hall].
    apply (allMadeAt_Forall (level + 1)) in Hall.
    apply Forall_flat_map. apply Forall_forall. intros ch Hin.
    rewrite Forall_forall in IH, Hall.
    eapply Forall_impl; [|apply (IH ch Hin (level + 1) (Hall ch Hin))].
    cbn beta. intros x Hx. split; [lia | tauto].
Qed.

(** X13.  Every item of a converted tree reflects the node it was made for:
    it has the node's name, path and size, is a blob for a file and a tree
    for a directory, and is not a system file; it is expanded exactly when
    its level is below 2, is not editable and has no pin id; the root has the
    level asked for and the children of an item stand one level below it. *)
Theorem convertNodeToFormItem_fields (n : FileTreeNode) (level : Z)
    (parentPath : string) (c c' : Z) (item : FormItem) :
  convertNodeToFormItem n level parentPath c = (Some item, c') ->
  item_node item = n
  /\ item_level item = level
  /\ Forall (fun x =>
               level <= item_level x
               /\ item_name x = node_name (item_node x)
               /\ item_path x = node_path (item_node x)
               /\ item_size x = node_size (item_node x)
               /\ item_type x = match node_type (item_node x) with
                                | NodeFile => ItemBlob
                                | NodeDirectory => ItemTree
                                end
               /\ isSystemNode (item_name x) (node_type (item_node x)) = false
               /\ item_expanded x = (item_level x <? 2)
               /\ item_editable x = false
               /\ item_pinId x = None
               /\ match item_children x with
                  | Some cs =>
                      cs <> []
                      /\ Forall (fun ch => item_level ch = item_level x + 1) cs
                  | None => True
                  end)
            (saveAllItems item).
Proof.
  intros Hconvert.
  destruct (convertNodeToFormItem_spec n level parentPath c)
    as [[_ Hnone]|(item' & Hitem & Hnode & Hmade & _)];
    rewrite Hconvert in *; [discriminate Hnone|].
  injection Hitem as -> _.
  split; [exact Hnode|]. split; [|now apply madeAt_all].
  destruct item'. cbn [madeAt] in Hmade. cbn. tauto.
Qed.

Lemma convertNodeToFormItem_fields_witness :
  match convertNodeToFormItem SampleTree.site 0 "" 0 with
  | (Some item, _) => item_node item = SampleTree.site /\ item_level item = 0
  | (None, _) => False
  end.
Proof.
  destruct (convertNodeToFormItem SampleTree.site 0 "" 0) as [[item|] c'] eqn:Hconvert.
  - destruct (convertNodeToFormItem_fields SampleTree.site 0 "" 0 c' item Hconvert)
      as (Hnode & Hlevel & _).
    split; [exact Hnode | exact Hlevel].
  - vm_compute in Hconvert. discriminate Hconvert.
Defined.

(** ** The form: looking an item up, and what is shown *)

Lemma find_app_first (p : FormItem -> bool) (l l' : list FormItem) :
  find p (l ++ l')
  = match find p l with
    | Some found => Some found
    | None => find p l'
    end.
Proof.
  induction l as [|x l IH]; [reflexivity|].
  simpl. now destruct (p x).
Qed.

Lemma findInItem_preorder (id : string) (i : FormItem) :
  findInItem id i = find (hasId id) (saveAllItems i).
Proof.
  induction i as [iid name path type size lvl expanded editable children node pinId IH]
    using FormItem_induction.
  cbn [findInItem saveAllItems item_id item_children find].
  unfold hasId at 1. cbn [item_id].
  destruct (String.eqb iid id); [reflexivity|].
  destruct children as [cs|]; [|reflexivity].
  induction IH as [|c cs Hc Hcs IHcs]; [reflexivity|].
  cbn [flat_map]. rewrite find_app_first, <- Hc.
  destruct (findInItem id c); [reflexivity | exact IHcs].
Qed.

(** X14.  Looking an id up in a list of items gives the first item with that
    id in the order of [saveAllItems], collapsed or not; so the item returned
    has the id looked for and belongs to one of the trees, and nothing is
    returned only when no item of any tree has the id. *)
Theorem findItemById_preorder (items : list FormItem) (id : string) :
  findItemById items id = find (hasId id) (flat_map saveAllItems items)
  /\ (forall found, findItemById items id = Some found ->
        item_id found = id /\ In found (flat_map saveAllItems items))
  /\ (findItemById items id = None ->
      forall i, In i (flat_map saveAllItems items) -> item_id i <> id).
Proof.
  assert (Hfind : findItemById items id = find (hasId id) (flat_map saveAllItems items)).
  { induction items as [|i items IH]; [reflexivity|].
    cbn [findItemById flat_map].
    rewrite find_app_first, <- findInItem_preorder, IH. reflexivity. }
  split; [exact Hfind|]. rewrite Hfind. split.
  - intros found Hfound. apply find_some in Hfound. destruct Hfound as [Hin Hid].
    split; [now apply String.eqb_eq | exact Hin].
  - intros Hnone i Hin Hid.
    pose proof (find_none _ _ Hnone i Hin) as Hno.
    unfold hasId in Hno. apply String.eqb_eq in Hid. congruence.
Qed.

Lemma findItemById_preorder_witness :
  let c := mkFormItem "item-2" "c" "/c" ItemBlob None 1 true false None
             (SampleTree.leaf "c" "/c") None in
  let r := mkFormItem "item-1" "r" "/" ItemTree None 0 false false (Some [c])
             (SampleTree.dir "r" "/" [SampleTree.leaf "c" "/c"]) None in
  findItemById [r] "item-2" = Some c /\ item_id c = "item-2"%string.
Proof.
  cbv zeta. split; [reflexivity|].
  destruct (findItemById_preorder
              [mkFormItem "item-1" "r" "/" ItemTree None 0 false false
                 (Some [mkFormItem "item-2" "c" "/c" ItemBlob None 1 true false None
                          (SampleTree.leaf "c" "/c") None])
                 (SampleTree.dir "r" "/" [SampleTree.leaf "c" "/c"]) None]
              "item-2") as (_ & Hfound & _).
  destruct (Hfound _ eq_refl) as [Hid _]. exact Hid.
Defined.

Lemma filter_flat_map (p : FormItem -> bool) (f : FormItem -> list FormItem)
    (l : list FormItem) :
  filter p (flat_map f l) = flat_map (fun x => filter p (f x)) l.
Proof.
  induction l as [|x l IH]; [reflexivity|].
  cbn [flat_map]. now rewrite filter_app, IH.
Qed.

Lemma flat_map_same (f g : FormItem -> list FormItem) (l : list FormItem) :
  Forall (fun x => f x = g x) l -> flat_map f l = flat_map g l.
Proof.
  induction 1 as [|x l Hx Hl IH]; [reflexivity|].
  cbn [flat_map]. now rewrite Hx, IH.
Qed.

Lemma flat_map_nil (f : FormItem -> list FormItem) (l : list FormItem) :
  Forall (fun x => f x = []) l -> flat_map f l = [].
Proof.
  induction 1 as [|x l Hx Hl IH]; [reflexivity|].
  cbn [flat_map]. now rewrite Hx, IH.
Qed.

Lemma shownAtFirst_level (id name path : string) (type : ItemType) (size : option Z)
    (level : Z) (expanded editable : bool) (children : option (list FormItem))
    (node : FileTreeNode) (pinId : option string) :
  shownAtFirst (mkFormItem id name path type size level expanded editable children
                  node pinId)
  = (level <=? 2).
Proof. reflexivity. Qed.

(** Below an item made at a level up to 2, flattening shows the items down to
    level 2; below an item made deeper, none of them. *)
Lemma flattenItem_shown (i : FormItem) :
  forall level, madeAt level i ->
  (level <= 2 -> flattenItem i = filter shownAtFirst (saveAllItems i))
  /\ (2 < level -> filter shownAtFirst (saveAllItems i) = []).
Proof.
  induction i as [id name path type size lvl expanded editable children node pinId IH]
    using FormItem_induction.
  intros level Hmade. cbn [madeAt] in Hmade.
  destruct Hmade as (_ & _ & _ & _ & _ & -> & -> & _ & _ & Hchildren).
  cbn [saveAllItems flattenItem item_children item_expanded filter].
  rewrite !shownAtFirst_level.
  assert (Hbelow : forall cs, children = Some cs ->
             Forall (fun ch =>
                       (level + 1 <= 2 ->
                        flattenItem ch = filter shownAtFirst (saveAllItems ch))
                       /\ (2 < level + 1 ->
                           filter shownAtFirst (saveAllItems ch) = [])) cs).
  { intros cs ->. destruct Hchildren as [_ Hall].
    apply (allMadeAt_Forall (level + 1)) in Hall.
    apply Forall_forall. intros ch Hin. rewrite Forall_forall in IH, Hall.
    apply (IH ch Hin (level + 1) (Hall ch Hin)). }
  split; intros Hlevel.
  - destruct (Z.leb_spec level 2) as [_|]; [|lia]. f_equal.
    destruct children as [cs|]; [|reflexivity].
    specialize (Hbelow cs eq_refl). destruct Hchildren as [Hne _].
    destruct cs as [|c cs]; [contradiction|].
    rewrite filter_flat_map.
    destruct (Z.ltb_spec level 2) as [Hexpanded|Hcollapsed].
    + apply flat_map_same. eapply Forall_impl; [|exact Hbelow].
      cbn beta. intros ch [Hshow _]. apply Hshow. lia.
    + symmetry. apply flat_map_nil. eapply Forall_impl; [|exact Hbelow].
      cbn beta. intros ch [_ Hhide]. apply Hhide. lia.
  - destruct (Z.leb_spec level 2) as [|_]; [lia|].
    destruct children as [cs|]; [|reflexivity].
    rewrite filter_flat_map. apply flat_map_nil.
    eapply Forall_impl; [|exact (Hbelow cs eq_refl)].
    cbn beta. intros ch [_ Hhide]. apply Hhide. lia.
Qed.

(** X15.  After the form is built, [allFormItems] lists every item of the
    converted tree and [formItems] lists, in the same order, exactly those
    down to level 2; the ids are the next ids of the counter, which advances
    by the number of items.  The two lists are empty, and the counter is
    untouched, exactly when there is no tree or its root is a system
    node. *)
Theorem buildFormData_shown (processedTree : option FileTreeNode) (st : FormState) :
  let st' := buildFormData processedTree st in
  formItems st' = filter shownAtFirst (allFormItems st')
  /\ itemIdCounter st' = itemIdCounter st + Z.of_nat (List.length (allFormItems st'))
  /\ map item_id (allFormItems st')
     = idsAfter (itemIdCounter st) (List.length (allFormItems st'))
  /\ (allFormItems st' = []
      <-> processedTree = None
          \/ exists tree, processedTree = Some tree
                          /\ isSystemNode (node_name tree) (node_type tree) = true).
Proof.
  cbv zeta. unfold buildFormData.
  destruct processedTree as [tree|].
  2:{ cbn. rewrite Z.add_0_r. repeat split; auto. }
  destruct (filterSystemFiles_clean tree) as [Hnone Hkept].
  destruct (filterSystemFiles tree) as [filteredTree|] eqn:Hfilter.
  2:{ cbn. rewrite Z.add_0_r. repeat split; auto.
      intros _. right. exists tree. split; [reflexivity | now apply Hnone]. }
  destruct (Hkept filteredTree eq_refl) as (Hname & _ & Htype & _ & _ & _ & Hagain).
  destruct (convertNodeToFormItem_spec filteredTree 0 "" (itemIdCounter st))
    as [[Hsystem _]|(root & -> & _ & Hmade & Hids)].
  { exfalso. destruct (filterSystemFiles_clean filteredTree) as [Hnone' _].
    apply Hnone' in Hsystem. congruence. }
  cbn [formItems allFormItems itemIdCounter].
  split.
  { unfold flattenTree. cbn [flat_map]. rewrite app_nil_r.
    apply (flattenItem_shown root 0 Hmade). lia. }
  split; [reflexivity|]. split; [exact Hids|].
  split.
  - intros Hempty. destruct root. discriminate Hempty.
  - intros [Hno|(tree' & [= <-] & Hsystem)]; [discriminate Hno|].
    exfalso. apply Hnone in Hsystem. discriminate Hsystem.
Qed.

(** ** Putting the tree on chain *)

Lemma uploadDirectory_eq (lib : MvcLib) (w : TreeWorld) (id name path : string)
    (type : ItemType) (size : option Z) (level : Z) (expanded editable : bool)
    (children : option (list FormItem)) (node : FileTreeNode)
    (pinId : option string) (st : TreeState) :
  uploadDirectory lib w
    (mkFormItem id name path type size level expanded editable children node pinId) st
  = match children with
    | Some (first :: others) =>
        let '(looped, st') := uploadChildren lib w (first :: others) [] st in
        match looped with
        | inl e => (inl e, st')
        | inr entries => createTree w id name entries st'
        end
    | _ => (Throw (Error ("目录 " ++ name ++ " 没有子项")%string), st)
    end.
Proof.
  destruct children as [[|first others]|]; reflexivity.
Qed.

Lemma uploadChildren_cons (lib : MvcLib) (w : TreeWorld) (child : FormItem)
    (rest : list FormItem) (entries : list SimpleTreeEntry) (st : TreeState) :
  uploadChildren lib w (child :: rest) entries st
  = let '(uploaded, st') :=
      uploadItem lib w child
        (setProgress ("正在处理: " ++ item_name child)%string st) in
    match uploaded with
    | inl e => (inl e, st')
    | inr pinId =>
        uploadChildren lib w rest (entries ++ [entryOf child pinId])
          (setPin (item_id child) pinId st')
    end.
Proof. reflexivity. Qed.

Lemma chained_start {A : Type} (tags : list (string * ItemType)) (st : TreeState)
    (e : JsError) :
  chained tags st (@inl JsError A e, st).
Proof.
  exists [], tags, []. cbn. rewrite !app_nil_r. repeat split. intros a Ha. discriminate Ha.
Qed.

Lemma uploadFile_chained (lib : MvcLib) (w : TreeWorld) (item : FormItem)
    (st : TreeState) :
  item_type item = ItemBlob ->
  chained [itemTag item] st (uploadFile lib w item st).
Proof.
  intros Hblob. unfold uploadFile.
  destruct (node_blob (item_node item)) as [blob|]; [|apply chained_start].
  destruct (run (uploadFileToChainDirect lib (envAt w (events st))
                   (compressedFile w item blob))) as [[e|result] calls].
  - eexists [_], [], []. cbn. rewrite app_nil_r. unfold itemTag. rewrite Hblob.
    repeat split.
  - eexists [_], [], []. cbn. rewrite app_nil_r. unfold itemTag. rewrite Hblob.
    repeat split.
Qed.

Lemma createTree_chained (w : TreeWorld) (id name : string)
    (entries : list SimpleTreeEntry) (st : TreeState) :
  chained [(name, ItemTree)] st (createTree w id name entries st).
Proof.
  unfold createTree.
  destruct (createSimpletree w (events (setProgress ("正在上链目录: " ++ name) st))
              (simpletreeRequest name entries)) as [e|txid].
  - eexists [_], [], []. cbn. rewrite app_nil_r. repeat split.
  - eexists [_], [], [_]. cbn. repeat split.
Qed.

(** Chaining one outcome after another. *)
Lemma chained_then {A B : Type} (tags tags' : list (string * ItemType))
    (st st1 : TreeState) (first : Result A) (second : Result B * TreeState) :
  chained tags st (first, st1) ->
  (forall a, first = Ok a ->
     exists st2, events st2 = events st1 /\ exists extra, pins st2 = pins st1 ++ extra
                 /\ chained tags' st2 second) ->
  (forall e, first = inl e -> second = (inl e, st1)) ->
  chained (tags ++ tags') st second.
Proof.
  intros (added & rest & more & Hev & Hpins & Htags & Hdone) Hok Hfail.
  cbn [fst snd] in *.
  destruct first as [e|a].
  - rewrite (Hfail e eq_refl). exists added, (rest ++ tags'), more. cbn [fst snd].
    rewrite app_assoc, Htags. repeat split; trivial.
    intros b Hb. discriminate Hb.
  - destruct (Hok a eq_refl) as (st2 & Hev2 & extra & Hpins2 & Hsecond).
    destruct Hsecond as (added' & rest' & more' & Hev' & Hpins' & Htags' & Hdone').
    rewrite (Hdone a eq_refl) in Htags. rewrite app_nil_r in Htags.
    exists (added ++ added'), rest', (more ++ extra ++ more').
    rewrite Hev', Hev2, Hev, Hpins', Hpins2, Hpins, map_app, Htags, <- !app_assoc, Htags'.
    repeat split; trivial.
Qed.

Lemma uploadChildren_chained (lib : MvcLib) (w : TreeWorld) (l : list FormItem) :
  Forall (fun child => forall st,
            chained (map itemTag (chainOrder child)) st (uploadItem lib w child st)) l ->
  forall entries st,
    chained (map itemTag (flat_map chainOrder l)) st (uploadChildren lib w l entries st).
Proof.
  induction 1 as [|child rest Hchild Hrest IH]; intros entries st.
  - exists [], [], []. cbn. rewrite !app_nil_r. repeat split.
  - rewrite uploadChildren_cons. cbn [flat_map]. rewrite map_app.
    specialize (Hchild (setProgress ("正在处理: " ++ item_name child)%string st)).
    destruct (uploadItem lib w child
                (setProgress ("正在处理: " ++ item_name child)%string st))
      as [uploaded st1].
    apply (chained_then _ _ st st1 uploaded).
    + exact Hchild.
    + intros pinId ->. eexists. split; [|eexists; split; [|apply IH]]; reflexivity.
    + intros e ->. reflexivity.
Qed.

Lemma uploadItem_chained (lib : MvcLib) (w : TreeWorld) (item : FormItem) :
  forall st, chained (map itemTag (chainOrder item)) st (uploadItem lib w item st).
Proof.
  induction item
    as [id name path type size level expanded editable children node pinId IH]
    using FormItem_induction.
  intros st. unfold uploadItem. cbn [item_type chainOrder].
  destruct type.
  - cbn [map]. now apply uploadFile_chained.
  - rewrite uploadDirectory_eq.
    destruct children as [[|first others]|]; try apply chained_start.
    rewrite map_app. cbn [map].
    pose proof (uploadChildren_chained lib w (first :: others) IH [] st) as Hloop.
    destruct (uploadChildren lib w (first :: others) [] st) as [looped st1].
    apply (chained_then _ _ st st1 looped).
    + exact Hloop.
    + intros entries ->. exists st1. split; [reflexivity|]. exists [].
      rewrite app_nil_r. split; [reflexivity|]. apply createTree_chained.
    + intros e ->. reflexivity.
Qed.

(** Stopping at the first failure. *)
Lemma succeeded_app (lib : MvcLib) (w : TreeWorld) (l l' before : list TreeEvent) :
  succeeded lib w before (l ++ l')
  <-> succeeded lib w before l /\ succeeded lib w (before ++ l) l'.
Proof.
  revert before. induction l as [|ev l IH]; intros before.
  - cbn. rewrite app_nil_r. tauto.
  - change (succeeded lib w before ((ev :: l) ++ l'))
      with ((exists pinId, outcomeOf lib w before ev = Ok pinId)
            /\ succeeded lib w (before ++ [ev]) (l ++ l')).
    change (succeeded lib w before (ev :: l))
      with ((exists pinId, outcomeOf lib w before ev = Ok pinId)
            /\ succeeded lib w (before ++ [ev]) l).
    replace (before ++ ev :: l) with ((before ++ [ev]) ++ l)
      by (rewrite <- app_assoc; reflexivity).
    specialize (IH (before ++ [ev])). tauto.
Qed.

Lemma uploadFile_orderly (lib : MvcLib) (w : TreeWorld) (item : FormItem)
    (st : TreeState) :
  orderly lib w st (uploadFile lib w item st).
Proof.
  unfold uploadFile.
  destruct (node_blob (item_node item)) as [blob|].
  2:{ exists []. cbn [fst snd]. rewrite app_nil_r. split; [reflexivity|].
      left. split; [exact I|]. exists (item_name item). now left. }
  destruct (run (uploadFileToChainDirect lib (envAt w (events st))
                   (compressedFile w item blob))) as [[e|result] calls] eqn:Hrun.
  - eexists [_]. cbn [fst snd events addEvent]. split; [reflexivity|].
    right. eexists [], _. split; [reflexivity|]. split; [exact I|].
    rewrite app_nil_r. cbn [outcomeOf]. unfold result_of. now rewrite Hrun.
  - eexists [_]. cbn [fst snd events addEvent]. split; [reflexivity|].
    cbn [succeeded outcomeOf]. unfold result_of. rewrite Hrun. cbn [fst].
    split; [now eexists | exact I].
Qed.

Lemma createTree_orderly (lib : MvcLib) (w : TreeWorld) (id name : string)
    (entries : list SimpleTreeEntry) (st : TreeState) :
  orderly lib w st (createTree w id name entries st).
Proof.
  unfold createTree.
  destruct (createSimpletree w (events (setProgress ("正在上链目录: " ++ name) st))
              (simpletreeRequest name entries)) as [e|txid] eqn:Hanswer;
    cbn [events setProgress] in Hanswer.
  - eexists [_]. cbn [fst snd events addEvent setProgress]. split; [reflexivity|].
    right. eexists [], _. split; [reflexivity|]. split; [exact I|].
    rewrite app_nil_r. cbn [outcomeOf]. now rewrite Hanswer.
  - eexists [_]. cbn [fst snd events addEvent setProgress setPin].
    split; [reflexivity|].
    cbn [succeeded outcomeOf]. rewrite Hanswer. split; [now eexists | exact I].
Qed.

Lemma orderly_then {A B : Type} (lib : MvcLib) (w : TreeWorld)
    (st st1 : TreeState) (first : Result A) (second : Result B * TreeState) :
  orderly lib w st (first, st1) ->
  (forall a, first = Ok a ->
     exists st2, events st2 = events st1 /\ orderly lib w st2 second) ->
  (forall e, first = inl e -> second = (inl e, st1)) ->
  orderly lib w st second.
Proof.
  intros (added & Hev & Hshape) Hok Hfail. cbn [fst snd] in *.
  destruct first as [e|a].
  - rewrite (Hfail e eq_refl). exists added. cbn [fst snd]. now split.
  - destruct (Hok a eq_refl) as (st2 & Hev2 & added' & Hev' & Hshape').
    exists (added ++ added'). rewrite Hev', Hev2, Hev, app_assoc.
    split; [reflexivity|].
    rewrite Hev2, Hev in Hshape'.
    destruct (fst second) as [e|b].
    + destruct Hshape' as [[Hall Hunsent]|(done & ev & -> & Hdone & Hlast)].
      * left. split; [|exact Hunsent]. apply succeeded_app. now split.
      * right. exists (added ++ done), ev. rewrite <- app_assoc.
        split; [reflexivity|]. split; [apply succeeded_app; now split|].
        now rewrite app_assoc.
    + apply succeeded_app. now split.
Qed.

Lemma uploadChildren_orderly (lib : MvcLib) (w : TreeWorld) (l : list FormItem) :
  Forall (fun child => forall st, orderly lib w st (uploadItem lib w child st)) l ->
  forall entries st, orderly lib w st (uploadChildren lib w l entries st).
Proof.
  induction 1 as [|child rest Hchild Hrest IH]; intros entries st.
  - exists []. cbn. rewrite app_nil_r. now split.
  - rewrite uploadChildren_cons.
    specialize (Hchild (setProgress ("正在处理: " ++ item_name child)%string st)).
    destruct (uploadItem lib w child
                (setProgress ("正在处理: " ++ item_name child)%string st))
      as [uploaded st1].
    apply (orderly_then lib w st st1 uploaded).
    + exact Hchild.
    + intros pinId ->. eexists. split; [|apply IH]. reflexivity.
    + intros e ->. reflexivity.
Qed.

Lemma uploadItem_orderly (lib : MvcLib) (w : TreeWorld) (item : FormItem) :
  forall st, orderly lib w st (uploadItem lib w item st).
Proof.
  induction item
    as [id name path type size level expanded editable children node pinId IH]
    using FormItem_induction.
  intros st. unfold uploadItem. cbn [item_type].
  destruct type; [apply uploadFile_orderly|].
  rewrite uploadDirectory_eq.
  assert (Hempty : forall e : JsError,
             e = Error ("目录 " ++ name ++ " 没有子项")%string ->
             orderly lib w st (@inl JsError string e, st)).
  { intros e ->. exists []. cbn [fst snd]. rewrite app_nil_r. split; [reflexivity|].
    left. split; [exact I|]. exists name. now right. }
  destruct children as [[|first others]|]; try (now apply Hempty).
  pose proof (uploadChildren_orderly lib w (first :: others) IH [] st) as Hloop.
  destruct (uploadChildren lib w (first :: others) [] st) as [looped st1].
  apply (orderly_then lib w st st1 looped).
  - exact Hloop.
  - intros entries ->. exists st1. split; [reflexivity|]. apply createTree_orderly.
  - intros e ->. reflexivity.
Qed.

(** X16.  A tree goes on chain from the bottom up and in order, and stops at
    the first failure.  Whatever the wallet, the finalizer and
    [createSimpletree] answer, the events an upload adds are, by name and
    kind, a first part of the items of the tree taken in the order of
    [chainOrder], where a directory comes after all that is below it.  When
    the upload succeeds they are all of them and each operation returned.
    When it fails, every operation but the last returned, and the error is
    the one the last operation threw, unless it is the error of a file
    without content or of a directory without children, thrown before
    anything is sent, in which case every operation returned. *)
Theorem uploadItem_in_order (lib : MvcLib) (w : TreeWorld) (item : FormItem)
    (st : TreeState) :
  let out := uploadItem lib w item st in
  exists added rest,
    events (snd out) = events st ++ added
    /\ map eventTag added ++ rest = map itemTag (chainOrder item)
    /\ match fst out with
       | inr pinId => rest = [] /\ succeeded lib w (events st) added
       | inl e =>
           (succeeded lib w (events st) added /\ unsent e)
           \/ (exists done ev,
                  added = done ++ [ev]
                  /\ succeeded lib w (events st) done
                  /\ outcomeOf lib w (events st ++ done) ev = Throw e)
       end.
Proof.
  cbv zeta.
  destruct (uploadItem_chained lib w item st)
    as (added & rest & more & Hev & _ & Htags & Hdone).
  destruct (uploadItem_orderly lib w item st) as (added' & Hev' & Hshape).
  assert (added' = added) as ->.
  { rewrite Hev in Hev'. now apply app_inv_head in Hev'. }
  exists added, rest. split; [exact Hev|]. split; [exact Htags|].
  destruct (fst (uploadItem lib w item st)) as [e|pinId]; [exact Hshape|].
  split; [now apply (Hdone pinId) | exact Hshape].
Qed.

Lemma uploadItem_in_order_witness :
  let root :=
    SampleTree.treeItem "item-1" "site" 0
      [ SampleTree.blobItem "item-2" "index.html" 1;
        SampleTree.treeItem "item-3" "css" 1 [SampleTree.blobItem "item-4" "a.css" 2] ] in
  map eventTag (events (snd (uploadItem Sample.lib SampleTree.world root SampleTree.idle)))
  = [ ("index.html", ItemBlob); ("a.css", ItemBlob); ("css", ItemTree);
      ("site", ItemTree) ]%string.
Proof.
  cbv zeta.
  destruct (uploadItem_in_order Sample.lib SampleTree.world
              (SampleTree.treeItem "item-1" "site" 0
                 [ SampleTree.blobItem "item-2" "index.html" 1;
                   SampleTree.treeItem "item-3" "css" 1
                     [SampleTree.blobItem "item-4" "a.css" 2] ])
              SampleTree.idle) as (added & rest & Hev & Htags & Hshape).
  rewrite Hev. change (events SampleTree.idle ++ added) with added.
  assert (Hok : fst (uploadItem Sample.lib SampleTree.world
                       (SampleTree.treeItem "item-1" "site" 0
                          [ SampleTree.blobItem "item-2" "index.html" 1;
                            SampleTree.treeItem "item-3" "css" 1
                              [SampleTree.blobItem "item-4" "a.css" 2] ])
                       SampleTree.idle) = Ok "9fi0"%string)
    by (vm_compute; reflexivity).
  rewrite Hok in Hshape. destruct Hshape as [-> _].
  rewrite app_nil_r in Htags. rewrite Htags. reflexivity.
Defined.

(** ** An empty directory stops the upload *)

Lemma uploadChildren_doomed (lib : MvcLib) (w : TreeWorld) (l : list FormItem) :
  Forall (fun child =>
            (exists d, In d (chainOrder child) /\ emptyDirectory d) ->
            forall st, exists e, fst (uploadItem lib w child st) = Throw e) l ->
  (exists d, In d (flat_map chainOrder l) /\ emptyDirectory d) ->
  forall entries st, exists e, fst (uploadChildren lib w l entries st) = Throw e.
Proof.
  induction 1 as [|child rest Hchild Hrest IH]; intros (d & Hin & Hempty) entries st.
  - destruct Hin.
  - rewrite uploadChildren_cons.
    cbn [flat_map] in Hin. apply in_app_or in Hin.
    destruct (uploadItem lib w child
                (setProgress ("正在处理: " ++ item_name child)%string st))
      as [[e|pinId] st1] eqn:Hup.
    + now exists e.
    + destruct Hin as [Hin|Hin].
      * destruct (Hchild (ex_intro _ d (conj Hin Hempty))
                    (setProgress ("正在处理: " ++ item_name child)%string st))
          as [e He].
        rewrite Hup in He. discriminate He.
      * apply IH. now exists d.
Qed.

Lemma uploadItem_doomed (lib : MvcLib) (w : TreeWorld) (item : FormItem) :
  (exists d, In d (chainOrder item) /\ emptyDirectory d) ->
  forall st, exists e, fst (uploadItem lib w item st) = Throw e.
Proof.
  intros Hbad st. revert st Hbad.
  induction item
    as [id name path type size level expanded editable children node pinId IH]
    using FormItem_induction.
  intros st (d & Hin & Hempty). unfold uploadItem. cbn [item_type].
  cbn [chainOrder] in Hin.
  destruct type.
  - destruct Hin as [<-|[]]. destruct Hempty as [Htype _]. discriminate Htype.
  - rewrite uploadDirectory_eq.
    destruct children as [[|first others]|]; try (eexists; reflexivity).
    apply in_app_or in Hin. destruct Hin as [Hin|[<-|[]]].
    + assert (Hloop : exists e,
                 fst (uploadChildren lib w (first :: others) [] st) = Throw e).
      { apply uploadChildren_doomed; [|now exists d].
        eapply Forall_impl; [|exact IH].
        cbn beta. intros child Hchild Hbad st'. now apply Hchild. }
      destruct Hloop as [e He].
      destruct (uploadChildren lib w (first :: others) [] st) as [looped st1].
      cbn [fst] in He. rewrite He. now exists e.
    + destruct Hempty as [_ [Hnone|Hnil]]; discriminate.
Qed.

(** X17.  An empty directory anywhere in the tree makes the upload of the
    tree fail, whatever the wallet, the finalizer and [createSimpletree]
    answer: the upload either fails earlier or reaches the directory, which
    throws for want of children. *)
Theorem uploadItem_empty_directory (lib : MvcLib) (w : TreeWorld) (item : FormItem)
    (st : TreeState) :
  (exists d, In d (chainOrder item) /\ emptyDirectory d) ->
  exists e, fst (uploadItem lib w item st) = Throw e.
Proof.
  intros Hbad. now apply uploadItem_doomed.
Qed.

Lemma uploadItem_empty_directory_witness :
  exists e,
    fst (uploadItem Sample.lib SampleTree.world
           (SampleTree.treeItem "item-1" "site" 0
              [ SampleTree.blobItem "item-2" "index.html" 1;
                SampleTree.treeItem "item-3" "empty" 1 [] ])
           SampleTree.idle) = Throw e.
Proof.
  apply uploadItem_empty_directory.
  exists (SampleTree.treeItem "item-3" "empty" 1 []). split.
  - cbn. right. left. reflexivity.
  - split; [reflexivity | left; reflexivity].
Defined.

(** ** What a directory declares of its children *)

Lemma uploadItem_pin_kind (lib : MvcLib) (w : TreeWorld) (item : FormItem)
    (st : TreeState) (pinId : string) :
  fst (uploadItem lib w item st) = Ok pinId ->
  pinOfKind (item_type item) pinId.
Proof.
  destruct item as [id name path type size level expanded editable children node pin].
  unfold uploadItem. cbn [item_type]. destruct type.
  - unfold uploadFile.
    destruct (node_blob _) as [blob|]; [|discriminate].
    destruct (run _) as [[e|result] calls]; [discriminate|].
    cbn [fst]. intros [= <-]. now exists (upload_txId result).
  - rewrite uploadDirectory_eq.
    destruct children as [[|first others]|]; try discriminate.
    destruct (uploadChildren lib w (first :: others) [] st) as [[e|entries] st1];
      [discriminate|].
    unfold createTree. destruct (createSimpletree w _ _) as [e|txid]; [discriminate|].
    cbn [fst]. intros [= <-]. now exists txid.
Qed.

Lemma declares_later (st st' : TreeState) (more : list (string * string))
    (child : FormItem) (entry : SimpleTreeEntry) :
  pins st' = pins st ++ more ->
  declares st child entry -> declares st' child entry.
Proof.
  intros Hpins (Hname & Htype & Hkind & Hin).
  repeat split; trivial. rewrite Hpins. apply in_or_app. now left.
Qed.

Lemma uploadChildren_declares (lib : MvcLib) (w : TreeWorld) (l : list FormItem) :
  forall entries st made st',
    uploadChildren lib w l entries st = (Ok made, st') ->
    exists new, made = entries ++ new /\ Forall2 (declares st') l new.
Proof.
  induction l as [|child rest IH]; intros entries st made st' Hloop.
  - injection Hloop as <- <-. exists []. rewrite app_nil_r. split; [reflexivity | constructor].
  - rewrite uploadChildren_cons in Hloop.
    destruct (uploadItem lib w child
                (setProgress ("正在处理: " ++ item_name child)%string st))
      as [[e|pinId] st1] eqn:Hup; [discriminate Hloop|].
    pose proof (uploadItem_pin_kind lib w child _ pinId (f_equal fst Hup)) as Hkind.
    destruct (IH _ _ _ _ Hloop) as (new & -> & Hnew).
    exists (entryOf child pinId :: new). rewrite <- app_assoc. split; [reflexivity|].
    constructor; [|exact Hnew].
    assert (Hall : Forall (fun c => forall s,
                             chained (map itemTag (chainOrder c)) s
                               (uploadItem lib w c s)) rest)
      by (apply Forall_forall; intros c _; apply uploadItem_chained).
    destruct (uploadChildren_chained lib w rest Hall
                (entries ++ [entryOf child pinId]) (setPin (item_id child) pinId st1))
      as (_ & _ & more & _ & Hpins & _).
    rewrite Hloop in Hpins. cbn [snd] in Hpins.
    apply (declares_later (setPin (item_id child) pinId st1) st' more); [exact Hpins|].
    repeat split; trivial. cbn. apply in_or_app. right. now left.
Qed.

(** X18.  When a directory goes on chain, the last event is the call of
    [createSimpletree] under the protocol path with, for body, the name of
    the directory and one entry for each of its children, in their order:
    the child's name and kind, and the pin id recorded for the child, a
    [metafile://] pointer for a file and a bare [<txid>i0] for a directory.
    The pin id returned is the transaction id answered followed by [i0], and
    it is the last pin recorded, under the id of the directory. *)
Theorem uploadDirectory_declares (lib : MvcLib) (w : TreeWorld) (item : FormItem)
    (st st' : TreeState) (pinId : string) :
  uploadDirectory lib w item st = (Ok pinId, st') ->
  exists children made before earlier txid,
    item_children item = Some children
    /\ children <> []
    /\ Forall2 (declares st') children made
    /\ events st' = before ++ [EvCreateSimpletree
                                 {| request_body := {| treeName := item_name item;
                                                       entries := made |};
                                    request_path := "/protocols/simpletree";
                                    request_contentType := "application/json" |}]
    /\ createSimpletree w before (simpletreeRequest (item_name item) made) = Ok txid
    /\ pinId = (txid ++ "i0")%string
    /\ pins st' = earlier ++ [(item_id item, pinId)].
Proof.
  destruct item as [id name path type size level expanded editable children node pin].
  rewrite uploadDirectory_eq.
  destruct children as [[|first others]|]; try discriminate.
  destruct (uploadChildren lib w (first :: others) [] st) as [[e|made] st1] eqn:Hloop;
    [discriminate|].
  unfold createTree.
  destruct (createSimpletree w
              (events (setProgress ("正在上链目录: " ++ name) st1))
              (simpletreeRequest name made)) as [e|txid] eqn:Hcreate;
    [discriminate|].
  intros [= <- <-].
  destruct (uploadChildren_declares lib w _ _ _ _ _ Hloop) as (new & Hmade & Hdeclares).
  change ([] ++ new) with new in Hmade. subst new.
  exists (first :: others), made, (events st1), (pins st1), txid.
  cbn [item_children item_name item_id].
  split; [reflexivity|]. split; [discriminate|]. split.
  - eapply Forall2_impl; [|exact Hdeclares].
    intros child entry. apply (declares_later st1 _ [(id, (txid ++ "i0")%string)]).
    reflexivity.
  - repeat split; trivial.
Qed.

Lemma uploadDirectory_declares_witness :
  let file := SampleTree.blobItem "item-2" "index.html" 1 in
  let root := SampleTree.treeItem "item-1" "site" 0 [file] in
  exists made,
    Forall2 (declares (snd (uploadDirectory Sample.lib SampleTree.world root
                              SampleTree.idle))) [file] made.
Proof.
  cbv zeta.
  destruct (uploadDirectory Sample.lib SampleTree.world
              (SampleTree.treeItem "item-1" "site" 0
                 [SampleTree.blobItem "item-2" "index.html" 1]) SampleTree.idle)
    as [res st'] eqn:Hrun.
  assert (Hok : res = Ok "9fi0"%string).
  { apply (f_equal fst) in Hrun. vm_compute in Hrun. now symmetry. }
  subst res.
  destruct (uploadDirectory_declares Sample.lib SampleTree.world _ _ _ _ Hrun)
    as (children & made & before & earlier & txid & Hchildren & _ & Hdeclares & _).
  injection Hchildren as <-. now exists made.
Defined.

(** ** From the archive to the chain: a directory of system files only *)

Lemma convertChildren_system (cs : list FileTreeNode) :
  Forall (fun c => isSystemNode (node_name c) (node_type c) = true) cs ->
  forall level path k, convertChildren level path cs k = ([], k).
Proof.
  induction 1 as [|c cs Hc Hcs IH]; intros level path k; [reflexivity|].
  cbn [convertChildren].
  destruct c as [name cpath type size children blobUrl blob].
  cbn [node_name node_type] in Hc.
  rewrite convertNodeToFormItem_eq, Hc.
  fold (convertChildren level path). now rewrite IH.
Qed.

Lemma convertChildren_reaches (Q : FormItem -> Prop) (c : FileTreeNode)
    (cs : list FileTreeNode) :
  In c cs ->
  (forall level parentPath k,
      exists item k',
        convertNodeToFormItem c level parentPath k = (Some item, k') /\ Q item) ->
  forall level path k,
  exists item, In item (fst (convertChildren level path cs k)) /\ Q item.
Proof.
  intros Hin Hc.
  induction cs as [|first others IH]; intros level path k; [destruct Hin|].
  cbn [convertChildren].
  destruct Hin as [->|Hin].
  - destruct (Hc (level + 1) path k) as (item & k' & -> & HQ).
    fold (convertChildren level path).
    destruct (convertChildren level path others k') as [rest k''].
    exists item. split; [now left | exact HQ].
  - destruct (convertNodeToFormItem first (level + 1) path k) as [made k'].
    fold (convertChildren level path).
    destruct (IH Hin level path k') as (item & Hitem & HQ).
    destruct (convertChildren level path others k') as [rest k''].
    cbn [fst] in *. exists item. split; [|exact HQ].
    destruct made; [now right | exact Hitem].
Qed.

Lemma hollow_converted (n : FileTreeNode) :
  hollow n ->
  forall level parentPath k,
  exists item k',
    convertNodeToFormItem n level parentPath k = (Some item, k')
    /\ item_type item = ItemTree
    /\ exists d, In d (chainOrder item) /\ emptyDirectory d.
Proof.
  induction 1 as [name path size children blobUrl blob Hname Hsystem
                 |name path size cs blobUrl blob c Hname Hin Hc IH];
    intros level parentPath k; rewrite convertNodeToFormItem_eq, Hname.
  - assert (Hnone : match children with
                    | Some (child :: others) =>
                        convertChildren level path (child :: others) (k + 1)
                    | _ => ([], k + 1)
                    end = ([], k + 1)).
    { destruct children as [[|child others]|]; trivial.
      now apply convertChildren_system, Hsystem. }
    rewrite Hnone. cbn [nonEmptyOrUndefined].
    eexists. eexists. split; [reflexivity|]. split; [reflexivity|].
    eexists. split; [left; reflexivity|].
    split; [reflexivity | left; reflexivity].
  - destruct cs as [|first others]; [destruct Hin|].
    assert (Hbelow : forall level parentPath k,
               exists item k',
                 convertNodeToFormItem c level parentPath k = (Some item, k')
                 /\ exists d, In d (chainOrder item) /\ emptyDirectory d).
    { intros l pp j. destruct (IH l pp j) as (item & j' & Hitem & _ & Hbad).
      now exists item, j'. }
    destruct (convertChildren_reaches
                (fun item => exists d, In d (chainOrder item) /\ emptyDirectory d)
                c (first :: others) Hin Hbelow level path (k + 1))
      as (item & Hitem & d & Hd & Hempty).
    destruct (convertChildren level path (first :: others) (k + 1)) as [items k'].
    cbn [fst] in Hitem.
    destruct items as [|made rest]; [destruct Hitem|].
    cbn [nonEmptyOrUndefined].
    eexists. eexists. split; [reflexivity|]. split; [reflexivity|].
    exists d. split; [|exact Hempty].
    cbn [chainOrder]. apply in_or_app. left.
    apply in_flat_map. now exists item.
Qed.

Lemma mapNotNull_system (cs : list FileTreeNode) :
  Forall (fun c => isSystemNode (node_name c) (node_type c) = true) cs ->
  mapNotNull filterSystemFiles cs = [].
Proof.
  induction 1 as [|c cs Hc Hcs IH]; [reflexivity|].
  cbn [mapNotNull].
  destruct c as [name cpath type size children blobUrl blob].
  cbn [node_name node_type] in Hc.
  rewrite filterSystemFiles_eq, Hc. exact IH.
Qed.

Lemma mapNotNull_keeps (c c' : FileTreeNode) (cs : list FileTreeNode) :
  In c cs -> filterSystemFiles c = Some c' ->
  In c' (mapNotNull filterSystemFiles cs).
Proof.
  intros Hin Hkept.
  induction cs as [|first others IH]; [destruct Hin|].
  cbn [mapNotNull].
  destruct Hin as [->|Hin].
  - rewrite Hkept. now left.
  - destruct (filterSystemFiles first); [right|]; now apply IH.
Qed.

Lemma hollow_filtered (n : FileTreeNode) :
  hollow n -> exists n', filterSystemFiles n = Some n' /\ hollow n'.
Proof.
  induction 1 as [name path size children blobUrl blob Hname Hsystem
                 |name path size cs blobUrl blob c Hname Hin Hc IH];
    rewrite filterSystemFiles_eq, Hname.
  - destruct children as [cs|].
    + rewrite (mapNotNull_system cs (Hsystem cs eq_refl)). cbn [nonEmptyOrUndefined].
      eexists. split; [reflexivity|].
      apply hollow_here; [exact Hname | discriminate].
    + eexists. split; [reflexivity|].
      apply hollow_here; [exact Hname | discriminate].
  - destruct IH as (c' & Hkept & Hc').
    pose proof (mapNotNull_keeps c c' cs Hin Hkept) as Hin'.
    destruct (mapNotNull filterSystemFiles cs) as [|first others] eqn:Hfiltered;
      [destruct Hin'|].
    cbn [nonEmptyOrUndefined].
    eexists. split; [reflexivity|].
    now apply (hollow_below name path size (first :: others) blobUrl blob c').
Qed.

(** X19.  A tree that holds a hollow directory (one that is not a system
    node and has no child besides [__MACOSX] directories and [.DS_Store]
    files, reached through directories that are not system nodes) cannot be
    put on chain: [buildFormData] makes a root item for it, first of
    [allFormItems], and the upload of that item, by [uploadFile] or
    [uploadDirectory] according to its type, throws in every state, whatever
    the wallet, the finalizer and [createSimpletree] answer. *)
Theorem buildFormData_hollow (tree : FileTreeNode) (form : FormState)
    (lib : MvcLib) (w : TreeWorld) (st : TreeState) :
  hollow tree ->
  exists rootItem others,
    allFormItems (buildFormData (Some tree) form) = rootItem :: others
    /\ item_type rootItem = ItemTree
    /\ exists e, fst (uploadItem lib w rootItem st) = Throw e.
Proof.
  intros Hhollow. unfold buildFormData.
  destruct (hollow_filtered tree Hhollow) as (filteredTree & -> & Hfiltered).
  destruct (hollow_converted filteredTree Hfiltered 0 ""%string (itemIdCounter form))
    as (rootItem & counter & -> & Htype & Hbad).
  cbn [allFormItems].
  exists rootItem. eexists. split.
  - destruct rootItem. cbn [saveAllItems]. reflexivity.
  - split; [exact Htype | now apply uploadItem_doomed].
Qed.

Lemma buildFormData_hollow_witness :
  let assets := mkFileTreeNode "assets" "site/assets" NodeDirectory None
                  (Some [mkFileTreeNode ".DS_Store" "site/assets/.DS_Store" NodeFile
                           (Some 6148) None None None]) None None in
  let site := mkFileTreeNode "site" "site" NodeDirectory None
                (Some [SampleTree.leaf "index.html" "site/index.html"; assets])
                None None in
  exists rootItem others,
    allFormItems (buildFormData (Some site) SampleTree.start) = rootItem :: others
    /\ item_type rootItem = ItemTree
    /\ exists e, fst (uploadItem Sample.lib SampleTree.world rootItem SampleTree.idle)
                 = Throw e.
Proof.
  cbv zeta. apply buildFormData_hollow.
  eapply hollow_below; [reflexivity | right; left; reflexivity|].
  apply hollow_here; [reflexivity|].
  intros cs [= <-]. repeat constructor.
Defined.

(** ** The form: expanding and collapsing *)

Lemma convertChildren_withoutIds (cs : list FileTreeNode) :
  Forall (fun n => forall level parentPath c c',
            option_map withoutIds (fst (convertNodeToFormItem n level parentPath c))
            = option_map withoutIds (fst (convertNodeToFormItem n level parentPath c')))
         cs ->
  forall level path c c',
    map withoutIds (fst (convertChildren level path cs c))
    = map withoutIds (fst (convertChildren level path cs c')).
Proof.
  induction 1 as [|n cs Hn Hcs IH]; intros level path c c'; [reflexivity|].
  cbn [convertChildren].
  specialize (Hn (level + 1) path c c').
  destruct (convertNodeToFormItem n (level + 1) path c) as [made k].
  destruct (convertNodeToFormItem n (level + 1) path c') as [made' k'].
  fold (convertChildren level path).
  specialize (IH level path k k').
  destruct (convertChildren level path cs k) as [rest j].
  destruct (convertChildren level path cs k') as [rest' j'].
  cbn [fst] in *.
  destruct made, made'; cbn [option_map] in Hn; try discriminate Hn;
    cbn [map]; congruence.
Qed.

Lemma convertNodeToFormItem_withoutIds (n : FileTreeNode) :
  forall level parentPath c c',
    option_map withoutIds (fst (convertNodeToFormItem n level parentPath c))
    = option_map withoutIds (fst (convertNodeToFormItem n level parentPath c')).
Proof.
  induction n as [name path type size children blobUrl blob IH]
    using FileTreeNode_induction.
  intros level parentPath c c'. rewrite !convertNodeToFormItem_eq.
  destruct (isSystemNode name type); [reflexivity|].
  destruct children as [[|child others]|]; try reflexivity.
  pose proof (convertChildren_withoutIds (child :: others) IH level path (c + 1) (c' + 1))
    as Hsame.
  destruct (convertChildren level path (child :: others) (c + 1)) as [items k].
  destruct (convertChildren level path (child :: others) (c' + 1)) as [items' k'].
  cbn [fst option_map withoutIds] in *.
  destruct items, items'; try discriminate Hsame; cbn [nonEmptyOrUndefined];
    [reflexivity|].
  now rewrite Hsame.
Qed.

Lemma flat_map_withoutIds (f : FormItem -> list FormItem) (cs : list FormItem) :
  Forall (fun c => map withoutIds (f c) = f (withoutIds c)) cs ->
  map withoutIds (flat_map f cs) = flat_map f (map withoutIds cs).
Proof.
  induction 1 as [|c cs Hc Hcs IH]; [reflexivity|].
  cbn [flat_map map]. now rewrite map_app, Hc, IH.
Qed.

Lemma flattenItem_withoutIds (item : FormItem) :
  map withoutIds (flattenItem item) = flattenItem (withoutIds item).
Proof.
  induction item
    as [id name path type size level expanded editable children node pinId IH]
    using FormItem_induction.
  cbn [flattenItem withoutIds item_children item_expanded map].
  f_equal.
  destruct children as [[|child others]|]; try reflexivity.
  cbn [map]. destruct expanded; [|reflexivity].
  exact (flat_map_withoutIds flattenItem (child :: others) IH).
Qed.

Lemma saveAllItems_withoutIds (item : FormItem) :
  map withoutIds (saveAllItems item) = saveAllItems (withoutIds item).
Proof.
  induction item
    as [id name path type size level expanded editable children node pinId IH]
    using FormItem_induction.
  cbn [saveAllItems withoutIds item_children map].
  f_equal.
  destruct children as [cs|]; [|reflexivity].
  exact (flat_map_withoutIds saveAllItems cs IH).
Qed.

Lemma buildFormData_numbered (processedTree : option FileTreeNode) (st : FormState) :
  let st' := buildFormData processedTree st in
  itemIdCounter st' = itemIdCounter st + Z.of_nat (List.length (allFormItems st'))
  /\ map item_id (allFormItems st')
     = idsAfter (itemIdCounter st) (List.length (allFormItems st')).
Proof.
  cbv zeta. unfold buildFormData.
  destruct processedTree as [tree|]; [|cbn; rewrite Z.add_0_r; now split].
  destruct (filterSystemFiles tree) as [filteredTree|];
    [|cbn; rewrite Z.add_0_r; now split].
  destruct (convertNodeToFormItem_spec filteredTree 0 ""%string (itemIdCounter st))
    as [[_ ->]|(root & -> & _ & _ & Hids)].
  - cbn. rewrite Z.add_0_r. now split.
  - cbn [formItems allFormItems itemIdCounter]. now split.
Qed.

Lemma buildFormData_counter_only (processedTree : option FileTreeNode)
    (st st' : FormState) :
  itemIdCounter st = itemIdCounter st' ->
  buildFormData processedTree st = buildFormData processedTree st'.
Proof.
  intros Hcounter. unfold buildFormData. now rewrite Hcounter.
Qed.

Lemma buildFormData_withoutIds (processedTree : option FileTreeNode)
    (st st' : FormState) :
  map withoutIds (formItems (buildFormData processedTree st))
  = map withoutIds (formItems (buildFormData processedTree st'))
  /\ map withoutIds (allFormItems (buildFormData processedTree st))
     = map withoutIds (allFormItems (buildFormData processedTree st')).
Proof.
  unfold buildFormData.
  destruct processedTree as [tree|]; [|now split].
  destruct (filterSystemFiles tree) as [filteredTree|]; [|now split].
  pose proof (convertNodeToFormItem_withoutIds filteredTree 0 ""%string
                (itemIdCounter st) (itemIdCounter st')) as Hsame.
  destruct (convertNodeToFormItem filteredTree 0 "" (itemIdCounter st)) as [[root|] k];
    destruct (convertNodeToFormItem filteredTree 0 "" (itemIdCounter st'))
      as [[root'|] k'];
    cbn [fst option_map] in Hsame; try discriminate Hsame; [|now split].
  injection Hsame as Hsame.
  cbn [formItems allFormItems]. unfold flattenTree. cbn [flat_map].
  rewrite !app_nil_r, !flattenItem_withoutIds, !saveAllItems_withoutIds, Hsame.
  now split.
Qed.

(** X20.  Expanding or collapsing changes nothing in what the form shows.  A
    call of [toggleExpand] on a blob or on an item without [children] leaves
    the state as it is; any other call ends in the state that
    [buildFormData] alone gives, where every item is expanded exactly when
    its level is below 2.  So, on a form built from the tree, the lists after
    the call are the lists before it, ids apart, and the ids are all new: the
    counter has advanced by the number of items. *)
Theorem toggleExpand_rebuilds (processedTree : option FileTreeNode) (item : FormItem)
    (st0 : FormState) :
  let st := buildFormData processedTree st0 in
  let st' := toggleExpand processedTree item st in
  (item_type item = ItemBlob \/ item_children item = None -> st' = st)
  /\ (item_type item = ItemTree -> item_children item <> None ->
      st' = buildFormData processedTree st
      /\ map withoutIds (formItems st') = map withoutIds (formItems st)
      /\ map withoutIds (allFormItems st') = map withoutIds (allFormItems st)
      /\ itemIdCounter st'
         = itemIdCounter st + Z.of_nat (List.length (allFormItems st))
      /\ map item_id (allFormItems st')
         = idsAfter (itemIdCounter st) (List.length (allFormItems st))).
Proof.
  cbv zeta. unfold toggleExpand. split.
  - intros [Hblob|Hnone]; [now rewrite Hblob|].
    rewrite Hnone. now destruct (item_type item).
  - intros Htree Hchildren. rewrite Htree.
    destruct (item_children item) as [children|]; [clear Hchildren|congruence].
    set (st := buildFormData processedTree st0).
    set (written := flipItems (item_id item) _).
    assert (Hrebuilt : buildFormData processedTree written
                       = buildFormData processedTree st).
    { apply buildFormData_counter_only. unfold written.
      destruct (findItemById (allFormItems st) (item_id item)); reflexivity. }
    rewrite Hrebuilt.
    destruct (buildFormData_withoutIds processedTree st st0) as [Hshown Hall].
    fold st in Hshown, Hall.
    destruct (buildFormData_numbered processedTree st) as [Hcounter Hids].
    assert (Hlength : List.length (allFormItems (buildFormData processedTree st))
                      = List.length (allFormItems st)).
    { rewrite <- (length_map withoutIds), Hall. apply length_map. }
    rewrite Hlength in Hcounter, Hids.
    repeat split; assumption.
Qed.

Lemma toggleExpand_rebuilds_witness :
  let st := buildFormData (Some SampleTree.site) SampleTree.start in
  let css := SampleTree.treeItem "item-3" "css" 1
               [SampleTree.blobItem "item-4" "a.css" 2] in
  map withoutIds (formItems (toggleExpand (Some SampleTree.site) css st))
  = map withoutIds (formItems st)
  /\ itemIdCounter (toggleExpand (Some SampleTree.site) css st) = 12.
Proof.
  cbv zeta.
  destruct (toggleExpand_rebuilds (Some SampleTree.site)
              (SampleTree.treeItem "item-3" "css" 1
                 [SampleTree.blobItem "item-4" "a.css" 2])
              SampleTree.start) as [_ Hrebuilt].
  destruct Hrebuilt as (_ & Hshown & _ & Hcounter & _);
    [reflexivity | discriminate |].
  split; [exact Hshown|].
  rewrite Hcounter. reflexivity.
Defined.

(** ** The whole tree, from the button *)

(** X21.  [uploadSimpleTree] never throws and tells its parent at most one
    thing.  With no item it uploads nothing, emits nothing, alerts once and
    leaves every ref as it is.  Else it uploads the first item, from the
    progress text of the start, and ends with [isUploading] false and with
    the events and pins of that upload.  When the upload returned a pin id,
    that pin id is put in [rootPinId] and emitted once with
    [upload-complete]; it has the form of the root's kind and every item of
    the tree has gone on chain.  When the upload threw, [rootPinId] is left
    empty, whatever it held before, and the error thrown is emitted once
    with [upload-error] and shown in [uploadProgress]. *)
Theorem uploadSimpleTree_outcome (lib : MvcLib) (w : TreeWorld)
    (items : list FormItem) (ps : PanelState) :
  let ps' := uploadSimpleTree lib w items ps in
  match items with
  | [] =>
      upload ps' = upload ps /\ isUploading ps' = isUploading ps
      /\ rootPinId ps' = rootPinId ps
      /\ notices ps' = notices ps ++ [Alert "没有可上链的文件"]
      /\ emitted (notices ps') = emitted (notices ps)
  | rootItem :: _ =>
      let out :=
        uploadItem lib w rootItem
          {| events := events (upload ps);
             uploadProgress := "开始上链...";
             pins := pins (upload ps) |} in
      isUploading ps' = false
      /\ events (upload ps') = events (snd out)
      /\ pins (upload ps') = pins (snd out)
      /\ match fst out with
         | inr pinId =>
             rootPinId ps' = pinId
             /\ emitted (notices ps')
                = emitted (notices ps) ++ [EmitUploadComplete pinId]
             /\ uploadProgress (upload ps') = "上链完成!"%string
             /\ pinOfKind (item_type rootItem) pinId
             /\ exists added,
                 events (upload ps') = events (upload ps) ++ added
                 /\ map eventTag added = map itemTag (chainOrder rootItem)
         | inl err =>
             rootPinId ps' = ""%string
             /\ emitted (notices ps')
                = emitted (notices ps) ++ [EmitUploadError err]
             /\ uploadProgress (upload ps') = ("上链失败: " ++ message err)%string
         end
  end.
Proof.
  cbv zeta. unfold uploadSimpleTree.
  destruct items as [|rootItem others].
  - cbn [upload isUploading rootPinId notices]. repeat split.
    unfold emitted. rewrite filter_app. cbn [filter]. apply app_nil_r.
  - change (setProgress "开始上链..." (upload ps))
      with {| events := events (upload ps);
              uploadProgress := "开始上链..."%string;
              pins := pins (upload ps) |}.
    set (started := {| events := events (upload ps);
                       uploadProgress := "开始上链..."%string;
                       pins := pins (upload ps) |}).
    pose proof (uploadItem_chained lib w rootItem started)
      as (added & rest & more & Hevents & _ & Htags & Hdone).
    pose proof (uploadItem_pin_kind lib w rootItem started) as Hkind.
    destruct (uploadItem lib w rootItem started) as [[err|pinId] st].
    + cbn [fst snd upload isUploading rootPinId notices events pins setProgress
             uploadProgress].
      repeat split. unfold emitted. rewrite filter_app. reflexivity.
    + cbn [fst snd upload isUploading rootPinId notices events pins setProgress
             uploadProgress] in *.
      repeat split.
      * unfold emitted. rewrite filter_app. reflexivity.
      * now apply Hkind.
      * exists added. split; [exact Hevents|].
        rewrite (Hdone pinId eq_refl), app_nil_r in Htags. exact Htags.
Qed.
